(** * Airguard telemetry pipeline: sender gate, sample store, ingest paths, fan-out

  Shallow embedding of
  - the sender firmware's hard gate (esp32s3-gps-mpu-button-sender.ino),
  - the REST/WebSocket backend (POST and GET /v1/samples, broadcastToWS),
  - the MQTT to MongoDB bridge (processSample, broadcastToWS),
  and the properties of the ingestion-and-fanout specification checked
  against them. *)

From stdpp Require Import gmap strings list.
From Stdlib Require Import ZArith Lia Bool Ascii.

Local Open Scope Z_scope.

(* ===================================================================== *)
(** ** Sender firmware: the hard gate of [loop()] *)
(* ===================================================================== *)

Module Sender.

(** [#define TEN_SEC_MS 10000UL] *)
Definition TEN_SEC_MS : Z := 10000.

(** [unsigned long] is 32 bits wide on the ESP32-S3. *)
Definition ULONG_MOD : Z := 2 ^ 32.

(** Unsigned subtraction [a - b] as the firmware computes every age. *)
Definition usub (a b : Z) : Z := (a - b) mod ULONG_MOD.

(** The globals the gate reads. *)
Record State := {
  peerAdded : bool;
  lastSendSuccessTs : Z;   (* unsigned long, initial value 0 *)
  mpuReady : bool;
  mpuLastOK : Z;
  lastGpsCharMs : Z;
  lastGpsUpdateMs : Z;
  pressStart : Z
}.

(** What the TinyGPSPlus object answers when the gate asks. *)
Record Gps := {
  location_isValid : bool;
  location_age : Z;        (* gps.location.age(), uint32_t *)
  satellites_value : Z     (* gps.satellites.value(), uint32_t *)
}.

(** The value of each [millis()] call made on the way through the gate,
    in program order. *)
Record Millis := {
  at_link : Z;         (* loop(): bool linkOK = ... millis()-lastSendSuccessTs *)
  at_release : Z;      (* unsigned long dur = millis()-pressStart *)
  at_mpu : Z;          (* mpuHealthy() *)
  at_gpsPresent : Z;   (* gpsPresent() *)
  at_gpsFresh : Z      (* gpsFresh() *)
}.

(** [bool linkOK = peerAdded && (lastSendSuccessTs!=0) && (millis()-lastSendSuccessTs<5000);] *)
Definition linkOK (st : State) (now : Z) : bool :=
  peerAdded st && negb (lastSendSuccessTs st =? 0)
    && (usub now (lastSendSuccessTs st) <? 5000).

(** [mpuHealthy(){ return mpuReady && (millis()-mpuLastOK<1200); }] *)
Definition mpuHealthy (st : State) (now : Z) : bool :=
  mpuReady st && (usub now (mpuLastOK st) <? 1200).

(** [gpsPresent(){ return (millis()-lastGpsCharMs) < 3000; }] *)
Definition gpsPresent (st : State) (now : Z) : bool :=
  usub now (lastGpsCharMs st) <? 3000.

(** [gpsFresh(){ return (millis()-lastGpsUpdateMs) < 3000; }] *)
Definition gpsFresh (st : State) (now : Z) : bool :=
  usub now (lastGpsUpdateMs st) <? 3000.

(** [gpsFixOK(){ return gpsPresent() && gpsFresh() && gps.location.isValid()
      && gps.location.age()<2000 && gps.satellites.value()>=1; }] *)
Definition gpsFixOK (st : State) (g : Gps) (nowPresent nowFresh : Z) : bool :=
  gpsPresent st nowPresent && gpsFresh st nowFresh
    && location_isValid g && (location_age g <? 2000)
    && (1 <=? satellites_value g).

(** The four [return] branches of the gate, named after the reason each
    one logs: "<10s -> discard", "blocked: ESP-NOW not linked",
    "blocked: MPU not ready", "blocked: GPS no fix". *)
Inductive Reason := HoldTooShort | LinkDown | SensorUnhealthy | NoPositionFix.

Inductive Decision := Allow | Deny (r : Reason).

(** The ages the gate compares, as the firmware computes them. *)
Definition holdDuration (st : State) (clk : Millis) : Z :=
  usub (at_release clk) (pressStart st).
Definition linkAge (st : State) (clk : Millis) : Z :=
  usub (at_link clk) (lastSendSuccessTs st).
Definition sensorAge (st : State) (clk : Millis) : Z :=
  usub (at_mpu clk) (mpuLastOK st).
Definition gpsCharAge (st : State) (clk : Millis) : Z :=
  usub (at_gpsPresent clk) (lastGpsCharMs st).
Definition gpsUpdateAge (st : State) (clk : Millis) : Z :=
  usub (at_gpsFresh clk) (lastGpsUpdateMs st).

(** On button release while measuring:
<<
    unsigned long dur=millis()-pressStart;
    if(dur < TEN_SEC_MS){ ... return; }
    if(!peerAdded || !linkOK){ ... return; }
    if(!mpuHealthy()){ ... return; }
    if(!gpsFixOK()){ ... return; }
    ... makePacket, esp_now_send
>>
*)
Definition hardGate (st : State) (g : Gps) (clk : Millis) : Decision :=
  let link := linkOK st (at_link clk) in
  let dur := usub (at_release clk) (pressStart st) in
  if dur <? TEN_SEC_MS then Deny HoldTooShort
  else if negb (peerAdded st) || negb link then Deny LinkDown
  else if negb (mpuHealthy st (at_mpu clk)) then Deny SensorUnhealthy
  else if negb (gpsFixOK st g (at_gpsPresent clk) (at_gpsFresh clk))
       then Deny NoPositionFix
  else Allow.

(** The four conditions of the written gate policy, on the ages alone. *)
Definition policyHold (st : State) (clk : Millis) : Prop :=
  holdDuration st clk >= 10000.
Definition policyLink (st : State) (clk : Millis) : Prop :=
  linkAge st clk < 5000.
Definition policySensor (st : State) (clk : Millis) : Prop :=
  sensorAge st clk < 1200.
Definition policyPosition (g : Gps) : Prop :=
  location_isValid g = true /\ location_age g < 2000 /\ satellites_value g >= 1.

(** The guards the firmware adds to the three health conditions. *)
Definition linkGuard (st : State) : Prop :=
  peerAdded st = true /\ lastSendSuccessTs st <> 0.
Definition sensorGuard (st : State) : Prop := mpuReady st = true.
Definition positionGuard (st : State) (clk : Millis) : Prop :=
  gpsCharAge st clk < 3000 /\ gpsUpdateAge st clk < 3000.

(** A sender that is healthy in every respect at time [now], having been
    pressed at [now - hold]. *)
Definition healthyState (now hold : Z) : State :=
  {| peerAdded := true; lastSendSuccessTs := now - 100;
     mpuReady := true; mpuLastOK := now - 10;
     lastGpsCharMs := now - 50; lastGpsUpdateMs := now - 500;
     pressStart := now - hold |}.
Definition goodFix : Gps :=
  {| location_isValid := true; location_age := 400; satellites_value := 6 |}.
Definition allAt (now : Z) : Millis :=
  {| at_link := now; at_release := now; at_mpu := now;
     at_gpsPresent := now; at_gpsFresh := now |}.

(** Healthy ages all round, but [serviceMPU] has just cleared [mpuReady]
    (four failed reads in a row, or a failed probe) 400 ms after the last
    good read; the button was held for exactly ten seconds. *)
Definition sensorFlaggedState : State :=
  {| peerAdded := true; lastSendSuccessTs := 49900;
     mpuReady := false; mpuLastOK := 49600;
     lastGpsCharMs := 49950; lastGpsUpdateMs := 49500;
     pressStart := 40000 |}.

(** A sender whose peer has never acknowledged anything, pressed at
    [now - hold]. *)
Definition neverAckedState (now hold : Z) : State :=
  {| peerAdded := true; lastSendSuccessTs := 0;
     mpuReady := true; mpuLastOK := now - 10;
     lastGpsCharMs := now - 50; lastGpsUpdateMs := now - 500;
     pressStart := now - hold |}.

End Sender.

(* ===================================================================== *)
(** ** JSON documents as the two Node.js services handle them *)
(* ===================================================================== *)

Module Js.

(** The values a sample document holds. A JSON number is kept exactly, in
    millionths (the receiver prints at most six decimals); [JDate] is what
    [new Date()] yields, in epoch milliseconds. Nested objects and arrays
    do not occur in a sample and are left out. *)
Inductive Value :=
| JNull
| JBool (b : bool)
| JNumber (micro : Z)
| JString (s : string)
| JDate (ms : Z).

#[global] Instance Value_eq_dec : EqDecision Value.
Proof. solve_decision. Defined.

(** An object: property name to value; an absent property reads [undefined],
    here [None]. *)
Abbreviation Doc := (gmap string Value).

(** JavaScript truthiness of a property read, as [!data.createdAt] and
    [x || 100] test it. *)
Definition truthy (v : option Value) : bool :=
  match v with
  | None => false
  | Some JNull => false
  | Some (JBool b) => b
  | Some (JNumber n) => negb (n =? 0)
  | Some (JString s) => negb (bool_decide (s = ""%string))
  | Some (JDate _) => true
  end.

(** A whole number. *)
Definition JInt (n : Z) : Value := JNumber (n * 1000000).

End Js.

(* ===================================================================== *)
(** ** The [samples] collection with its unique index on [batchId] *)
(* ===================================================================== *)

Module Mongo.
Import Js.

(** [createIndex({ batchId: 1 }, { unique: true })]: the index entry of a
    document is its [batchId]; a document without the field is indexed
    under null. *)
Definition indexKey (d : Doc) : Value := default JNull (d !! "batchId"%string).

Definition hasKey (k : Value) (coll : list Doc) : bool :=
  existsb (fun d => bool_decide (indexKey d = k)) coll.

Definition countKey (k : Value) (coll : list Doc) : nat :=
  length (filter (fun d => indexKey d = k) coll).

(** The unique index on [_id] that every collection has. Both handlers hand
    the body to [insertOne] as it came, so a body may bring an [_id] of its
    own. The driver gives a document whose [_id] is missing or null a new
    ObjectId before it sends it ([if (doc._id == null) doc._id = ...]);
    ObjectIds differ from one another and from every value a JSON body can
    hold, so only ids that bodies supplied can collide. The generated id
    itself is left out of the document (a null [_id] stays as the body had
    it). *)
Definition suppliedId (d : Doc) : option Value :=
  match d !! "_id"%string with
  | Some JNull | None => None
  | Some v => Some v
  end.

Definition hasId (id : option Value) (coll : list Doc) : bool :=
  match id with
  | Some v => existsb (fun d => bool_decide (suppliedId d = Some v)) coll
  | None => false
  end.

(** What [await samplesCollection.insertOne(data)] comes back with: it
    resolves, or it rejects with [error.code === 11000], or it rejects with
    any other error (server unreachable, ...). *)
Inductive InsertResult := Acknowledged | DuplicateKey | Failed.

#[global] Instance InsertResult_eq_dec : EqDecision InsertResult.
Proof. solve_decision. Defined.

(** One [insertOne] as the server executes it: check of the two unique
    indexes and append in a single operation; a violation of either index
    is rejected with code 11000. [reachable = false] is an operation the
    server never executes. *)
Definition insertOne (reachable : bool) (data : Doc) (coll : list Doc)
  : list Doc * InsertResult :=
  if negb reachable then (coll, Failed)
  else if hasKey (indexKey data) coll || hasId (suppliedId data) coll
       then (coll, DuplicateKey)
  else (coll ++ [data], Acknowledged).

(** The state the unique index maintains. *)
Definition uniqueIndex (coll : list Doc) : Prop := NoDup (indexKey <$> coll).

(** BSON comparison order of the value kinds that occur:
    null < numbers < strings < booleans < dates. A missing field sorts as
    null. *)
Definition bsonRank (v : Value) : Z :=
  match v with
  | JNull => 0 | JNumber _ => 1 | JString _ => 2 | JBool _ => 3 | JDate _ => 4
  end.

Definition bsonLeb (a b : Value) : bool :=
  match a, b with
  | JNumber x, JNumber y => x <=? y
  | JDate x, JDate y => x <=? y
  | JBool x, JBool y => implb x y
  | JString x, JString y => bool_decide (x = y) || String.ltb x y
  | _, _ => bsonRank a <=? bsonRank b
  end.

Definition sortKey (field : string) (d : Doc) : Value := default JNull (d !! field).

(** [.sort({ field: -1 })]: descending. The server is free in the order of
    documents with equal keys; [sortDesc] keeps them in collection order,
    which is one of the answers the server may give ([sortedAnswer]
    below). *)
Fixpoint insertDesc (field : string) (d : Doc) (sorted : list Doc) : list Doc :=
  match sorted with
  | [] => [d]
  | e :: rest =>
      if bsonLeb (sortKey field e) (sortKey field d)
         && negb (bool_decide (sortKey field e = sortKey field d))
      then d :: e :: rest
      else e :: insertDesc field d rest
  end.

Definition sortDesc (field : string) (coll : list Doc) : list Doc :=
  fold_left (fun acc d => insertDesc field d acc) coll [].

(** What the server may answer to [find({}).sort({ field: -1 })]: each
    document of the collection once, none after a document with a smaller
    key, whatever the order among equal keys. *)
Fixpoint descending (field : string) (listing : list Doc) : Prop :=
  match listing with
  | [] => True
  | a :: rest =>
      Forall (fun b => bsonLeb (sortKey field b) (sortKey field a) = true) rest
      /\ descending field rest
  end.

Definition sortedAnswer (field : string) (coll listing : list Doc) : Prop :=
  listing ≡ₚ coll /\ descending field listing.

(** [.limit(n)] of the cursor: [0] is no limit, a negative [n] is read as
    its absolute value. *)
Definition cursorLimit (n : Z) (docs : list Doc) : list Doc :=
  if n =? 0 then docs else take (Z.to_nat (Z.abs n)) docs.

(** [find({}).sort({createdAt:-1}).skip(skip).limit(limit).toArray()];
    the server rejects a negative skip. *)
Definition findSorted (skip limit : Z) (coll : list Doc) : option (list Doc) :=
  if skip <? 0 then None
  else Some (cursorLimit limit (drop (Z.to_nat skip) (sortDesc "createdAt" coll))).

Definition countDocuments (coll : list Doc) : Z := Z.of_nat (length coll).

End Mongo.

(* ===================================================================== *)
(** ** WebSocket fan-out, as both services implement it *)
(* ===================================================================== *)

Module Ws.
Import Js.

(** A [ws] connection object: its identity, its [readyState]
    (0 connecting, 1 open, 2 closing, 3 closed) and whether [send] throws
    when called on it. *)
Record WsClient := {
  handle : nat;
  readyState : Z;
  sendThrows : bool
}.

#[global] Instance WsClient_eq_dec : EqDecision WsClient.
Proof. solve_decision. Defined.

(** The message a broadcast carries: [{ type: 'new_sample', data }]. *)
Inductive Message :=
| NewSample (data : Doc).

(** The text [JSON.stringify] returns, kept as the message it encodes. *)
Inductive Payload := Serialized (m : Message).

Definition JSON_stringify (m : Message) : Payload := Serialized m.

(** The console lines of interest. *)
Inductive Log :=
| LogStored (batchId : option Value)      (* "Sample stored: ..." *)
| LogDuplicate (batchId : option Value)   (* "Duplicate batch ID: ..." *)
| LogInsertError                          (* backend: "Insert error:" *)
| LogProcessError                         (* bridge: "Process error:" *)
| LogWsSendError (h : nat)                (* "WS send error:" *)
| LogBroadcast (sent : Z).                (* "Broadcast to n client(s)" *)

#[global] Instance Log_eq_dec : EqDecision Log.
Proof. solve_decision. Defined.

(** One Node.js process: its [wsClients] set in insertion order, the frames
    accepted by [client.send], its console, and (for counting) the
    arguments of every [broadcastToWS] call made so far. *)
Record Proc := {
  wsClients : list WsClient;
  outbox : list (nat * Payload);
  console : list Log;
  calls : list Doc
}.

Definition freshProc (clients : list WsClient) : Proc :=
  {| wsClients := clients; outbox := []; console := []; calls := [] |}.

Definition writeLog (l : Log) (p : Proc) : Proc :=
  {| wsClients := wsClients p; outbox := outbox p;
     console := console p ++ [l]; calls := calls p |}.

(** Loop state of [wsClients.forEach]: frames accepted, console, [sent]. *)
Record Loop := {
  frames : list (nat * Payload);
  lines : list Log;
  sent : Z
}.

(** The body of the [forEach] callback:
<<
    if (client.readyState === 1) {
      try { client.send(payload); sent++; }
      catch (error) { console.error('WS send error:', error); }
    }
>>
*)
Definition sendTo (payload : Payload) (acc : Loop) (client : WsClient) : Loop :=
  if readyState client =? 1 then
    if sendThrows client
    then {| frames := frames acc;
            lines := lines acc ++ [LogWsSendError (handle client)];
            sent := sent acc |}
    else {| frames := frames acc ++ [(handle client, payload)];
            lines := lines acc;
            sent := sent acc + 1 |}
  else acc.

(** The loop and the final [if (sent > 0) log] shared by the two
    [broadcastToWS] functions; [payload] is computed once, by the caller. *)
Definition forEachSend (payload : Payload) (data : Doc) (p : Proc) : Proc :=
  let r := fold_left (sendTo payload) (wsClients p)
             {| frames := outbox p; lines := console p; sent := 0 |} in
  {| wsClients := wsClients p;
     outbox := frames r;
     console := if 0 <? sent r then lines r ++ [LogBroadcast (sent r)] else lines r;
     calls := calls p ++ [data] |}.

(** [wsClients.delete(ws)]: a connection object is identified by its
    [handle], whatever state it is in by now. *)
Definition setDelete (c : WsClient) (cs : list WsClient) : list WsClient :=
  filter (fun x => handle x ≠ handle c) cs.

(** [ws.on('close', () => wsClients.delete(ws))] *)
Definition onClose (c : WsClient) (p : Proc) : Proc :=
  {| wsClients := setDelete c (wsClients p); outbox := outbox p;
     console := console p; calls := calls p |}.

(** [ws.on('error', () => wsClients.delete(ws))] *)
Definition onError (c : WsClient) (p : Proc) : Proc :=
  {| wsClients := setDelete c (wsClients p); outbox := outbox p;
     console := console p; calls := calls p |}.

(** A member the loop hands the frame to: open, and [send] returns. *)
Definition deliverable (c : WsClient) : bool :=
  (readyState c =? 1) && negb (sendThrows c).

(** A member whose [send] is attempted and throws. *)
Definition throwing (c : WsClient) : bool :=
  (readyState c =? 1) && sendThrows c.

(** The frames a given connection has accepted. *)
Definition received (h : nat) (p : Proc) : list Payload :=
  snd <$> filter (fun f => fst f = h) (outbox p).

End Ws.

(* ===================================================================== *)
(** ** The REST backend *)
(* ===================================================================== *)

Module Backend.
Import Js Mongo Ws.

Inductive Body :=
| Success (batchId : option Value)    (* { success: true, batchId } *)
| Error (message : string)            (* { error } *)
| Page (samples : list Doc) (total limit skip : Z).

Record Response := { status : Z; body : Body }.

(** [function broadcastToWS(message)]: called with
    [{ type: 'new_sample', data }]. *)
Definition broadcastToWS (data : Doc) (p : Proc) : Proc :=
  let payload := JSON_stringify (NewSample data) in
  forEachSend payload data p.

(** POST /v1/samples up to the [await], for a request that has passed
    [express.json()] and [authenticate], so that [req.body] is an object:
<<
    const data = req.body;
    data.createdAt = new Date();
    data.updatedAt = new Date();
>>
*)
Definition post_prepare (body : Doc) (t1 t2 : Z) : Doc :=
  <["updatedAt"%string := JDate t2]> (<["createdAt"%string := JDate t1]> body).

(** POST /v1/samples after the [await]: the rest of the [try] block, or
    the [catch] block. *)
Definition post_resume (data : Doc) (r : InsertResult) (p : Proc) : Proc * Response :=
  match r with
  | Acknowledged =>
      let p1 := writeLog (LogStored (data !! "batchId"%string)) p in
      let p2 := broadcastToWS data p1 in
      (p2, {| status := 201; body := Success (data !! "batchId"%string) |})
  | DuplicateKey =>
      (writeLog (LogDuplicate (data !! "batchId"%string)) p,
       {| status := 409; body := Error "Duplicate batchId" |})
  | Failed =>
      (writeLog LogInsertError p,
       {| status := 500; body := Error "Internal server error" |})
  end.

(** [parseInt(string)]: leading white space, an optional sign, an optional
    [0x] prefix, then the longest run of digits; [None] is NaN.

    A string is the sequence of its code units, of which those below 256
    are represented; the white space among them is tab, line feed, vertical
    tab, form feed, carriage return, space and the no-break space U+00A0.
    The number is kept exactly: JavaScript agrees up to 2^53 and rounds a
    longer numeral to a double, so what is said below about the exact value
    of a numeral is said for values up to [MAX_SAFE_INTEGER]. *)
Definition MAX_SAFE_INTEGER : Z := 2 ^ 53 - 1.

Definition isSpace (c : ascii) : bool :=
  let n := nat_of_ascii c in
  ((n =? 32) || (n =? 9) || (n =? 10) || (n =? 11) || (n =? 12) || (n =? 13)
   || (n =? 160))%nat.

Fixpoint skipSpaces (s : string) : string :=
  match s with
  | String c rest => if isSpace c then skipSpaces rest else s
  | EmptyString => s
  end.

Definition digitValue (c : ascii) : option Z :=
  let n := Z.of_nat (nat_of_ascii c) in
  if (48 <=? n) && (n <=? 57) then Some (n - 48)
  else if (97 <=? n) && (n <=? 102) then Some (n - 87)
  else if (65 <=? n) && (n <=? 70) then Some (n - 55)
  else None.

(** Longest digit prefix in [radix], accumulated left to right. *)
Fixpoint digits (radix : Z) (acc : option Z) (s : string) : option Z :=
  match s with
  | String c rest =>
      match digitValue c with
      | Some d =>
          if d <? radix then digits radix (Some (default 0 acc * radix + d)) rest
          else acc
      | None => acc
      end
  | EmptyString => acc
  end.

Definition unsignedPart (s : string) : option Z :=
  match s with
  | String "0"%char (String "x"%char rest) => digits 16 None rest
  | String "0"%char (String "X"%char rest) => digits 16 None rest
  | _ => digits 10 None s
  end.

Definition parseInt (s : string) : option Z :=
  match skipSpaces s with
  | String "-"%char rest => Z.opp <$> unsignedPart rest
  | String "+"%char rest => unsignedPart rest
  | rest => unsignedPart rest
  end.

(** A decimal numeral, the way a client writes a requested limit: its
    digits, most significant first, the text it is sent as, and the number
    it denotes. *)
Definition isDigit (d : Z) : Prop := 0 <= d <= 9.

Definition digitChar (d : Z) : ascii := ascii_of_nat (Z.to_nat (48 + d)).

Fixpoint numeral (ds : list Z) : string :=
  match ds with
  | [] => EmptyString
  | d :: rest => String (digitChar d) (numeral rest)
  end.

Definition numeralValue (ds : list Z) : Z :=
  fold_left (fun acc d => acc * 10 + d) ds 0.

(** [x || dflt] on a number: NaN and 0 are falsy. *)
Definition orDefault (x : option Z) (dflt : Z) : Z :=
  match x with
  | Some n => if n =? 0 then dflt else n
  | None => dflt
  end.

(** [parseInt(req.query.name)]; an absent parameter is [undefined], which
    parses to NaN. *)
Definition parseQuery (q : option string) : option Z := q ≫= parseInt.

(** [const limit = Math.min(parseInt(req.query.limit) || 100, 1000);] *)
Definition effectiveLimit (q : option string) : Z :=
  Z.min (orDefault (parseQuery q) 100) 1000.

(** [const skip = parseInt(req.query.skip) || 0;] *)
Definition effectiveSkip (q : option string) : Z := orDefault (parseQuery q) 0.

(** GET /v1/samples *)
Definition get_v1_samples (reachable : bool) (qlimit qskip : option string)
    (coll : list Doc) : Response :=
  let limit := effectiveLimit qlimit in
  let skip := effectiveSkip qskip in
  if negb reachable then {| status := 500; body := Error "Internal server error" |}
  else match findSorted skip limit coll with
       | Some samples =>
           {| status := 200; body := Page samples (countDocuments coll) limit skip |}
       | None => {| status := 500; body := Error "Internal server error" |}
       end.

End Backend.

(* ===================================================================== *)
(** ** The MQTT to MongoDB bridge *)
(* ===================================================================== *)

Module Bridge.
Import Js Mongo Ws.

(** What [JSON.parse(payload)] makes of an MQTT payload: a SyntaxError, a
    primitive (null, boolean, number, string) or an object. Top-level
    arrays are left out. *)
Inductive BusPayload :=
| NotJson
| JsonPrimitive (v : Value)
| JsonObject (d : Doc).

(** [function broadcastToWS(data)]:
<<
    if (!WS_ENABLED || wsClients.size === 0) return;
    const payload = JSON.stringify({ type: 'new_sample', data });
    ... same loop ...
>>
*)
Definition broadcastToWS (WS_ENABLED : bool) (data : Doc) (p : Proc) : Proc :=
  if negb WS_ENABLED || (length (wsClients p) =? 0)%nat
  then {| wsClients := wsClients p; outbox := outbox p;
          console := console p; calls := calls p ++ [data] |}
  else
    let payload := JSON_stringify (NewSample data) in
    forEachSend payload data p.

(** [processSample] up to the [await]:
<<
    const data = JSON.parse(payload);
    if (!data.createdAt) data.createdAt = new Date();
    if (!data.updatedAt) data.updatedAt = new Date();
>>
    [None] is an exception on the way: the SyntaxError of [JSON.parse], or
    the TypeError of reading a property of null or, the module being strict
    code, of creating one on a primitive. *)
Definition process_prepare (payload : BusPayload) (t1 t2 : Z) : option Doc :=
  match payload with
  | NotJson => None
  | JsonPrimitive _ => None
  | JsonObject data =>
      let data1 := if truthy (data !! "createdAt"%string) then data
                   else <["createdAt"%string := JDate t1]> data in
      let data2 := if truthy (data1 !! "updatedAt"%string) then data1
                   else <["updatedAt"%string := JDate t2]> data1 in
      Some data2
  end.

(** The outer [catch]: [log.error('Process error:', error)]. *)
Definition process_failed (p : Proc) : Proc := writeLog LogProcessError p.

(** [processSample] after the [await]: the rest of the inner [try], or the
    inner [catch], which rethrows anything but code 11000 to the outer one. *)
Definition process_resume (WS_ENABLED : bool) (data : Doc) (r : InsertResult)
    (p : Proc) : Proc :=
  match r with
  | Acknowledged =>
      broadcastToWS WS_ENABLED data (writeLog (LogStored (data !! "batchId"%string)) p)
  | DuplicateKey => writeLog (LogDuplicate (data !! "batchId"%string)) p
  | Failed => process_failed p
  end.

End Bridge.

(* ===================================================================== *)
(** ** Both services against one database *)
(* ===================================================================== *)

Module Pipeline.
Import Js Mongo Ws.

(** The backend and the bridge are two processes, each with its own
    [wsClients]; they share the [samples] collection. *)
Record World := {
  samples : list Doc;
  backend : Proc;
  bridge : Proc
}.

Definition freshWorld (backendClients bridgeClients : list WsClient) : World :=
  {| samples := []; backend := freshProc backendClients;
     bridge := freshProc bridgeClients |}.

(** POST /v1/samples run from request to response with nothing in between. *)
Definition post_v1_samples (reachable : bool) (body : Doc) (t1 t2 : Z) (w : World)
  : World * Backend.Response :=
  let data := Backend.post_prepare body t1 t2 in
  let '(coll, r) := insertOne reachable data (samples w) in
  let '(p, resp) := Backend.post_resume data r (backend w) in
  ({| samples := coll; backend := p; bridge := bridge w |}, resp).

(** [processSample(payload)] run to completion with nothing in between. *)
Definition processSample (WS_ENABLED reachable : bool) (payload : Bridge.BusPayload)
    (t1 t2 : Z) (w : World) : World :=
  match Bridge.process_prepare payload t1 t2 with
  | None =>
      {| samples := samples w; backend := backend w;
         bridge := Bridge.process_failed (bridge w) |}
  | Some data =>
      let '(coll, r) := insertOne reachable data (samples w) in
      {| samples := coll; backend := backend w;
         bridge := Bridge.process_resume WS_ENABLED data r (bridge w) |}
  end.

(** How often [broadcastToWS] has been called, in either process, with a
    sample whose index key is [k]. *)
Definition broadcastsFor (k : Value) (w : World) : nat :=
  (countKey k (calls (backend w)) + countKey k (calls (bridge w)))%nat.

(** *** Handlers in flight

    A handler is suspended once, at [await samplesCollection.insertOne(data)].
    The event loop may run any other handler while it waits, and the server
    executes the pending inserts in any order. *)

Inductive Path := Direct | Bus.

Inductive Source :=
| FromDirect (body : Doc)
| FromBus (payload : Bridge.BusPayload).

Inductive Stage :=
| Arrived (src : Source)                               (* handler not started *)
| Inserting (p : Path) (data : Doc)                    (* at the await, insert not yet executed *)
| Answered (p : Path) (data : Doc) (r : InsertResult)  (* insert executed, handler not yet resumed *)
| Finished (p : Path) (data : Doc) (r : InsertResult)  (* handler returned *)
| Dropped.                                             (* bus payload discarded before any insert *)

Record Sys := {
  world : World;
  tasks : list Stage;
  replies : list (nat * Backend.Response)
}.

Inductive Label :=
| Start (i : nat) (t1 t2 : Z)         (* handler i runs up to its await *)
| Store (i : nat) (reachable : bool)  (* the server executes (or never gets) insert i *)
| Resume (i : nat).                   (* handler i runs from its await to the end *)

Definition arrive (srcs : list Source) (w : World) : Sys :=
  {| world := w; tasks := Arrived <$> srcs; replies := [] |}.

Definition step (WS_ENABLED : bool) (l : Label) (s : Sys) : option Sys :=
  let w := world s in
  match l with
  | Start i t1 t2 =>
      match tasks s !! i with
      | Some (Arrived (FromDirect body)) =>
          Some {| world := w;
                  tasks := <[i := Inserting Direct (Backend.post_prepare body t1 t2)]> (tasks s);
                  replies := replies s |}
      | Some (Arrived (FromBus payload)) =>
          match Bridge.process_prepare payload t1 t2 with
          | Some data =>
              Some {| world := w;
                      tasks := <[i := Inserting Bus data]> (tasks s);
                      replies := replies s |}
          | None =>
              Some {| world := {| samples := samples w; backend := backend w;
                                  bridge := Bridge.process_failed (bridge w) |};
                      tasks := <[i := Dropped]> (tasks s);
                      replies := replies s |}
          end
      | _ => None
      end
  | Store i reachable =>
      match tasks s !! i with
      | Some (Inserting p data) =>
          let '(coll, r) := insertOne reachable data (samples w) in
          Some {| world := {| samples := coll; backend := backend w; bridge := bridge w |};
                  tasks := <[i := Answered p data r]> (tasks s);
                  replies := replies s |}
      | _ => None
      end
  | Resume i =>
      match tasks s !! i with
      | Some (Answered Direct data r) =>
          let '(p, resp) := Backend.post_resume data r (backend w) in
          Some {| world := {| samples := samples w; backend := p; bridge := bridge w |};
                  tasks := <[i := Finished Direct data r]> (tasks s);
                  replies := replies s ++ [(i, resp)] |}
      | Some (Answered Bus data r) =>
          Some {| world := {| samples := samples w; backend := backend w;
                              bridge := Bridge.process_resume WS_ENABLED data r (bridge w) |};
                  tasks := <[i := Finished Bus data r]> (tasks s);
                  replies := replies s |}
      | _ => None
      end
  end.

(** A schedule is a list of labels; [None] when it asks for a step that is
    not enabled. *)
Fixpoint run (WS_ENABLED : bool) (ls : list Label) (s : Sys) : option Sys :=
  match ls with
  | [] => Some s
  | l :: rest =>
      match step WS_ENABLED l s with
      | Some s' => run WS_ENABLED rest s'
      | None => None
      end
  end.

(** The same steps as a relation, one rule per branch of [step]. *)
Inductive Steps (WS_ENABLED : bool) : Label -> Sys -> Sys -> Prop :=
| StartDirect i t1 t2 s body :
    tasks s !! i = Some (Arrived (FromDirect body)) ->
    Steps WS_ENABLED (Start i t1 t2) s
      {| world := world s;
         tasks := <[i := Inserting Direct (Backend.post_prepare body t1 t2)]> (tasks s);
         replies := replies s |}
| StartBus i t1 t2 s payload data :
    tasks s !! i = Some (Arrived (FromBus payload)) ->
    Bridge.process_prepare payload t1 t2 = Some data ->
    Steps WS_ENABLED (Start i t1 t2) s
      {| world := world s;
         tasks := <[i := Inserting Bus data]> (tasks s);
         replies := replies s |}
| StartDrop i t1 t2 s payload :
    tasks s !! i = Some (Arrived (FromBus payload)) ->
    Bridge.process_prepare payload t1 t2 = None ->
    Steps WS_ENABLED (Start i t1 t2) s
      {| world := {| samples := samples (world s); backend := backend (world s);
                     bridge := Bridge.process_failed (bridge (world s)) |};
         tasks := <[i := Dropped]> (tasks s);
         replies := replies s |}
| StoreInsert i reachable s p data :
    tasks s !! i = Some (Inserting p data) ->
    Steps WS_ENABLED (Store i reachable) s
      {| world := {| samples := fst (insertOne reachable data (samples (world s)));
                     backend := backend (world s); bridge := bridge (world s) |};
         tasks := <[i := Answered p data
                           (snd (insertOne reachable data (samples (world s))))]> (tasks s);
         replies := replies s |}
| ResumeDirect i s data r :
    tasks s !! i = Some (Answered Direct data r) ->
    Steps WS_ENABLED (Resume i) s
      {| world := {| samples := samples (world s);
                     backend := fst (Backend.post_resume data r (backend (world s)));
                     bridge := bridge (world s) |};
         tasks := <[i := Finished Direct data r]> (tasks s);
         replies := replies s
                    ++ [(i, snd (Backend.post_resume data r (backend (world s))))] |}
| ResumeBus i s data r :
    tasks s !! i = Some (Answered Bus data r) ->
    Steps WS_ENABLED (Resume i) s
      {| world := {| samples := samples (world s); backend := backend (world s);
                     bridge := Bridge.process_resume WS_ENABLED data r (bridge (world s)) |};
         tasks := <[i := Finished Bus data r]> (tasks s);
         replies := replies s |}.

(** The [batchId] a raw submission carries. *)
Definition carries (k : Value) (src : Source) : Prop :=
  match src with
  | FromDirect body => body !! "batchId"%string = Some k
  | FromBus (Bridge.JsonObject d) => d !! "batchId"%string = Some k
  | FromBus _ => False
  end.

(** The index key a task is about, once it has a document. *)
Definition stageDoc (st : Stage) : option Doc :=
  match st with
  | Arrived (FromDirect body) => Some body
  | Arrived (FromBus (Bridge.JsonObject d)) => Some d
  | Arrived (FromBus _) => None
  | Inserting _ d | Answered _ d _ | Finished _ d _ => Some d
  | Dropped => None
  end.

Definition stageKey (st : Stage) : option Value := indexKey <$> stageDoc st.

(** The store's answer to a task, once it has one. *)
Definition stageResult (st : Stage) : option InsertResult :=
  match st with
  | Answered _ _ r | Finished _ _ r => Some r
  | _ => None
  end.

(** Inserts for key [k] that succeeded and whose handler has not resumed. *)
Definition pendingWinner (k : Value) (st : Stage) : bool :=
  match st with
  | Answered _ d Acknowledged => bool_decide (indexKey d = k)
  | _ => false
  end.

Definition winner (k : Value) (st : Stage) : bool :=
  match st with
  | Answered _ d Acknowledged | Finished _ d Acknowledged => bool_decide (indexKey d = k)
  | _ => false
  end.

Definition countIf {A} (f : A -> bool) (l : list A) : nat :=
  length (List.filter f l).

(** The invariant of the pipeline: at most one stored record per key, and
    every broadcast made or owed is backed by a stored record. *)
Definition Consistent (s : Sys) : Prop :=
  uniqueIndex (samples (world s)) /\
  forall k, (broadcastsFor k (world s) + countIf (pendingWinner k) (tasks s)
             <= countKey k (samples (world s)))%nat.

Definition WorldOk (w : World) : Prop :=
  uniqueIndex (samples w) /\
  forall k, (broadcastsFor k w <= countKey k (samples w))%nat.

(** *** Concrete data for the scenarios *)

Definition clientA : WsClient := {| handle := 1; readyState := 1; sendThrows := false |}.
Definition clientB : WsClient := {| handle := 2; readyState := 1; sendThrows := true |}.
Definition clientC : WsClient := {| handle := 3; readyState := 1; sendThrows := false |}.
Definition clientClosing : WsClient := {| handle := 4; readyState := 2; sendThrows := false |}.

(** [{batchId:"0xAAAA0001", lat:34.05, lon:-118.25, gpsFix:1, sats:6, tempC}] *)
Definition sampleWith (tempC : Z) : Doc :=
  <["batchId"%string := JString "0xAAAA0001"]>
  (<["lat"%string := JNumber 34050000]>
  (<["lon"%string := JNumber (-118250000)]>
  (<["gpsFix"%string := JInt 1]>
  (<["sats"%string := JInt 6]>
  (<["tempC"%string := JNumber tempC]> ∅))))).

Definition sampleFirst : Doc := sampleWith 25000000.
Definition sampleSecond : Doc := sampleWith 30000000.

(** The same sample without its [batchId]. *)
Definition sampleNoBatchId : Doc := delete "batchId"%string sampleFirst.

(** A sample that arrives already stamped, with the ISO text a JSON body
    carries a date as. *)
Definition inboundStamp : Value := JString "2024-05-01T10:00:00.000Z".

Definition sampleStamped : Doc :=
  <["createdAt"%string := inboundStamp]> (<["updatedAt"%string := inboundStamp]> sampleFirst).

(** A sample of another batch posted with an [_id] of the client's, the
    world after it was stored at time 500, and a sample of [sampleFirst]'s
    batch that brings the same [_id]. *)
Definition otherBatchWithId : Doc :=
  <["_id"%string := JString "sample-1"]>
  (<["batchId"%string := JString "0xBBBB0002"]> sampleFirst).

Definition worldWithId : World :=
  fst (post_v1_samples true otherBatchWithId 500 500 (freshWorld [clientA] [])).

Definition sampleSameId : Doc := <["_id"%string := JString "sample-1"]> sampleFirst.

(** The world after [sampleFirst] was posted at time 1000 with subscriber A
    connected to the backend. *)
Definition worldAfterFirst : World :=
  fst (post_v1_samples true sampleFirst 1000 1000 (freshWorld [clientA] [])).

(** The argument list of the [broadcastToWS] calls a handler makes after
    the store answered [r]. *)
Definition ackCalls (r : InsertResult) (data : Doc) : list Doc :=
  match r with Acknowledged => [data] | _ => [] end.

(** Every task is a submission of the batch with index key [k]. *)
Definition allAbout (k : Value) (ts : list Stage) : Prop :=
  Forall (fun st => stageKey st = Some k) ts.

(** No insert was lost on the way to the store. *)
Definition noneFailed (ts : list Stage) : Prop :=
  Forall (fun st => stageResult st ≠ Some Failed) ts.

(** A task that has its answer implies a stored record for [k]. *)
Definition answeredStored (k : Value) (coll : list Doc) (ts : list Stage) : Prop :=
  Forall (fun st => is_Some (stageResult st) -> (1 <= countKey k coll)%nat) ts.

(** A schedule in which the store executes every insert it is sent. *)
Definition storeAlwaysReachable (ls : list Label) : Prop :=
  forall i, Store i false ∉ ls.

(** The submission is an object that brings no [_id] a record of [coll]
    already has. *)
Definition bringsFreshId (coll : list Doc) (src : Source) : Prop :=
  forall d, stageDoc (Arrived src) = Some d -> hasId (suppliedId d) coll = false.

Definition idsFree (coll : list Doc) (ts : list Stage) : Prop :=
  Forall (fun st => forall d, stageDoc st = Some d -> hasId (suppliedId d) coll = false) ts.

(** While submissions of one batch [k] are handled, with no [_id] of theirs
    in the store [coll0] they met: until a record of [k] is stored the
    store is still [coll0]. *)
Definition ReachInv (k : Value) (coll0 : list Doc) (s : Sys) : Prop :=
  allAbout k (tasks s)
  /\ idsFree coll0 (tasks s)
  /\ ((1 <= countKey k (samples (world s)))%nat \/ samples (world s) = coll0).

(** What holds while submissions of one batch [k] race for a store that
    did not hold it: the acknowledged inserts are exactly the stored
    records of [k]. *)
Definition RaceInv (k : Value) (coll0 : list Doc) (s : Sys) : Prop :=
  ReachInv k coll0 s
  /\ uniqueIndex (samples (world s))
  /\ countIf (winner k) (tasks s) = countKey k (samples (world s))
  /\ noneFailed (tasks s)
  /\ answeredStored k (samples (world s)) (tasks s).

(** *** What the handlers report

    The lines on the two consoles, the responses sent, and the handlers that
    have returned. *)
Definition logCount (l : Log) (w : World) : nat :=
  (countIf (fun x => bool_decide (x = l)) (console (backend w))
   + countIf (fun x => bool_decide (x = l)) (console (bridge w)))%nat.

Definition repliesWith (code : Z) (s : Sys) : nat :=
  countIf (fun ir => Backend.status (snd ir) =? code) (replies s).

Definition returned (st : Stage) : bool :=
  match st with
  | Finished _ _ _ | Dropped => true
  | _ => false
  end.

Definition finishedWith (r : InsertResult) (st : Stage) : bool :=
  match st with
  | Finished _ _ r' => bool_decide (r' = r)
  | _ => false
  end.

Definition finishedDirectWith (r : InsertResult) (st : Stage) : bool :=
  match st with
  | Finished Direct _ r' => bool_decide (r' = r)
  | _ => false
  end.

Definition finishedDirect (st : Stage) : bool :=
  match st with
  | Finished Direct _ _ => true
  | _ => false
  end.

Definition isDirect (src : Source) : bool :=
  match src with
  | FromDirect _ => true
  | FromBus _ => false
  end.

Definition directTask (st : Stage) : bool :=
  match st with
  | Arrived (FromDirect _) | Inserting Direct _ | Answered Direct _ _
  | Finished Direct _ _ => true
  | _ => false
  end.

(** Every task's document has [batchId] [k]. *)
Definition allCarry (k : Value) (ts : list Stage) : Prop :=
  Forall (fun st => forall d, stageDoc st = Some d -> d !! "batchId"%string = Some k) ts.

(** The reports made so far are those of the handlers that have returned:
    one "stored" line and one [broadcastToWS] call per acknowledged insert,
    one "duplicate" line per rejected one, one response per direct
    submission, 201 or 409 as its insert was answered. *)
Definition ObsInv (k : Value) (w0 : World) (nDirect : nat) (s : Sys) : Prop :=
  allCarry k (tasks s)
  /\ countIf directTask (tasks s) = nDirect
  /\ broadcastsFor k (world s)
     = (broadcastsFor k w0 + countIf (finishedWith Acknowledged) (tasks s))%nat
  /\ logCount (LogStored (Some k)) (world s)
     = (logCount (LogStored (Some k)) w0 + countIf (finishedWith Acknowledged) (tasks s))%nat
  /\ logCount (LogDuplicate (Some k)) (world s)
     = (logCount (LogDuplicate (Some k)) w0 + countIf (finishedWith DuplicateKey) (tasks s))%nat
  /\ repliesWith 201 s = countIf (finishedDirectWith Acknowledged) (tasks s)
  /\ repliesWith 409 s = countIf (finishedDirectWith DuplicateKey) (tasks s)
  /\ length (replies s) = countIf finishedDirect (tasks s).

(** Two submissions of [sampleFirst]'s batch, one per path, and a schedule
    that starts both handlers before the store executes either insert, the
    bus one first. *)
Definition raceSources : list Source :=
  [FromDirect sampleFirst; FromBus (Bridge.JsonObject sampleSecond)].

Definition raceSchedule : list Label :=
  [Start 0 1000 1000; Start 1 1001 1001; Store 1 true; Store 0 true;
   Resume 0; Resume 1].

(** The same race between two submissions of [sampleSameId]. *)
Definition idRaceSources : list Source :=
  [FromDirect sampleSameId; FromBus (Bridge.JsonObject sampleSameId)].

End Pipeline.

(* ===================================================================== *)
(** ** The backend's other routes and its [authenticate] middleware *)
(* ===================================================================== *)

Module Routes.
Import Js Mongo Ws Pipeline.

Fixpoint dropChars (n : nat) (s : string) : string :=
  match n, s with
  | O, _ => s
  | S n', String _ rest => dropChars n' rest
  | S _, EmptyString => EmptyString
  end.

(** [s.replace(pat, rep)] with a string pattern: the first occurrence only,
    scanning from the left. *)
Fixpoint replaceFirst (pat rep s : string) {struct s} : string :=
  if String.prefix pat s
  then String.append rep (dropChars (String.length pat) s)
  else match s with
       | EmptyString => EmptyString
       | String c rest => String c (replaceFirst pat rep rest)
       end.

(** Whether [pat] occurs anywhere in [s]. *)
Fixpoint occursIn (pat s : string) {struct s} : bool :=
  String.prefix pat s
  || match s with
     | EmptyString => false
     | String _ rest => occursIn pat rest
     end.

(** [next()] or [res.status(401).json({ error: 'Unauthorized' })]. *)
Inductive Verdict := Next | Unauthorized.

(** A string setting read from the environment is falsy when unset or
    empty. *)
Definition configured (setting : option string) : bool :=
  match setting with
  | Some s => negb (bool_decide (s = ""%string))
  | None => false
  end.

(**
<<
    const authenticate = (req, res, next) => {
      if (!AUTH_TOKEN) return next();
      const token = req.headers.authorization?.replace('Bearer ', '');
      if (token === AUTH_TOKEN) return next();
      return res.status(401).json({ error: 'Unauthorized' });
    };
>>
*)
Definition authenticate (AUTH_TOKEN authorization : option string) : Verdict :=
  if negb (configured AUTH_TOKEN) then Next
  else
    let token := replaceFirst "Bearer " "" <$> authorization in
    if bool_decide (token = AUTH_TOKEN) then Next else Unauthorized.

(** [app.post('/v1/samples', authenticate, handler)]: the handler runs only
    behind the middleware. *)
Definition guarded_post (AUTH_TOKEN authorization : option string)
    (reachable : bool) (body : Doc) (t1 t2 : Z) (w : World)
  : World * Backend.Response :=
  match authenticate AUTH_TOKEN authorization with
  | Next => post_v1_samples reachable body t1 t2 w
  | Unauthorized =>
      (w, {| Backend.status := 401; Backend.body := Backend.Error "Unauthorized" |})
  end.

(** [findOne({ batchId })]: the first document, in collection order, whose
    [batchId] equals the given value. *)
Definition findOne (k : Value) (coll : list Doc) : option Doc :=
  head (filter (fun d => d !! "batchId"%string = Some k) coll).

Inductive SampleReply :=
| Found (sample : Doc)      (* res.json(sample) *)
| NotFound                  (* 404 { error: 'Sample not found' } *)
| QueryError.               (* 500 { error: 'Internal server error' } *)

(** GET /v1/samples/:batchId. The route parameter is always a string.
<<
    const sample = await samplesCollection.findOne({ batchId: req.params.batchId });
    if (!sample) return res.status(404).json({ error: 'Sample not found' });
    res.json(sample);
>>
*)
Definition get_v1_sample (reachable : bool) (batchId : string) (coll : list Doc)
  : SampleReply :=
  if negb reachable then QueryError
  else match findOne (JString batchId) coll with
       | Some sample => Found sample
       | None => NotFound
       end.

(** GET /v1/samples on what the server answered to the sorted [find],
    before [skip] and [limit] cut it:
<<
    const samples = await samplesCollection.find({}).sort({ createdAt: -1 })
      .skip(skip).limit(limit).toArray();
    const total = await samplesCollection.countDocuments();
    res.json({ samples, total, limit, skip });
>>
    [Backend.get_v1_samples] is this handler on the answer [sortDesc]. *)
Definition get_v1_samples_on (listing : list Doc) (qlimit qskip : option string)
    (coll : list Doc) : Backend.Response :=
  let limit := Backend.effectiveLimit qlimit in
  let skip := Backend.effectiveSkip qskip in
  if skip <? 0
  then {| Backend.status := 500; Backend.body := Backend.Error "Internal server error" |}
  else {| Backend.status := 200;
          Backend.body := Backend.Page (cursorLimit limit (drop (Z.to_nat skip) listing))
                            (countDocuments coll) limit skip |}.

(** Every stored record is stamped with a date earlier than [t]. *)
Definition allCreatedBefore (t : Z) (coll : list Doc) : Prop :=
  Forall (fun d => exists ms, d !! "createdAt"%string = Some (JDate ms) /\ ms < t) coll.

(** [sampleFirst] under another batch id. *)
Definition sampleOther : Doc := <["batchId"%string := JString "0xAAAA0002"]> sampleFirst.

End Routes.

(* ===================================================================== *)
(** ** The bridge's settings *)
(* ===================================================================== *)

Module BridgeConfig.
Import Backend.

(** [const MQTT_QOS = parseInt(process.env.MQTT_QOS) || 1;] *)
Definition MQTT_QOS (env : option string) : Z := orDefault (parseQuery env) 1.

(** [const WS_PORT = parseInt(process.env.WS_PORT) || 8081;] *)
Definition WS_PORT (env : option string) : Z := orDefault (parseQuery env) 8081.

(** [const WS_ENABLED = process.env.WS_ENABLED === 'true';] *)
Definition WS_ENABLED (env : option string) : bool :=
  bool_decide (env = Some "true"%string).

End BridgeConfig.

(* ===================================================================== *)
(** ** What reaches a subscriber *)
(* ===================================================================== *)

Module Delivery.
Import Js Mongo Ws Pipeline.

(** The sample a frame carries. *)
Definition frameDoc (f : nat * Payload) : Doc :=
  match snd f with Serialized (NewSample d) => d end.

(** How many frames connection [h] has accepted that carry a sample with
    index key [k]. *)
Definition framesFor (h : nat) (k : Value) (p : Proc) : nat :=
  countIf (fun f => bool_decide (fst f = h) && bool_decide (indexKey (frameDoc f) = k))
          (outbox p).

(** [wsClients] is a [Set]: no connection object is in it twice. *)
Definition distinctHandles (cs : list WsClient) : Prop := NoDup (handle <$> cs).

(** Per process: a connection has at most one frame per [broadcastToWS]
    call, and every frame carries a stored document. *)
Definition procDelivery (coll : list Doc) (p : Proc) : Prop :=
  distinctHandles (wsClients p)
  /\ (forall h k, (framesFor h k p <= countKey k (calls p))%nat)
  /\ (forall f, f ∈ outbox p -> frameDoc f ∈ coll).

(** An acknowledged insert whose handler has not resumed is stored. *)
Definition owedStored (coll : list Doc) (ts : list Stage) : Prop :=
  Forall (fun st => forall p d, st = Answered p d Acknowledged -> d ∈ coll) ts.

Definition DeliveryInv (s : Sys) : Prop :=
  procDelivery (samples (world s)) (backend (world s))
  /\ procDelivery (samples (world s)) (bridge (world s))
  /\ owedStored (samples (world s)) (tasks s).

End Delivery.

(* ===================================================================== *)
(** ** Sender firmware: acknowledgements, the sensor, the packet *)
(* ===================================================================== *)

Module Firmware.
Import Sender.

Definition setLink (ts : Z) (st : State) : State :=
  {| peerAdded := peerAdded st; lastSendSuccessTs := ts;
     mpuReady := mpuReady st; mpuLastOK := mpuLastOK st;
     lastGpsCharMs := lastGpsCharMs st; lastGpsUpdateMs := lastGpsUpdateMs st;
     pressStart := pressStart st |}.

Definition setMpu (ready : bool) (lastOK : Z) (st : State) : State :=
  {| peerAdded := peerAdded st; lastSendSuccessTs := lastSendSuccessTs st;
     mpuReady := ready; mpuLastOK := lastOK;
     lastGpsCharMs := lastGpsCharMs st; lastGpsUpdateMs := lastGpsUpdateMs st;
     pressStart := pressStart st |}.

(**
<<
    void onSent(const wifi_tx_info_t*, esp_now_send_status_t status){
      lastSendSuccess = (status==ESP_NOW_SEND_SUCCESS);
      if(lastSendSuccess) lastSendSuccessTs = millis();
    }
>>
    [lastSendSuccess] itself is only printed and is left out. *)
Definition onSent (success : bool) (now : Z) (st : State) : State :=
  if success then setLink now st else st.

(** What TinyGPSPlus reports for date and time. *)
Record GpsDate := {
  date_isValid : bool;
  year : Z;          (* uint16_t *)
  month : Z;         (* uint8_t *)
  day : Z            (* uint8_t *)
}.

Record GpsTime := {
  time_isValid : bool;
  hour : Z;          (* uint8_t *)
  minute : Z;
  second : Z;
  centisecond : Z
}.

(** [packDateYMD()]: [uint32_t] arithmetic. *)
Definition packDateYMD (d : GpsDate) : Z :=
  if negb (date_isValid d) then 0
  else (year d * 10000 + month d * 100 + day d) mod ULONG_MOD.

(** [packTimeHMS()] *)
Definition packTimeHMS (t : GpsTime) : Z :=
  if negb (time_isValid t) then 0
  else (hour t * 10000 + minute t * 100 + second t) mod ULONG_MOD.

(** [packMS()]: [(uint16_t)(gps.time.centisecond()*10)] *)
Definition packMS (t : GpsTime) : Z :=
  if negb (time_isValid t) then 0 else (centisecond t * 10) mod 2 ^ 16.

(** The three groups of decimal digits of a packed value: everything above
    the low four digits, the two digits in the middle, the two low digits. *)
Definition upperDigits (p : Z) : Z := p / 10000.
Definition middleDigits (p : Z) : Z := (p / 100) mod 100.
Definition lowerDigits (p : Z) : Z := p mod 100.

Section Floats.

(** The firmware's [float] and [double] values. Their arithmetic is not
    interpreted: sums, the division of a sum by the sample count and the
    narrowing of a double stay symbolic. *)
Variable float : Type.
Variable double : Type.
Variable fzero : float.
Variable fadd : float -> float -> float.
Variable fdiv : float -> Z -> float.
Variable narrow : double -> float.

(** [struct Avg] *)
Record Avg := {
  avg_n : Z;                               (* uint32_t *)
  avg_ax : float; avg_ay : float; avg_az : float;
  avg_gx : float; avg_gy : float; avg_gz : float;
  avg_tC : float;
  avg_lat : double; avg_lon : double; avg_alt : double;
  avg_sats : Z                             (* uint8_t *)
}.

(** One [mpu.getEvent] result. *)
Record Reading := {
  r_ax : float; r_ay : float; r_az : float;
  r_gx : float; r_gy : float; r_gz : float;
  r_tC : float
}.

(** [SensorPacket] *)
Record SensorPacket := {
  batchId : Z; sessionMs : Z; samples : Z; dateYMD : Z; timeHMS : Z;
  msec : Z;
  lat : float; lon : float; alt : float;
  gpsFix : Z; sats : Z;
  ax : float; ay : float; az : float;
  gx : float; gy : float; gz : float; tempC : float
}.

(** [makePacket(p, dur, id)]; [fixOK] is what [gpsFixOK()] answers when the
    packet is built. *)
Definition makePacket (avg : Avg) (dur id : Z) (d : GpsDate) (t : GpsTime)
    (fixOK : bool) : SensorPacket :=
  let counted := negb (avg_n avg =? 0) in
  {| batchId := id; sessionMs := dur; samples := avg_n avg;
     dateYMD := packDateYMD d; timeHMS := packTimeHMS t; msec := packMS t;
     lat := narrow (avg_lat avg); lon := narrow (avg_lon avg);
     alt := narrow (avg_alt avg);
     gpsFix := if fixOK then 1 else 0; sats := avg_sats avg;
     ax := if counted then fdiv (avg_ax avg) (avg_n avg) else fzero;
     ay := if counted then fdiv (avg_ay avg) (avg_n avg) else fzero;
     az := if counted then fdiv (avg_az avg) (avg_n avg) else fzero;
     gx := if counted then fdiv (avg_gx avg) (avg_n avg) else fzero;
     gy := if counted then fdiv (avg_gy avg) (avg_n avg) else fzero;
     gz := if counted then fdiv (avg_gz avg) (avg_n avg) else fzero;
     tempC := if counted then fdiv (avg_tC avg) (avg_n avg) else fzero |}.

(** The button release of [loop()]: the hard gate, then
    [makePacket(pkt,dur,esp_random())] and [esp_now_send]. [None] is a
    discarded measurement. [gBuild] and the two extra clock readings are
    what the second [gpsFixOK()], inside [makePacket], sees. *)
Definition onRelease (st : State) (g gBuild : Gps) (clk : Millis)
    (buildPresent buildFresh : Z) (avg : Avg) (d : GpsDate) (t : GpsTime)
    (id : Z) : option SensorPacket :=
  match hardGate st g clk with
  | Allow =>
      Some (makePacket avg (usub (at_release clk) (pressStart st)) id d t
              (gpsFixOK st gBuild buildPresent buildFresh))
  | Deny _ => None
  end.

(** The sensor bookkeeping of the loop: the gate's [State], the failure
    streak, the warm-up countdown, the probe timer, the [static last] of
    [idleMPUUpdate] and the running sums. *)
Record Mpu := {
  base : State;
  mpuFailStreak : Z;
  mpuWarmup : Z;
  lastProbeMs : Z;
  idleLast : Z;
  avg : Avg
}.

Definition setBase (st : State) (m : Mpu) : Mpu :=
  {| base := st; mpuFailStreak := mpuFailStreak m; mpuWarmup := mpuWarmup m;
     lastProbeMs := lastProbeMs m; idleLast := idleLast m; avg := avg m |}.

Definition setWarmup (w : Z) (m : Mpu) : Mpu :=
  {| base := base m; mpuFailStreak := mpuFailStreak m; mpuWarmup := w;
     lastProbeMs := lastProbeMs m; idleLast := idleLast m; avg := avg m |}.

(** [mpuFailStreak] and [mpuWarmup] are C [int]s. The warm-up is only
    decremented while positive; the streak is incremented without a bound,
    and what is said about it holds up to [INT_MAX], beyond which C leaves
    the increment undefined. *)
Definition INT_MAX : Z := 2 ^ 31 - 1.

(** [readMPU]: a failed [getEvent] lengthens the streak; a good one resets it
    and stamps [mpuLastOK]. *)
Definition readMPU (ev : option Reading) (now : Z) (m : Mpu) : Mpu :=
  match ev with
  | None =>
      {| base := base m; mpuFailStreak := mpuFailStreak m + 1;
         mpuWarmup := mpuWarmup m; lastProbeMs := lastProbeMs m;
         idleLast := idleLast m; avg := avg m |}
  | Some _ =>
      {| base := setMpu (mpuReady (base m)) now (base m); mpuFailStreak := 0;
         mpuWarmup := mpuWarmup m; lastProbeMs := lastProbeMs m;
         idleLast := idleLast m; avg := avg m |}
  end.

(** [avg.ax+=ax; ... avg.n++;] *)
Definition accumulate (r : Reading) (a : Avg) : Avg :=
  {| avg_n := (avg_n a + 1) mod ULONG_MOD;
     avg_ax := fadd (avg_ax a) (r_ax r); avg_ay := fadd (avg_ay a) (r_ay r);
     avg_az := fadd (avg_az a) (r_az r);
     avg_gx := fadd (avg_gx a) (r_gx r); avg_gy := fadd (avg_gy a) (r_gy r);
     avg_gz := fadd (avg_gz a) (r_gz r);
     avg_tC := fadd (avg_tC a) (r_tC r);
     avg_lat := avg_lat a; avg_lon := avg_lon a; avg_alt := avg_alt a;
     avg_sats := avg_sats a |}.

(**
<<
    static inline void idleMPUUpdate(){
      if(!mpuReady) return;
      static unsigned long last=0; if(millis()-last<25) return; last=millis();
      float ...; if(readMPU(ax,ay,az,gx,gy,gz,tC) && mpuWarmup>0) mpuWarmup--;
    }
>>
*)
Definition idleMPUUpdate (ev : option Reading) (now nowStamp nowRead : Z)
    (m : Mpu) : Mpu :=
  if negb (mpuReady (base m)) then m
  else if usub now (idleLast m) <? 25 then m
  else
    let m1 := {| base := base m; mpuFailStreak := mpuFailStreak m;
                 mpuWarmup := mpuWarmup m; lastProbeMs := lastProbeMs m;
                 idleLast := nowStamp; avg := avg m |} in
    let m2 := readMPU ev nowRead m1 in
    match ev with
    | Some _ => if 0 <? mpuWarmup m2 then setWarmup (mpuWarmup m2 - 1) m2 else m2
    | None => m2
    end.

(** The measuring block of [loop()]:
<<
    if(mpuReady && readMPU(ax,ay,az,gx,gy,gz,tC)){
      if(mpuWarmup>0) mpuWarmup--;
      else { avg.ax+=ax; ... avg.n++; }
    }
>>
*)
Definition measureBlock (ev : option Reading) (now : Z) (m : Mpu) : Mpu :=
  if negb (mpuReady (base m)) then m
  else
    let m1 := readMPU ev now m in
    match ev with
    | None => m1
    | Some r =>
        if 0 <? mpuWarmup m1 then setWarmup (mpuWarmup m1 - 1) m1
        else {| base := base m1; mpuFailStreak := mpuFailStreak m1;
                mpuWarmup := mpuWarmup m1; lastProbeMs := lastProbeMs m1;
                idleLast := idleLast m1; avg := accumulate r (avg m1) |}
    end.

(** [reinitMPU(addr)]: nothing changes unless [mpu.begin(addr)] succeeds. *)
Definition reinitMPU (beginOk : bool) (now : Z) (m : Mpu) : Mpu :=
  if negb beginOk then m
  else {| base := setMpu true now (base m); mpuFailStreak := 0;
          mpuWarmup := 10; lastProbeMs := lastProbeMs m;
          idleLast := idleLast m; avg := avg m |}.

(**
<<
    static inline void serviceMPU(bool duringMeasure){
      if(duringMeasure && mpuReady && mpuFailStreak>=4) mpuReady=false;
      if(millis()-lastProbeMs<1000) return; lastProbeMs=millis();
      uint8_t addr=0; bool present = probeMPU(addr);
      if(!present){ mpuReady=false; return; }
      if(!mpuReady) reinitMPU(addr);
    }
>>
    [present] and [beginOk] are what the I2C bus answers; [now], [nowStamp]
    and [nowInit] are the three [millis()] readings. *)
Definition serviceMPU (duringMeasure : bool) (now nowStamp nowInit : Z)
    (present beginOk : bool) (m : Mpu) : Mpu :=
  let m1 :=
    if duringMeasure && mpuReady (base m) && (4 <=? mpuFailStreak m)
    then setBase (setMpu false (mpuLastOK (base m)) (base m)) m
    else m in
  if usub now (lastProbeMs m1) <? 1000 then m1
  else
    let m2 := {| base := base m1; mpuFailStreak := mpuFailStreak m1;
                 mpuWarmup := mpuWarmup m1; lastProbeMs := nowStamp;
                 idleLast := idleLast m1; avg := avg m1 |} in
    if negb present
    then setBase (setMpu false (mpuLastOK (base m2)) (base m2)) m2
    else if negb (mpuReady (base m2)) then reinitMPU beginOk nowInit m2
    else m2.

(** The sensor reads of the loop, in the order they happen: the idle update
    at the top of every pass, the measuring block while the button is
    held. *)
Inductive SensorRead :=
| IdleRead (ev : option Reading) (now nowStamp nowRead : Z)
| MeasureRead (ev : option Reading) (now : Z).

Definition applyRead (m : Mpu) (e : SensorRead) : Mpu :=
  match e with
  | IdleRead ev now nowStamp nowRead => idleMPUUpdate ev now nowStamp nowRead m
  | MeasureRead ev now => measureBlock ev now m
  end.

Definition runReads (es : list SensorRead) (m : Mpu) : Mpu :=
  fold_left applyRead es m.

(** A measuring-block pass whose [getEvent] succeeded. *)
Definition goodMeasure (e : SensorRead) : Prop :=
  match e with
  | MeasureRead (Some _) _ => True
  | _ => False
  end.

(** A measuring-block pass whose [getEvent] failed. *)
Definition failedMeasure (e : SensorRead) : Prop :=
  match e with
  | MeasureRead None _ => True
  | _ => False
  end.

End Floats.

Arguments avg_n {float double} _.
Arguments avg_sats {float double} _.
Arguments batchId {float} _.
Arguments sessionMs {float} _.
Arguments samples {float} _.
Arguments dateYMD {float} _.
Arguments timeHMS {float} _.
Arguments msec {float} _.
Arguments gpsFix {float} _.
Arguments sats {float} _.
Arguments ax {float} _.
Arguments ay {float} _.
Arguments az {float} _.
Arguments gx {float} _.
Arguments gy {float} _.
Arguments gz {float} _.
Arguments tempC {float} _.
Arguments base {float double} _.
Arguments mpuFailStreak {float double} _.
Arguments mpuWarmup {float double} _.
Arguments lastProbeMs {float double} _.
Arguments idleLast {float double} _.
Arguments avg {float double} _.
Arguments makePacket {float double} fzero fdiv narrow avg dur id d t fixOK.
Arguments onRelease {float double} fzero fdiv narrow st g gBuild clk
  buildPresent buildFresh avg d t id.
Arguments readMPU {float double} ev now m.
Arguments idleMPUUpdate {float double} ev now nowStamp nowRead m.
Arguments measureBlock {float double} fadd ev now m.
Arguments reinitMPU {float double} beginOk now m.
Arguments serviceMPU {float double} duringMeasure now nowStamp nowInit
  present beginOk m.
Arguments IdleRead {float} ev now nowStamp nowRead.
Arguments MeasureRead {float} ev now.
Arguments applyRead {float double} fadd m e.
Arguments runReads {float double} fadd es m.
Arguments goodMeasure {float} e.
Arguments failedMeasure {float} e.

(** Concrete data, with floats read as integers in thousandths. *)
Definition dateExample : GpsDate :=
  {| date_isValid := true; year := 2025; month := 11; day := 3 |}.
Definition timeExample : GpsTime :=
  {| time_isValid := true; hour := 14; minute := 5; second := 9; centisecond := 42 |}.

Definition readingExample : Reading Z :=
  {| r_ax := 120; r_ay := -40; r_az := 9810; r_gx := 3; r_gy := -2; r_gz := 1;
     r_tC := 25300 |}.

(** [avg] right after [avg.reset()], with the position [pumpGPS] wrote. *)
Definition avgReset : Avg Z Z :=
  {| avg_n := 0; avg_ax := 0; avg_ay := 0; avg_az := 0;
     avg_gx := 0; avg_gy := 0; avg_gz := 0; avg_tC := 0;
     avg_lat := 34050000; avg_lon := -118250000; avg_alt := 89000;
     avg_sats := 6 |}.

(** A ready sensor with [warmup] reads of warm-up left, at time 50000 of a
    ten-second hold. *)
Definition sensorReady (warmup streak : Z) : Mpu Z Z :=
  {| base := healthyState 50000 10000; mpuFailStreak := streak;
     mpuWarmup := warmup; lastProbeMs := 49500; idleLast := 49990;
     avg := avgReset |}.

(** A sensor that was taken out, last probed two seconds ago. *)
Definition sensorDetached : Mpu Z Z :=
  {| base := sensorFlaggedState; mpuFailStreak := 4; mpuWarmup := 0;
     lastProbeMs := 48000; idleLast := 49600; avg := avgReset |}.

End Firmware.

(* ===================================================================== *)
(** ** Receiver firmware: the batch identifier in the JSON line *)
(* ===================================================================== *)

Module Receiver.

Definition isHexDigit (d : Z) : Prop := 0 <= d < 16.

(** One digit of [%X]. *)
Definition hexChar (d : Z) : ascii :=
  if d <? 10 then ascii_of_nat (Z.to_nat (48 + d))
  else ascii_of_nat (Z.to_nat (55 + d)).

(** The [width] low hexadecimal digits of [n], most significant first. *)
Fixpoint hexDigits (width : nat) (n : Z) : list Z :=
  match width with
  | O => []
  | S w => hexDigits w (n / 16) ++ [n mod 16]
  end.

Fixpoint hexString (ds : list Z) : string :=
  match ds with
  | [] => EmptyString
  | d :: rest => String (hexChar d) (hexString rest)
  end.

(** [printJSON]: [Serial.printf("\"batchId\":\"0x%08lX\",", p.batchId)], the
    text between the inner quotes, for a 32-bit [batchId]. *)
Definition batchIdText (id : Z) : string :=
  String "0"%char (String "x"%char (hexString (hexDigits 8 id))).

End Receiver.

(* ===================================================================== *)
(** * Properties *)
(* ===================================================================== *)

Section GateProperties.
Import Sender.

Ltac gate_cases :=
  repeat match goal with
         | |- context [?a <? ?b] => destruct (Z.ltb_spec a b); simpl
         | |- context [?a <=? ?b] => destruct (Z.leb_spec a b); simpl
         | |- context [?a =? ?b] => destruct (Z.eqb_spec a b); simpl
         end.

Ltac gate_unfold :=
  unfold hardGate, linkOK, mpuHealthy, gpsFixOK, gpsPresent, gpsFresh,
    policyHold, policyLink, policySensor, policyPosition, linkGuard,
    sensorGuard, positionGuard, holdDuration, linkAge, sensorAge,
    gpsCharAge, gpsUpdateAge, TEN_SEC_MS in *.

Lemma usub_range a b : 0 <= usub a b < ULONG_MOD.
Proof. unfold usub, ULONG_MOD. apply Z.mod_pos_bound. lia. Qed.

Lemma hardGate_allow_iff st g clk :
  hardGate st g clk = Allow <->
  policyHold st clk /\ (linkGuard st /\ policyLink st clk)
    /\ (sensorGuard st /\ policySensor st clk)
    /\ (positionGuard st clk /\ policyPosition g).
Proof.
  gate_unfold.
  destruct (peerAdded st), (mpuReady st), (location_isValid g); simpl;
    gate_cases; split; intros Hgate; try discriminate; try reflexivity;
    try (repeat split; (lia || congruence)); exfalso;
    intuition (try lia; try congruence).
Qed.

Lemma hardGate_hold_iff st g clk :
  hardGate st g clk = Deny HoldTooShort <-> holdDuration st clk < 10000.
Proof.
  gate_unfold.
  destruct (Z.ltb_spec (usub (at_release clk) (pressStart st)) 10000).
  - tauto.
  - split; [|lia].
    repeat match goal with
           | |- context [if ?c then _ else _] => destruct c
           end; discriminate.
Qed.

Lemma hardGate_link_iff st g clk :
  hardGate st g clk = Deny LinkDown <->
  policyHold st clk /\ ~ (linkGuard st /\ policyLink st clk).
Proof.
  gate_unfold.
  destruct (peerAdded st); simpl; gate_cases;
    repeat match goal with
           | |- context [if ?c then _ else _] => destruct c
           end;
    split; intros Hgate; try discriminate; try reflexivity;
    try (split; [lia | intros [[? ?] ?]; (lia || congruence)]);
    exfalso; destruct Hgate as [? Hn]; try lia; apply Hn;
    repeat split; (lia || congruence).
Qed.

Lemma hardGate_sensor_iff st g clk :
  hardGate st g clk = Deny SensorUnhealthy <->
  policyHold st clk /\ (linkGuard st /\ policyLink st clk)
    /\ ~ (sensorGuard st /\ policySensor st clk).
Proof.
  gate_unfold.
  destruct (peerAdded st), (mpuReady st); simpl; gate_cases;
    repeat match goal with
           | |- context [if ?c then _ else _] => destruct c
           end;
    split; intros Hgate; try discriminate; try reflexivity;
    try (split; [lia | split; [split; [split; congruence | lia]
                              | intros [? ?]; (lia || congruence)]]);
    exfalso; destruct Hgate as (? & [[? ?] ?] & Hn); try lia; try congruence;
    apply Hn; split; (lia || congruence).
Qed.

Lemma hardGate_position_iff st g clk :
  hardGate st g clk = Deny NoPositionFix <->
  policyHold st clk /\ (linkGuard st /\ policyLink st clk)
    /\ (sensorGuard st /\ policySensor st clk)
    /\ ~ (positionGuard st clk /\ policyPosition g).
Proof.
  gate_unfold.
  destruct (peerAdded st), (mpuReady st), (location_isValid g); simpl;
    gate_cases; split; intros Hgate; try discriminate; try reflexivity;
    try (split; [lia | split; [split; [split; congruence | lia] |
           split; [split; [reflexivity | lia] |
                   intros [[? ?] (? & ? & ?)]; (lia || congruence)]]]);
    exfalso; destruct Hgate as (? & [[? ?] ?] & [? ?] & Hn);
    try lia; try congruence;
    apply Hn; repeat split; (lia || congruence).
Qed.

(** C2, counterexample. The written policy makes Allow equivalent to the
    four conditions on hold duration, link age, sensor age and position.
    With the button held exactly 10000 ms, link age 100 ms, sensor age 400 ms
    and a valid fix (age 400 ms, 6 satellites) all four hold, yet the gate
    denies: [mpuReady] is false. *)
Lemma gate_policy_alone_not_allow :
  ~ (hardGate sensorFlaggedState goodFix (allAt 50000) = Allow <->
     policyHold sensorFlaggedState (allAt 50000)
     /\ policyLink sensorFlaggedState (allAt 50000)
     /\ policySensor sensorFlaggedState (allAt 50000)
     /\ policyPosition goodFix).
Proof.
  intros [_ Hback].
  assert (Hallow : hardGate sensorFlaggedState goodFix (allAt 50000) = Allow).
  { apply Hback. vm_compute. repeat split; congruence. }
  vm_compute in Hallow. discriminate.
Qed.

(** C2, as the firmware decides. For all gate inputs the gate returns Allow
    if and only if the hold lasted at least 10000 ms, the peer is added and
    has acknowledged at least once with link age below 5000 ms, the sensor
    is marked ready with age below 1200 ms, and the GPS stream is present
    and fresh (both ages below 3000 ms) with a valid position of age below
    2000 ms and at least one satellite. Otherwise it denies with the first
    failing check in the order HoldTooShort, LinkDown, SensorUnhealthy,
    NoPositionFix; the hold threshold is inclusive, every timeout strict. *)
Theorem gate_decision_characterised st g clk :
  (hardGate st g clk = Allow <->
     policyHold st clk /\ (linkGuard st /\ policyLink st clk)
     /\ (sensorGuard st /\ policySensor st clk)
     /\ (positionGuard st clk /\ policyPosition g))
  /\ (hardGate st g clk = Deny HoldTooShort <-> holdDuration st clk < 10000)
  /\ (hardGate st g clk = Deny LinkDown <->
        policyHold st clk /\ ~ (linkGuard st /\ policyLink st clk))
  /\ (hardGate st g clk = Deny SensorUnhealthy <->
        policyHold st clk /\ (linkGuard st /\ policyLink st clk)
        /\ ~ (sensorGuard st /\ policySensor st clk))
  /\ (hardGate st g clk = Deny NoPositionFix <->
        policyHold st clk /\ (linkGuard st /\ policyLink st clk)
        /\ (sensorGuard st /\ policySensor st clk)
        /\ ~ (positionGuard st clk /\ policyPosition g)).
Proof.
  split; [apply hardGate_allow_iff|].
  split; [apply hardGate_hold_iff|].
  split; [apply hardGate_link_iff|].
  split; [apply hardGate_sensor_iff | apply hardGate_position_iff].
Qed.

(** The boundary scenario: pressed 9999 ms ago the batch is discarded as too
    short; pressed exactly 10000 ms ago, all else healthy, it is sent. *)
Example gate_boundary_scenario :
  hardGate (healthyState 50000 9999) goodFix (allAt 50000) = Deny HoldTooShort
  /\ hardGate (healthyState 50000 10000) goodFix (allAt 50000) = Allow.
Proof. split; reflexivity. Qed.

(** The ages wrap with [millis()]: a press shortly before the 32-bit
    counter rolls over is still measured correctly. *)
Example usub_across_rollover : usub 4000 (ULONG_MOD - 6000) = 10000.
Proof. reflexivity. Qed.

(** C10, counterexample. Read literally the statement gives the link-down
    reason for every hold; never acknowledged and released after 5000 ms
    the gate answers HoldTooShort. *)
Lemma never_acked_short_hold_not_link_down :
  ~ (lastSendSuccessTs (neverAckedState 25000 5000) = 0 ->
     hardGate (neverAckedState 25000 5000) goodFix (allAt 25000) = Deny LinkDown).
Proof. intros Hclaim. specialize (Hclaim eq_refl). vm_compute in Hclaim. discriminate. Qed.

(** C10, as the firmware decides. While the last-ack timestamp still holds
    its initial zero, [linkOK] is false at every instant, whatever the raw
    age [millis() - 0] is, and the gate never allows: a hold of at least
    10000 ms is denied LinkDown whatever the sensor and the position are,
    a shorter one is denied HoldTooShort by the earlier check. *)
Theorem never_acked_gate_denies st g clk :
  lastSendSuccessTs st = 0 ->
  (forall now, linkOK st now = false)
  /\ hardGate st g clk <> Allow
  /\ (holdDuration st clk >= 10000 -> hardGate st g clk = Deny LinkDown)
  /\ (holdDuration st clk < 10000 -> hardGate st g clk = Deny HoldTooShort).
Proof.
  intros Hzero.
  assert (Hlink : forall now, linkOK st now = false).
  { intros now. unfold linkOK. rewrite Hzero. simpl.
    destruct (peerAdded st); reflexivity. }
  split; [exact Hlink|].
  unfold hardGate, holdDuration, TEN_SEC_MS. rewrite Hlink.
  destruct (Z.ltb_spec (usub (at_release clk) (pressStart st)) 10000) as [Hlt|Hge].
  - split; [discriminate|]. split; [lia | reflexivity].
  - rewrite orb_true_r. simpl. split; [discriminate|]. split; [reflexivity | lia].
Qed.

(** At the sentinel the raw link age can be under the timeout (here
    3000 ms) while [linkOK] is false; with a 12 s hold the gate says
    LinkDown. *)
Lemma never_acked_gate_denies_witness :
  lastSendSuccessTs (neverAckedState 12000 12000) = 0
  /\ usub 3000 (lastSendSuccessTs (neverAckedState 12000 12000)) < 5000
  /\ linkOK (neverAckedState 12000 12000) 3000 = false
  /\ hardGate (neverAckedState 12000 12000) goodFix (allAt 12000) = Deny LinkDown.
Proof.
  pose proof (never_acked_gate_denies (neverAckedState 12000 12000) goodFix
                (allAt 12000) eq_refl) as (Hlink & _ & Hdeny & _).
  split; [reflexivity|]. split; [reflexivity|].
  split; [apply Hlink|]. apply Hdeny. vm_compute. discriminate.
Defined.

End GateProperties.

Section PaginationProperties.
Import Js Mongo Backend.

Lemma orDefault_cases x dflt :
  orDefault x dflt = match x with
                     | Some n => if n =? 0 then dflt else n
                     | None => dflt
                     end.
Proof. reflexivity. Qed.

Lemma cursorLimit_length n docs :
  0 < n -> Z.of_nat (length (cursorLimit n docs)) <= n.
Proof.
  intros Hn. unfold cursorLimit.
  destruct (Z.eqb_spec n 0); [lia|].
  rewrite length_take. lia.
Qed.

Lemma page_length reachable q qskip coll docs total l sk :
  0 < effectiveLimit q ->
  get_v1_samples reachable q qskip coll
    = {| status := 200; body := Page docs total l sk |} ->
  l = effectiveLimit q /\ Z.of_nat (length docs) <= l.
Proof.
  intros Hpos. unfold get_v1_samples, findSorted.
  destruct reachable; simpl; [|discriminate].
  destruct (effectiveSkip qskip <? 0); [discriminate|].
  intros Heq. injection Heq as <- _ <- _.
  split; [reflexivity|]. apply cursorLimit_length. exact Hpos.
Qed.

Lemma isDigit_cases d :
  isDigit d ->
  d = 0 \/ d = 1 \/ d = 2 \/ d = 3 \/ d = 4 \/ d = 5 \/ d = 6 \/ d = 7 \/ d = 8 \/ d = 9.
Proof. unfold isDigit. lia. Qed.

Ltac digit_cases H :=
  apply isDigit_cases in H;
  destruct H as [->|[->|[->|[->|[->|[->|[->|[->|[->| ->]]]]]]]]].

Lemma digitValue_digitChar d : isDigit d -> digitValue (digitChar d) = Some d.
Proof. intros Hd. digit_cases Hd; reflexivity. Qed.

Lemma digits_numeral ds acc :
  Forall isDigit ds ->
  digits 10 (Some acc) (numeral ds) = Some (fold_left (fun a d => a * 10 + d) ds acc).
Proof.
  intros Hds. revert acc.
  induction Hds as [|d ds Hd Hds IH]; intros acc; [reflexivity|].
  simpl. rewrite digitValue_digitChar by done.
  assert (Hlt : (d <? 10) = true) by (apply Z.ltb_lt; unfold isDigit in Hd; lia).
  rewrite Hlt. apply IH.
Qed.

(** [parseInt] reads every decimal numeral as the number it denotes. *)
Lemma parseInt_numeral ds :
  ds <> [] -> Forall isDigit ds -> parseInt (numeral ds) = Some (numeralValue ds).
Proof.
  intros Hne Hds. destruct ds as [|d ds]; [done|].
  apply Forall_cons in Hds as [Hd Hds].
  assert (Hfirst : digits 10 None (numeral (d :: ds)) = Some (numeralValue (d :: ds))).
  { simpl. rewrite digitValue_digitChar by done.
    assert (Hlt : (d <? 10) = true) by (apply Z.ltb_lt; unfold isDigit in Hd; lia).
    rewrite Hlt. simpl. by rewrite digits_numeral. }
  rewrite <- Hfirst.
  destruct ds as [|d2 ds].
  - digit_cases Hd; reflexivity.
  - apply Forall_cons in Hds as [Hd2 Hds].
    digit_cases Hd; digit_cases Hd2; reflexivity.
Qed.

(** C4, counterexample. A request with [limit=0] is served with limit 100,
    not with max(1, min(0, 1000)) = 1. *)
Lemma limit_zero_served_with_default :
  ~ (effectiveLimit (Some "0"%string) = Z.max 1 (Z.min 0 1000)).
Proof. vm_compute. discriminate. Qed.

(** C4, as the handler computes. With [n] the integer [parseInt] reads from
    the [limit] parameter: when there is no parameter, or it does not parse,
    or [n = 0], the limit used is 100; when [n > 0] it is min(n, 1000). In
    both cases a served page reports that limit and holds at most that many
    records, so never more than 1000; [limit=5000] is served with 1000. A
    limit written as a decimal numeral is read as the number it denotes. *)
Theorem effective_limit_policy (q : option string) :
  (forall ds, ds <> [] -> Forall isDigit ds ->
     effectiveLimit (Some (numeral ds))
     = if numeralValue ds =? 0 then 100 else Z.min (numeralValue ds) 1000)
  /\ (parseQuery q = None \/ parseQuery q = Some 0 -> effectiveLimit q = 100)
  /\ (forall n, parseQuery q = Some n -> 0 < n -> effectiveLimit q = Z.min n 1000)
  /\ (forall reachable qskip coll docs total l sk,
        parseQuery q = None \/ (exists n, parseQuery q = Some n /\ 0 <= n) ->
        get_v1_samples reachable q qskip coll
          = {| status := 200; body := Page docs total l sk |} ->
        l = effectiveLimit q /\ Z.of_nat (length docs) <= l <= 1000)
  /\ (forall reachable qskip coll docs total l sk,
        get_v1_samples reachable (Some "5000"%string) qskip coll
          = {| status := 200; body := Page docs total l sk |} ->
        l = 1000 /\ (length docs <= 1000)%nat).
Proof.
  assert (Hzero : parseQuery q = None \/ parseQuery q = Some 0 -> effectiveLimit q = 100).
  { unfold effectiveLimit. intros [-> | ->]; reflexivity. }
  assert (Hpos : forall n, parseQuery q = Some n -> 0 < n ->
                           effectiveLimit q = Z.min n 1000).
  { unfold effectiveLimit. intros n -> Hn. simpl.
    destruct (Z.eqb_spec n 0); [lia | reflexivity]. }
  split.
  { intros ds Hne Hds. unfold effectiveLimit, parseQuery. simpl.
    rewrite (parseInt_numeral ds Hne Hds). simpl.
    destruct (numeralValue ds =? 0); reflexivity. }
  split; [exact Hzero|]. split; [exact Hpos|]. split.
  - intros reachable qskip coll docs total l sk Hq Hget.
    assert (Hrange : 0 < effectiveLimit q <= 1000).
    { destruct Hq as [Hq | (n & Hq & Hn)].
      - rewrite Hzero by tauto. lia.
      - destruct (Z.eqb_spec n 0) as [-> | Hne].
        + rewrite Hzero by tauto. lia.
        + rewrite (Hpos n) by (assumption || lia). lia. }
    destruct (page_length _ _ _ _ _ _ _ _ (proj1 Hrange) Hget) as [-> Hlen].
    split; [reflexivity | lia].
  - intros reachable qskip coll docs total l sk Hget.
    assert (Heff : effectiveLimit (Some "5000"%string) = 1000) by reflexivity.
    destruct (page_length reachable (Some "5000"%string) qskip coll docs total l sk)
      as [-> Hlen]; [rewrite Heff; lia | exact Hget |].
    rewrite Heff in *. split; [reflexivity | lia].
Qed.

(** What the query parameter parses to, on the inputs of interest. *)
Example numeral_samples :
  numeral [5; 0; 0; 0] = "5000"%string /\ numeralValue [5; 0; 0; 0] = 5000
  /\ numeral [0] = "0"%string /\ numeralValue [0] = 0.
Proof. repeat split; reflexivity. Qed.

Example parseInt_samples :
  parseInt "5000" = Some 5000 /\ parseInt "0" = Some 0
  /\ parseInt "-5" = Some (-5) /\ parseInt "ten" = None
  /\ parseInt " 42px" = Some 42 /\ parseInt "0x10" = Some 16.
Proof. repeat split; reflexivity. Qed.

Example effectiveLimit_samples :
  effectiveLimit (Some "5000"%string) = 1000
  /\ effectiveLimit (Some "250"%string) = 250
  /\ effectiveLimit (Some "0"%string) = 100
  /\ effectiveLimit (Some "ten"%string) = 100
  /\ effectiveLimit None = 100.
Proof. repeat split; reflexivity. Qed.

End PaginationProperties.

Section BroadcastProperties.
Import Js Mongo Ws Pipeline.

Lemma fold_sendTo payload cs acc :
  fold_left (sendTo payload) cs acc =
  {| frames := frames acc
               ++ ((fun c => (handle c, payload)) <$> List.filter deliverable cs);
     lines := lines acc
              ++ ((fun c => LogWsSendError (handle c)) <$> List.filter throwing cs);
     sent := sent acc + Z.of_nat (length (List.filter deliverable cs)) |}.
Proof.
  revert acc. induction cs as [|c cs IH]; intros acc; simpl.
  - rewrite !app_nil_r, Z.add_0_r. destruct acc; reflexivity.
  - rewrite IH. unfold sendTo, deliverable, throwing.
    destruct (readyState c =? 1), (sendThrows c); simpl;
      rewrite <- ?app_assoc; simpl; f_equal; lia.
Qed.

Lemma forEachSend_wsClients payload data p :
  wsClients (forEachSend payload data p) = wsClients p.
Proof. reflexivity. Qed.

Lemma forEachSend_outbox payload data p :
  outbox (forEachSend payload data p) =
  outbox p ++ ((fun c => (handle c, payload)) <$> List.filter deliverable (wsClients p)).
Proof. unfold forEachSend. rewrite fold_sendTo. reflexivity. Qed.

Lemma setDelete_spec c c' cs :
  c' ∈ setDelete c cs <-> c' ∈ cs /\ handle c' ≠ handle c.
Proof. unfold setDelete. rewrite list_elem_of_filter. tauto. Qed.

(** C7, counterexample. Subscribers A, B, C are open and B's [send] throws:
    A and C are handed the frame, and B is still in [wsClients] when
    [broadcastToWS] returns. *)
Lemma broadcast_leaves_failed_subscriber :
  ~ (forall c, c ∈ [clientA; clientB; clientC] ->
               deliverable c = false ->
               c ∉ wsClients (Backend.broadcastToWS sampleFirst
                                (freshProc [clientA; clientB; clientC]))).
Proof.
  intros Hclaim. apply (Hclaim clientB).
  - apply list_elem_of_In. simpl. tauto.
  - reflexivity.
  - apply list_elem_of_In. simpl. tauto.
Qed.

(** C7, as the backend does it. [broadcastToWS] serializes the message once
    and hands that one payload, in set order, to every member that is open
    and whose [send] returns; a member that is not open is skipped, a
    throwing [send] is caught and logged, and neither stops the loop or
    reaches the caller. The call leaves [wsClients] as it was: a connection
    leaves the set only when its close or error handler runs, which removes
    that connection and no other. *)
Theorem broadcast_isolation (data : Doc) (p : Proc) :
  outbox (Backend.broadcastToWS data p) =
    outbox p ++ ((fun c => (handle c, JSON_stringify (NewSample data)))
                   <$> List.filter deliverable (wsClients p))
  /\ console (Backend.broadcastToWS data p) =
       console p
       ++ ((fun c => LogWsSendError (handle c)) <$> List.filter throwing (wsClients p))
       ++ (if 0 <? Z.of_nat (length (List.filter deliverable (wsClients p)))
           then [LogBroadcast (Z.of_nat (length (List.filter deliverable (wsClients p))))]
           else [])
  /\ wsClients (Backend.broadcastToWS data p) = wsClients p
  /\ (forall c c',
        (c' ∈ wsClients (onClose c (Backend.broadcastToWS data p))
           <-> c' ∈ wsClients p /\ handle c' ≠ handle c)
        /\ (c' ∈ wsClients (onError c (Backend.broadcastToWS data p))
           <-> c' ∈ wsClients p /\ handle c' ≠ handle c)).
Proof.
  split; [apply forEachSend_outbox|]. split.
  - unfold Backend.broadcastToWS, forEachSend. rewrite fold_sendTo. simpl.
    destruct (0 <? _); rewrite <- ?app_assoc, ?app_nil_r; reflexivity.
  - split; [reflexivity|]. intros c c'. simpl. split; apply setDelete_spec.
Qed.

(** The three-subscriber scenario, evaluated: A and C each receive the one
    frame, B receives nothing and its failure is logged; B leaves the set
    when its error handler runs. *)
Example broadcast_three_subscribers :
  received 1 (Backend.broadcastToWS sampleFirst (freshProc [clientA; clientB; clientC]))
    = [JSON_stringify (NewSample sampleFirst)]
  /\ received 2 (Backend.broadcastToWS sampleFirst (freshProc [clientA; clientB; clientC]))
    = []
  /\ received 3 (Backend.broadcastToWS sampleFirst (freshProc [clientA; clientB; clientC]))
    = [JSON_stringify (NewSample sampleFirst)]
  /\ console (Backend.broadcastToWS sampleFirst (freshProc [clientA; clientB; clientC]))
    = [LogWsSendError 2; LogBroadcast 2]
  /\ wsClients (onError clientB
       (Backend.broadcastToWS sampleFirst (freshProc [clientA; clientB; clientC])))
    = [clientA; clientC].
Proof. repeat apply conj; vm_compute; reflexivity. Qed.

(** A subscriber that is closing is skipped without an attempt and without
    a log line, and stays in the set until its close handler runs. *)
Example broadcast_skips_closing_subscriber :
  received 4 (Backend.broadcastToWS sampleFirst (freshProc [clientA; clientClosing])) = []
  /\ console (Backend.broadcastToWS sampleFirst (freshProc [clientA; clientClosing]))
     = [LogBroadcast 1]
  /\ wsClients (Backend.broadcastToWS sampleFirst (freshProc [clientA; clientClosing]))
     = [clientA; clientClosing]
  /\ wsClients (onClose clientClosing
       (Backend.broadcastToWS sampleFirst (freshProc [clientA; clientClosing])))
     = [clientA].
Proof. repeat apply conj; vm_compute; reflexivity. Qed.

End BroadcastProperties.

Section StoreProperties.
Import Js Mongo.

Lemma hasKey_true k coll :
  hasKey k coll = true <-> exists d, d ∈ coll /\ indexKey d = k.
Proof.
  unfold hasKey. rewrite existsb_exists. split.
  - intros (d & Hin & Hk). exists d. split; [by apply list_elem_of_In|].
    by apply bool_decide_eq_true in Hk.
  - intros (d & Hin & Hk). exists d. split; [by apply list_elem_of_In|].
    by apply bool_decide_eq_true.
Qed.

Lemma hasKey_false k coll :
  hasKey k coll = false <-> forall d, d ∈ coll -> indexKey d ≠ k.
Proof.
  rewrite <- not_true_iff_false, hasKey_true. split.
  - intros Hno d Hin Hk. apply Hno. eauto.
  - intros Hall (d & Hin & Hk). by apply (Hall d).
Qed.

Lemma countKey_nil k : countKey k [] = 0%nat.
Proof. reflexivity. Qed.

Lemma countKey_app k l1 l2 :
  countKey k (l1 ++ l2) = (countKey k l1 + countKey k l2)%nat.
Proof. unfold countKey. by rewrite filter_app, length_app. Qed.

Lemma countKey_singleton k d :
  countKey k [d] = if bool_decide (indexKey d = k) then 1%nat else 0%nat.
Proof.
  unfold countKey. rewrite filter_cons, filter_nil.
  case_bool_decide; destruct (decide _); done.
Qed.

Lemma countKey_zero k coll : countKey k coll = 0%nat <-> hasKey k coll = false.
Proof.
  rewrite hasKey_false. unfold countKey.
  rewrite length_zero_iff_nil. split.
  - intros Hnil d Hin Hk.
    assert (Hd : d ∈ filter (fun d => indexKey d = k) coll)
      by (apply list_elem_of_filter; done).
    rewrite Hnil in Hd. by apply elem_of_nil in Hd.
  - induction coll as [|d coll IH]; intros Hall; [done|].
    rewrite filter_cons_False.
    + apply IH. intros e He. apply Hall. by right.
    + apply Hall. by left.
Qed.

Lemma countKey_pos k coll : (0 < countKey k coll)%nat <-> hasKey k coll = true.
Proof.
  pose proof (countKey_zero k coll) as Hz.
  destruct (hasKey k coll); split; intros Hx; try done.
  - destruct (countKey k coll); [|lia]. destruct Hz as [Hz _]. by specialize (Hz eq_refl).
  - destruct Hz as [_ Hz]. rewrite Hz in Hx by done. lia.
Qed.

Lemma uniqueIndex_count k coll : uniqueIndex coll -> (countKey k coll <= 1)%nat.
Proof.
  unfold uniqueIndex, countKey. induction coll as [|d coll IH]; [simpl; lia|].
  rewrite fmap_cons, NoDup_cons. intros [Hnotin Hnd].
  rewrite filter_cons. destruct (decide (indexKey d = k)) as [Hk|Hk]; [|by apply IH].
  simpl. assert (Hz : countKey k coll = 0%nat).
  { apply countKey_zero, hasKey_false. intros e He Hek. apply Hnotin.
    rewrite Hk, <- Hek. by apply list_elem_of_fmap_2. }
  unfold countKey in Hz. rewrite Hz. lia.
Qed.

Lemma insertOne_unreachable data coll : insertOne false data coll = (coll, Failed).
Proof. reflexivity. Qed.

Lemma insertOne_duplicate data coll :
  hasKey (indexKey data) coll = true ->
  insertOne true data coll = (coll, DuplicateKey).
Proof. unfold insertOne. by intros ->. Qed.

Lemma insertOne_duplicate_id data coll :
  hasId (suppliedId data) coll = true ->
  insertOne true data coll = (coll, DuplicateKey).
Proof. unfold insertOne. intros ->. by rewrite orb_true_r. Qed.

Lemma insertOne_fresh data coll :
  hasKey (indexKey data) coll = false ->
  hasId (suppliedId data) coll = false ->
  insertOne true data coll = (coll ++ [data], Acknowledged).
Proof. unfold insertOne. by intros -> ->. Qed.

Lemma insertOne_answer reachable d coll :
  snd (insertOne reachable d coll)
  = if negb reachable then Failed
    else if hasKey (indexKey d) coll || hasId (suppliedId d) coll then DuplicateKey
    else Acknowledged.
Proof.
  unfold insertOne. destruct reachable; simpl; [|done]. by destruct (_ || _).
Qed.

(** An insert is acknowledged exactly when the server executes it and
    neither unique index holds the document's entry. *)
Lemma insertOne_acknowledged reachable d coll :
  snd (insertOne reachable d coll) = Acknowledged <->
  reachable = true /\ hasKey (indexKey d) coll = false
  /\ hasId (suppliedId d) coll = false.
Proof.
  rewrite insertOne_answer. destruct reachable; simpl; [|by split; [|intros (? & _)]].
  destruct (hasKey _ _), (hasId _ _); simpl; split; try done; by intros (_ & ? & ?).
Qed.

Lemma hasId_true v coll :
  hasId (Some v) coll = true <-> exists d, d ∈ coll /\ suppliedId d = Some v.
Proof.
  simpl. rewrite existsb_exists. split.
  - intros (d & Hin & Hk). exists d. split; [by apply list_elem_of_In|].
    by apply bool_decide_eq_true in Hk.
  - intros (d & Hin & Hk). exists d. split; [by apply list_elem_of_In|].
    by apply bool_decide_eq_true.
Qed.

Lemma hasId_app id l1 l2 : hasId id (l1 ++ l2) = hasId id l1 || hasId id l2.
Proof. destruct id as [v|]; [|done]. simpl. apply existsb_app. Qed.

(** Whatever the answer, the collection afterwards is the collection before,
    plus the document exactly when the answer is [Acknowledged]. *)
Lemma insertOne_shape reachable data coll :
  fst (insertOne reachable data coll) =
  match snd (insertOne reachable data coll) with
  | Acknowledged => coll ++ [data]
  | _ => coll
  end.
Proof.
  unfold insertOne. destruct reachable; simpl; [|done].
  by destruct (_ || _).
Qed.

(** The answer depends on the document only through its entries in the two
    indexes. *)
Lemma insertOne_answer_by_key reachable d1 d2 coll :
  indexKey d1 = indexKey d2 -> suppliedId d1 = suppliedId d2 ->
  snd (insertOne reachable d1 coll) = snd (insertOne reachable d2 coll).
Proof. intros Hk Hi. by rewrite !insertOne_answer, Hk, Hi. Qed.

Lemma insertOne_uniqueIndex reachable data coll :
  uniqueIndex coll -> uniqueIndex (fst (insertOne reachable data coll)).
Proof.
  unfold insertOne, uniqueIndex. intros Hnd.
  destruct reachable; simpl; [|done].
  destruct (hasKey (indexKey data) coll) eqn:Hk; simpl; [done|].
  destruct (hasId (suppliedId data) coll); simpl; [done|].
  rewrite fmap_app. apply NoDup_app. split; [done|]. split.
  - intros k Hin Hk'. apply list_elem_of_fmap in Hin as (d & -> & Hd).
    simpl in Hk'. apply list_elem_of_singleton in Hk'.
    rewrite hasKey_false in Hk. by apply (Hk d).
  - simpl. apply NoDup_singleton.
Qed.

End StoreProperties.

Section IngestProperties.
Import Js Mongo Ws Pipeline.

Lemma post_prepare_other body t1 t2 (f : string) :
  f ≠ "createdAt"%string -> f ≠ "updatedAt"%string ->
  Backend.post_prepare body t1 t2 !! f = body !! f.
Proof.
  intros H1 H2. unfold Backend.post_prepare.
  rewrite lookup_insert_ne by done. by rewrite lookup_insert_ne.
Qed.

Lemma post_prepare_stamps body t1 t2 :
  Backend.post_prepare body t1 t2 !! "createdAt"%string = Some (JDate t1)
  /\ Backend.post_prepare body t1 t2 !! "updatedAt"%string = Some (JDate t2).
Proof.
  unfold Backend.post_prepare. split.
  - rewrite lookup_insert_ne by done. apply lookup_insert_eq.
  - apply lookup_insert_eq.
Qed.

Lemma indexKey_post_prepare body t1 t2 :
  indexKey (Backend.post_prepare body t1 t2) = indexKey body.
Proof. unfold indexKey. by rewrite post_prepare_other. Qed.

Lemma suppliedId_post_prepare body t1 t2 :
  suppliedId (Backend.post_prepare body t1 t2) = suppliedId body.
Proof. unfold suppliedId. by rewrite post_prepare_other. Qed.

Lemma process_prepare_object d t1 t2 :
  exists d', Bridge.process_prepare (Bridge.JsonObject d) t1 t2 = Some d'
    /\ (forall f : string, f ≠ "createdAt"%string -> f ≠ "updatedAt"%string ->
                           d' !! f = d !! f)
    /\ d' !! "createdAt"%string
       = (if truthy (d !! "createdAt"%string) then d !! "createdAt"%string
          else Some (JDate t1))
    /\ d' !! "updatedAt"%string
       = (if truthy (d !! "updatedAt"%string) then d !! "updatedAt"%string
          else Some (JDate t2)).
Proof.
  eexists. split; [reflexivity|].
  destruct (truthy (d !! "createdAt"%string)) eqn:Hc.
  - destruct (truthy (d !! "updatedAt"%string)) eqn:Hu.
    + repeat split; try done.
    + repeat split; intros; rewrite ?lookup_insert_eq; try done;
        by rewrite lookup_insert_ne.
  - rewrite lookup_insert_ne by done.
    destruct (truthy (d !! "updatedAt"%string)) eqn:Hu.
    + repeat split; intros; rewrite ?lookup_insert_eq; try done;
        by rewrite lookup_insert_ne.
    + repeat split; intros; rewrite ?lookup_insert_eq; try done;
        rewrite lookup_insert_ne by done; rewrite ?lookup_insert_eq; try done;
        by rewrite lookup_insert_ne.
Qed.

Lemma indexKey_process_prepare d d' t1 t2 :
  Bridge.process_prepare (Bridge.JsonObject d) t1 t2 = Some d' ->
  indexKey d' = indexKey d /\ d' !! "batchId"%string = d !! "batchId"%string.
Proof.
  destruct (process_prepare_object d t1 t2) as (e & He & Hother & _).
  rewrite He. intros [= <-]. unfold indexKey. by rewrite Hother.
Qed.

Lemma suppliedId_process_prepare d d' t1 t2 :
  Bridge.process_prepare (Bridge.JsonObject d) t1 t2 = Some d' ->
  suppliedId d' = suppliedId d.
Proof.
  destruct (process_prepare_object d t1 t2) as (e & He & Hother & _).
  rewrite He. intros [= <-]. unfold suppliedId. by rewrite Hother.
Qed.

(** The two handlers, written with projections. *)
Lemma post_v1_samples_eq reachable body t1 t2 w :
  post_v1_samples reachable body t1 t2 w =
  ({| samples := fst (insertOne reachable (Backend.post_prepare body t1 t2) (samples w));
      backend := fst (Backend.post_resume (Backend.post_prepare body t1 t2)
                        (snd (insertOne reachable (Backend.post_prepare body t1 t2)
                                (samples w)))
                        (backend w));
      bridge := bridge w |},
   snd (Backend.post_resume (Backend.post_prepare body t1 t2)
          (snd (insertOne reachable (Backend.post_prepare body t1 t2) (samples w)))
          (backend w))).
Proof.
  unfold post_v1_samples. destruct (insertOne _ _ _) as [coll r]. simpl.
  by destruct (Backend.post_resume _ _ _).
Qed.

Lemma processSample_eq WS_ENABLED reachable d d' t1 t2 w :
  Bridge.process_prepare (Bridge.JsonObject d) t1 t2 = Some d' ->
  processSample WS_ENABLED reachable (Bridge.JsonObject d) t1 t2 w =
  {| samples := fst (insertOne reachable d' (samples w));
     backend := backend w;
     bridge := Bridge.process_resume WS_ENABLED d'
                 (snd (insertOne reachable d' (samples w))) (bridge w) |}.
Proof.
  unfold processSample. intros ->. by destruct (insertOne _ _ _).
Qed.

Lemma stored_same_batchId_hasKey (stored body : Doc) coll :
  stored ∈ coll ->
  body !! "batchId"%string = stored !! "batchId"%string ->
  hasKey (indexKey body) coll = true.
Proof.
  intros Hin Hb. apply hasKey_true. exists stored. split; [done|].
  unfold indexKey. by rewrite Hb.
Qed.

(** C5. When a stored record has the same [batchId] as the submitted
    sample, whatever its other fields: on the direct path the collection is
    left exactly as it was, the caller is answered 409, no frame is sent and
    [broadcastToWS] is not called; on the bus path the collection is left
    exactly as it was, nothing is sent or broadcast, and the only trace is
    the duplicate warning, not the error of the outer handler. *)
Theorem duplicate_submit_is_absorbed (WS_ENABLED : bool) (w : World)
    (stored body : Doc) (t1 t2 : Z) :
  stored ∈ samples w ->
  body !! "batchId"%string = stored !! "batchId"%string ->
  (samples (fst (post_v1_samples true body t1 t2 w)) = samples w
   /\ Backend.status (snd (post_v1_samples true body t1 t2 w)) = 409
   /\ outbox (backend (fst (post_v1_samples true body t1 t2 w))) = outbox (backend w)
   /\ calls (backend (fst (post_v1_samples true body t1 t2 w))) = calls (backend w)
   /\ bridge (fst (post_v1_samples true body t1 t2 w)) = bridge w)
  /\ (samples (processSample WS_ENABLED true (Bridge.JsonObject body) t1 t2 w) = samples w
      /\ outbox (bridge (processSample WS_ENABLED true (Bridge.JsonObject body) t1 t2 w))
         = outbox (bridge w)
      /\ calls (bridge (processSample WS_ENABLED true (Bridge.JsonObject body) t1 t2 w))
         = calls (bridge w)
      /\ console (bridge (processSample WS_ENABLED true (Bridge.JsonObject body) t1 t2 w))
         = console (bridge w) ++ [LogDuplicate (body !! "batchId"%string)]
      /\ backend (processSample WS_ENABLED true (Bridge.JsonObject body) t1 t2 w)
         = backend w).
Proof.
  intros Hin Hb.
  pose proof (stored_same_batchId_hasKey _ _ _ Hin Hb) as Hk.
  split.
  - rewrite post_v1_samples_eq. simpl.
    rewrite insertOne_duplicate by (by rewrite indexKey_post_prepare).
    simpl. done.
  - destruct (process_prepare_object body t1 t2) as (d' & Hd' & _).
    destruct (indexKey_process_prepare _ _ _ _ Hd') as [Hkey Hbid].
    rewrite (processSample_eq _ _ _ _ _ _ _ Hd').
    rewrite insertOne_duplicate by (by rewrite Hkey).
    simpl. by rewrite Hbid.
Qed.

(** The second submit of the end-to-end scenario: same [batchId], another
    [tempC]. *)
Lemma duplicate_submit_is_absorbed_witness :
  Backend.post_prepare sampleFirst 1000 1000 ∈ samples worldAfterFirst
  /\ samples (fst (post_v1_samples true sampleSecond 2000 2000 worldAfterFirst))
     = samples worldAfterFirst
  /\ Backend.status (snd (post_v1_samples true sampleSecond 2000 2000 worldAfterFirst)) = 409.
Proof.
  assert (Hin : Backend.post_prepare sampleFirst 1000 1000 ∈ samples worldAfterFirst).
  { apply list_elem_of_In. left. reflexivity. }
  split; [exact Hin|].
  pose proof (duplicate_submit_is_absorbed false worldAfterFirst
                (Backend.post_prepare sampleFirst 1000 1000) sampleSecond 2000 2000
                Hin eq_refl) as [(Hs & Hst & _) _].
  split; [exact Hs | exact Hst].
Defined.

(** The end-to-end scenario, evaluated: created, one frame to the
    subscriber; then duplicate, no further frame; the listing holds the one
    record, with the first payload's [tempC]. *)
Example end_to_end_scenario :
  Backend.status (snd (post_v1_samples true sampleFirst 1000 1000 (freshWorld [clientA] [])))
    = 201
  /\ received 1 (backend worldAfterFirst)
     = [JSON_stringify (NewSample (Backend.post_prepare sampleFirst 1000 1000))]
  /\ Backend.status (snd (post_v1_samples true sampleSecond 2000 2000 worldAfterFirst)) = 409
  /\ received 1 (backend (fst (post_v1_samples true sampleSecond 2000 2000 worldAfterFirst)))
     = [JSON_stringify (NewSample (Backend.post_prepare sampleFirst 1000 1000))]
  /\ Backend.get_v1_samples true (Some "10"%string) (Some "0"%string)
       (samples (fst (post_v1_samples true sampleSecond 2000 2000 worldAfterFirst)))
     = {| Backend.status := 200;
          Backend.body := Backend.Page [Backend.post_prepare sampleFirst 1000 1000] 1 10 0 |}
  /\ Backend.post_prepare sampleFirst 1000 1000 !! "tempC"%string = Some (JNumber 25000000).
Proof. repeat apply conj; vm_compute; reflexivity. Qed.

(** C6, counterexample. A body without [batchId], posted to an empty
    store: the specification has it answered with bad-request, not persisted and not
    broadcast; the handler stores it, answers 201 and sends it to the
    subscriber. *)
Lemma post_without_batchId_is_accepted :
  ~ (Backend.status (snd (post_v1_samples true sampleNoBatchId 1000 1000
                            (freshWorld [clientA] []))) = 400
     /\ samples (fst (post_v1_samples true sampleNoBatchId 1000 1000
                        (freshWorld [clientA] []))) = []
     /\ outbox (backend (fst (post_v1_samples true sampleNoBatchId 1000 1000
                                (freshWorld [clientA] [])))) = []).
Proof. intros (Hstatus & _). vm_compute in Hstatus. discriminate. Qed.

Example post_without_batchId_evaluated :
  sampleNoBatchId !! "batchId"%string = None
  /\ Backend.status (snd (post_v1_samples true sampleNoBatchId 1000 1000
                            (freshWorld [clientA] []))) = 201
  /\ samples (fst (post_v1_samples true sampleNoBatchId 1000 1000
                     (freshWorld [clientA] [])))
     = [Backend.post_prepare sampleNoBatchId 1000 1000]
  /\ received 1 (backend (fst (post_v1_samples true sampleNoBatchId 1000 1000
                                 (freshWorld [clientA] []))))
     = [JSON_stringify (NewSample (Backend.post_prepare sampleNoBatchId 1000 1000))].
Proof. repeat apply conj; vm_compute; reflexivity. Qed.

(** C6, as the services behave. Neither handler checks the fields of a
    sample. On the direct path every body the handler receives goes to the
    store, and the handler answers 201, 409 or 500; it has no bad-request
    answer: with the store reachable the body is
    persisted and broadcast exactly when no stored record has its index key
    (a body without [batchId] has the key null) or the [_id] it brings,
    else answered 409 with the store untouched. On the bus path a payload
    that is not JSON or is a JSON primitive is logged and dropped: store,
    subscribers and broadcast calls are untouched; a JSON object goes to
    the store like a direct body. *)
Theorem no_field_validation (WS_ENABLED : bool) (w : World) (t1 t2 : Z) :
  (forall reachable body,
     Backend.status (snd (post_v1_samples reachable body t1 t2 w)) = 201
     \/ Backend.status (snd (post_v1_samples reachable body t1 t2 w)) = 409
     \/ Backend.status (snd (post_v1_samples reachable body t1 t2 w)) = 500)
  /\ (forall body,
        hasKey (indexKey body) (samples w) = false ->
        hasId (suppliedId body) (samples w) = false ->
        Backend.status (snd (post_v1_samples true body t1 t2 w)) = 201
        /\ samples (fst (post_v1_samples true body t1 t2 w))
           = samples w ++ [Backend.post_prepare body t1 t2]
        /\ calls (backend (fst (post_v1_samples true body t1 t2 w)))
           = calls (backend w) ++ [Backend.post_prepare body t1 t2])
  /\ (forall body,
        hasKey (indexKey body) (samples w) = true
        \/ hasId (suppliedId body) (samples w) = true ->
        Backend.status (snd (post_v1_samples true body t1 t2 w)) = 409
        /\ samples (fst (post_v1_samples true body t1 t2 w)) = samples w
        /\ calls (backend (fst (post_v1_samples true body t1 t2 w))) = calls (backend w))
  /\ (forall reachable payload,
        Bridge.process_prepare payload t1 t2 = None ->
        processSample WS_ENABLED reachable payload t1 t2 w
        = {| samples := samples w; backend := backend w;
             bridge := writeLog LogProcessError (bridge w) |})
  /\ (forall payload,
        Bridge.process_prepare payload t1 t2 = None <->
        payload = Bridge.NotJson \/ exists v, payload = Bridge.JsonPrimitive v)
  /\ (forall d d',
        Bridge.process_prepare (Bridge.JsonObject d) t1 t2 = Some d' ->
        hasKey (indexKey d) (samples w) = false ->
        hasId (suppliedId d) (samples w) = false ->
        samples (processSample WS_ENABLED true (Bridge.JsonObject d) t1 t2 w)
          = samples w ++ [d']
        /\ calls (bridge (processSample WS_ENABLED true (Bridge.JsonObject d) t1 t2 w))
          = calls (bridge w) ++ [d']).
Proof.
  split; [|split; [|split; [|split; [|split]]]].
  - intros reachable body. rewrite post_v1_samples_eq. simpl.
    destruct (snd (insertOne _ _ _)); simpl; tauto.
  - intros body Hk Hi. rewrite post_v1_samples_eq. simpl.
    rewrite insertOne_fresh
      by (by rewrite ?indexKey_post_prepare, ?suppliedId_post_prepare). simpl. done.
  - intros body [Hk | Hi]; rewrite post_v1_samples_eq; simpl.
    + rewrite insertOne_duplicate by (by rewrite indexKey_post_prepare). simpl. done.
    + rewrite insertOne_duplicate_id by (by rewrite suppliedId_post_prepare).
      simpl. done.
  - intros reachable payload Hnone. unfold processSample. by rewrite Hnone.
  - intros payload. destruct payload as [|v|d]; simpl; split; try done.
    + by left.
    + intros _. right. by exists v.
    + intros [Hx | (v & Hx)]; discriminate.
  - intros d d' Hd' Hk Hi.
    destruct (indexKey_process_prepare _ _ _ _ Hd') as [Hkey _].
    pose proof (suppliedId_process_prepare _ _ _ _ Hd') as Hid.
    rewrite (processSample_eq _ _ _ _ _ _ _ Hd').
    rewrite insertOne_fresh by (by rewrite ?Hkey, ?Hid). simpl.
    split; [done|]. unfold Bridge.broadcastToWS.
    destruct (negb WS_ENABLED || _); reflexivity.
Qed.

(** The [_id] index at work: a submission of a batch that is not stored,
    bringing the [_id] of a stored record of another batch, is answered 409
    and not stored. *)
Example post_with_stored_id_is_rejected :
  samples worldWithId = [Backend.post_prepare otherBatchWithId 500 500]
  /\ hasKey (indexKey sampleSameId) (samples worldWithId) = false
  /\ hasId (suppliedId sampleSameId) (samples worldWithId) = true
  /\ Backend.status (snd (post_v1_samples true sampleSameId 1000 1000 worldWithId)) = 409
  /\ samples (fst (post_v1_samples true sampleSameId 1000 1000 worldWithId))
     = samples worldWithId.
Proof.
  split.
  { unfold worldWithId. rewrite post_v1_samples_eq. cbn [fst samples freshWorld].
    by rewrite insertOne_fresh by (vm_compute; reflexivity). }
  split; [vm_compute; reflexivity|]. split; [vm_compute; reflexivity|].
  split; [vm_compute; reflexivity|].
  rewrite post_v1_samples_eq. cbn [fst samples].
  rewrite insertOne_duplicate_id; [done|].
  rewrite suppliedId_post_prepare. vm_compute. reflexivity.
Qed.

(** C8, counterexample. The same payload, which already carries the text of
    a date as [createdAt] and [updatedAt], submitted at time 5000 to the
    same empty store: the direct path stores it stamped with the server's
    date 5000, the bus path with the text it came with. *)
Lemma paths_store_different_documents :
  ~ (samples (fst (post_v1_samples true sampleStamped 5000 5000 (freshWorld [] [])))
     = samples (processSample true true (Bridge.JsonObject sampleStamped) 5000 5000
                  (freshWorld [] []))).
Proof.
  intros Hsame.
  apply (f_equal (fmap (fun d : Doc => d !! "createdAt"%string))) in Hsame.
  vm_compute in Hsame. discriminate.
Qed.

(** C8, as the two services are written. The direct path and the bus path
    are two implementations, each with its own subscriber set. For the same
    object payload, store and clock they get the same answer from the store
    and so agree on inserted or duplicate; each stores its own stamped copy
    and calls its own [broadcastToWS] with it exactly when the insert was
    acknowledged. The two copies agree with the payload on every field but
    [createdAt] and [updatedAt]: the direct path overwrites both with the
    server clock, the bus path sets each only when the payload's value is
    absent or falsy and keeps it otherwise; they are the same document when
    the payload has neither of the two with a truthy value. *)
Theorem paths_agree_on_dedup_and_broadcast (WS_ENABLED reachable : bool)
    (d : Doc) (t1 t2 : Z) (w : World) :
  exists (r : InsertResult) (d_bus : Doc),
    Bridge.process_prepare (Bridge.JsonObject d) t1 t2 = Some d_bus
    /\ snd (insertOne reachable (Backend.post_prepare d t1 t2) (samples w)) = r
    /\ snd (insertOne reachable d_bus (samples w)) = r
    /\ samples (fst (post_v1_samples reachable d t1 t2 w))
       = (if bool_decide (r = Acknowledged)
          then samples w ++ [Backend.post_prepare d t1 t2] else samples w)
    /\ samples (processSample WS_ENABLED reachable (Bridge.JsonObject d) t1 t2 w)
       = (if bool_decide (r = Acknowledged) then samples w ++ [d_bus] else samples w)
    /\ calls (backend (fst (post_v1_samples reachable d t1 t2 w)))
       = (if bool_decide (r = Acknowledged)
          then calls (backend w) ++ [Backend.post_prepare d t1 t2] else calls (backend w))
    /\ calls (bridge (processSample WS_ENABLED reachable (Bridge.JsonObject d) t1 t2 w))
       = (if bool_decide (r = Acknowledged)
          then calls (bridge w) ++ [d_bus] else calls (bridge w))
    /\ bridge (fst (post_v1_samples reachable d t1 t2 w)) = bridge w
    /\ backend (processSample WS_ENABLED reachable (Bridge.JsonObject d) t1 t2 w) = backend w
    /\ (forall f : string, f ≠ "createdAt"%string -> f ≠ "updatedAt"%string ->
          Backend.post_prepare d t1 t2 !! f = d !! f /\ d_bus !! f = d !! f)
    /\ (Backend.post_prepare d t1 t2 !! "createdAt"%string = Some (JDate t1)
        /\ Backend.post_prepare d t1 t2 !! "updatedAt"%string = Some (JDate t2))
    /\ (d_bus !! "createdAt"%string
          = (if truthy (d !! "createdAt"%string) then d !! "createdAt"%string
             else Some (JDate t1))
        /\ d_bus !! "updatedAt"%string
          = (if truthy (d !! "updatedAt"%string) then d !! "updatedAt"%string
             else Some (JDate t2)))
    /\ (truthy (d !! "createdAt"%string) = false ->
        truthy (d !! "updatedAt"%string) = false ->
        d_bus = Backend.post_prepare d t1 t2).
Proof.
  destruct (process_prepare_object d t1 t2) as (d_bus & Hd & Hother & Hc & Hu).
  destruct (indexKey_process_prepare _ _ _ _ Hd) as [Hkey _].
  pose proof (suppliedId_process_prepare _ _ _ _ Hd) as Hid.
  pose proof (post_prepare_stamps d t1 t2) as Hstamps.
  exists (snd (insertOne reachable d_bus (samples w))), d_bus.
  assert (Hr : snd (insertOne reachable (Backend.post_prepare d t1 t2) (samples w))
               = snd (insertOne reachable d_bus (samples w))).
  { apply insertOne_answer_by_key.
    - by rewrite indexKey_post_prepare, Hkey.
    - by rewrite suppliedId_post_prepare, Hid. }
  split; [done|]. split; [exact Hr|].
  split; [done|].
  rewrite post_v1_samples_eq, (processSample_eq _ _ _ _ _ _ _ Hd). simpl.
  rewrite !insertOne_shape, Hr.
  destruct (snd (insertOne reachable d_bus (samples w))); simpl;
    (repeat split; try done);
    try (unfold Bridge.broadcastToWS; destruct (negb WS_ENABLED || _); reflexivity);
    try (intros; by apply post_prepare_other);
    try (intros; by apply Hother);
    try (by apply Hstamps);
    intros Hfc Hfu; apply map_eq; intros f;
    (destruct (decide (f = "createdAt"%string)) as [->|Hn1];
     [rewrite Hc, Hfc; by rewrite (proj1 (post_prepare_stamps d t1 t2))|]);
    (destruct (decide (f = "updatedAt"%string)) as [->|Hn2];
     [rewrite Hu, Hfu; by rewrite (proj2 (post_prepare_stamps d t1 t2))|]);
    by rewrite Hother, post_prepare_other.
Qed.

(** C9, counterexample. A sample that arrives with the text of a date as
    [createdAt] and is posted at time 5000 is stored with the server's date
    5000 as [createdAt], not with the value it carried. *)
Lemma post_overwrites_inbound_timestamp :
  ~ (forall stored,
       stored ∈ samples (fst (post_v1_samples true sampleStamped 5000 5000
                                (freshWorld [] []))) ->
       stored !! "createdAt"%string = sampleStamped !! "createdAt"%string).
Proof.
  intros Hclaim.
  specialize (Hclaim (Backend.post_prepare sampleStamped 5000 5000)).
  assert (Hin : Backend.post_prepare sampleStamped 5000 5000
                ∈ samples (fst (post_v1_samples true sampleStamped 5000 5000
                                  (freshWorld [] [])))).
  { apply list_elem_of_In. left. reflexivity. }
  specialize (Hclaim Hin). vm_compute in Hclaim. discriminate.
Qed.

End IngestProperties.

Section ScheduleProperties.
Import Js Mongo Ws Pipeline.

Lemma step_sound WS_ENABLED l s s' :
  step WS_ENABLED l s = Some s' -> Steps WS_ENABLED l s s'.
Proof.
  unfold step. destruct l as [i t1 t2 | i reachable | i];
    destruct (tasks s !! i) as [st|] eqn:Hlook; try discriminate.
  - destruct st as [[body|payload]|? ?|? ? ?|? ? ?|]; try discriminate.
    + intros [= <-]. by constructor.
    + destruct (Bridge.process_prepare payload t1 t2) as [data|] eqn:Hprep;
        intros [= <-]; [by eapply StartBus | by eapply StartDrop].
  - destruct st as [?|p data|? ? ?|? ? ?|]; try discriminate.
    pose proof (StoreInsert WS_ENABLED i reachable s p data Hlook) as Hstep.
    destruct (insertOne reachable data (samples (world s))) as [coll r].
    intros [= <-]. exact Hstep.
  - destruct st as [?|? ?|[|] data r|? ? ?|]; try discriminate.
    + pose proof (ResumeDirect WS_ENABLED i s data r Hlook) as Hstep.
      destruct (Backend.post_resume data r (backend (world s))) as [p resp].
      intros [= <-]. exact Hstep.
    + intros [= <-]. by constructor.
Qed.

Lemma step_complete WS_ENABLED l s s' :
  Steps WS_ENABLED l s s' -> step WS_ENABLED l s = Some s'.
Proof.
  intros Hstep. destruct Hstep as [i t1 t2 s body Hl | i t1 t2 s payload data Hl Hp
    | i t1 t2 s payload Hl Hp | i reachable s p data Hl | i s data r Hl | i s data r Hl];
    unfold step; rewrite Hl; try rewrite Hp; try reflexivity.
  - by destruct (insertOne _ _ _).
  - by destruct (Backend.post_resume _ _ _).
Qed.

(** One handler run through its three steps with nothing in between is the
    handler run as a whole. *)
Lemma run_alone_direct WS_ENABLED reachable body t1 t2 w :
  run WS_ENABLED [Start 0 t1 t2; Store 0 reachable; Resume 0]
    (arrive [FromDirect body] w)
  = Some {| world := fst (post_v1_samples reachable body t1 t2 w);
            tasks := [Finished Direct (Backend.post_prepare body t1 t2)
                        (snd (insertOne reachable (Backend.post_prepare body t1 t2)
                                (samples w)))];
            replies := [(0%nat, snd (post_v1_samples reachable body t1 t2 w))] |}.
Proof.
  unfold post_v1_samples. simpl.
  destruct (insertOne _ _ _) as [coll r]. simpl.
  by destruct (Backend.post_resume _ _ _).
Qed.

Lemma run_alone_bus WS_ENABLED reachable payload t1 t2 w :
  world <$> run WS_ENABLED [Start 0 t1 t2; Store 0 reachable; Resume 0]
              (arrive [FromBus payload] w)
  = match Bridge.process_prepare payload t1 t2 with
    | Some _ => Some (processSample WS_ENABLED reachable payload t1 t2 w)
    | None => None
    end
  /\ (Bridge.process_prepare payload t1 t2 = None ->
      world <$> run WS_ENABLED [Start 0 t1 t2] (arrive [FromBus payload] w)
      = Some (processSample WS_ENABLED reachable payload t1 t2 w)).
Proof.
  unfold processSample. simpl.
  destruct (Bridge.process_prepare payload t1 t2) as [data|]; simpl.
  - split; [|done]. by destruct (insertOne _ _ _).
  - done.
Qed.

Lemma countIf_insert {A} (f : A -> bool) (l : list A) (i : nat) (x y : A) :
  l !! i = Some x ->
  (countIf f (<[i:=y]> l) + Nat.b2n (f x) = countIf f l + Nat.b2n (f y))%nat.
Proof.
  revert i. induction l as [|a l IH]; intros [|i] Hl; simpl in *; try discriminate.
  - injection Hl as ->. unfold countIf. simpl. destruct (f x), (f y); simpl; lia.
  - specialize (IH i Hl). unfold countIf in *. simpl. destruct (f a); simpl; lia.
Qed.

Lemma calls_post_resume data r p :
  calls (fst (Backend.post_resume data r p)) = calls p ++ ackCalls r data.
Proof. destruct r; simpl; by rewrite ?app_nil_r. Qed.

Lemma calls_process_resume WS_ENABLED data r p :
  calls (Bridge.process_resume WS_ENABLED data r p) = calls p ++ ackCalls r data.
Proof.
  destruct r; simpl; rewrite ?app_nil_r; try done.
  unfold Bridge.broadcastToWS. by destruct (negb WS_ENABLED || _).
Qed.

Lemma countKey_ackCalls k r data :
  countKey k (ackCalls r data) = Nat.b2n (pendingWinner k (Answered Direct data r)).
Proof.
  destruct r; simpl; try done. rewrite countKey_singleton. by case_bool_decide.
Qed.

Lemma pendingWinner_path k p data r :
  pendingWinner k (Answered p data r) = pendingWinner k (Answered Direct data r).
Proof. done. Qed.

Lemma countKey_insertOne k reachable data coll :
  countKey k (fst (insertOne reachable data coll)) =
  (countKey k coll
   + Nat.b2n (pendingWinner k (Answered Direct data (snd (insertOne reachable data coll)))))%nat.
Proof.
  rewrite insertOne_shape.
  destruct (snd (insertOne reachable data coll)); simpl; try lia.
  rewrite countKey_app, countKey_singleton. by case_bool_decide.
Qed.

(** Every step keeps the pipeline consistent. *)
Lemma Steps_Consistent WS_ENABLED l s s' :
  Steps WS_ENABLED l s s' -> Consistent s -> Consistent s'.
Proof.
  intros Hstep [Huniq Hcount]. split.
  { destruct Hstep; simpl; try done. by apply insertOne_uniqueIndex. }
  intros k. specialize (Hcount k).
  destruct Hstep as [i t1 t2 s body Hl | i t1 t2 s payload data Hl Hp
    | i t1 t2 s payload Hl Hp | i reachable s p data Hl | i s data r Hl | i s data r Hl];
    unfold broadcastsFor in *; simpl in *.
  - pose proof (countIf_insert (pendingWinner k) _ _ _
                  (Inserting Direct (Backend.post_prepare body t1 t2)) Hl) as Hc.
    simpl in Hc. lia.
  - pose proof (countIf_insert (pendingWinner k) _ _ _ (Inserting Bus data) Hl) as Hc.
    simpl in Hc. lia.
  - pose proof (countIf_insert (pendingWinner k) _ _ _ Dropped Hl) as Hc.
    simpl in Hc. lia.
  - pose proof (countIf_insert (pendingWinner k) _ _ _
                  (Answered p data (snd (insertOne reachable data (samples (world s)))))
                  Hl) as Hc.
    rewrite countKey_insertOne. simpl in Hc |- *. lia.
  - pose proof (countIf_insert (pendingWinner k) _ _ _ (Finished Direct data r) Hl) as Hc.
    rewrite calls_post_resume, countKey_app, countKey_ackCalls.
    simpl in Hc |- *. lia.
  - pose proof (countIf_insert (pendingWinner k) _ _ _ (Finished Bus data r) Hl) as Hc.
    rewrite calls_process_resume, countKey_app, countKey_ackCalls.
    simpl in Hc |- *. lia.
Qed.

Lemma run_cons WS_ENABLED l ls s s' :
  run WS_ENABLED (l :: ls) s = Some s' <->
  exists s1, step WS_ENABLED l s = Some s1 /\ run WS_ENABLED ls s1 = Some s'.
Proof.
  simpl. destruct (step WS_ENABLED l s) as [s1|].
  - split; [eauto|]. by intros (? & [= <-] & ?).
  - split; [done|]. by intros (? & ? & ?).
Qed.

Lemma run_Consistent WS_ENABLED ls s s' :
  run WS_ENABLED ls s = Some s' -> Consistent s -> Consistent s'.
Proof.
  revert s. induction ls as [|l ls IH]; intros s Hrun Hc.
  - by injection Hrun as <-.
  - apply run_cons in Hrun as (s1 & Hstep & Hrun).
    apply (IH s1 Hrun). eapply Steps_Consistent; [by apply step_sound|done].
Qed.

Lemma arrive_Consistent srcs w : WorldOk w -> Consistent (arrive srcs w).
Proof.
  intros [Huniq Hcount]. split; [done|]. intros k. simpl.
  assert (Hz : countIf (pendingWinner k) (Arrived <$> srcs) = 0%nat).
  { unfold countIf. induction srcs as [|src srcs IH]; [done|]. simpl. exact IH. }
  rewrite Hz. specialize (Hcount k). lia.
Qed.

(** No step rewrites or removes a stored record: the collection only grows
    at its end. *)
Lemma Steps_samples_prefix WS_ENABLED l s s' :
  Steps WS_ENABLED l s s' -> samples (world s) `prefix_of` samples (world s').
Proof.
  intros Hstep. destruct Hstep; simpl; try done.
  rewrite insertOne_shape. destruct (snd (insertOne _ _ _)); try done.
  by apply prefix_app_r.
Qed.

Lemma run_samples_prefix WS_ENABLED ls s s' :
  run WS_ENABLED ls s = Some s' -> samples (world s) `prefix_of` samples (world s').
Proof.
  revert s. induction ls as [|l ls IH]; intros s Hrun.
  - by injection Hrun as <-.
  - apply run_cons in Hrun as (s1 & Hstep & Hrun).
    etrans; [eapply Steps_samples_prefix; by apply step_sound | by apply IH].
Qed.

Lemma countKey_prefix k l1 l2 : l1 `prefix_of` l2 -> (countKey k l1 <= countKey k l2)%nat.
Proof. intros [l ->]. rewrite countKey_app. lia. Qed.

Lemma carries_stageKey k src : carries k src -> stageKey (Arrived src) = Some k.
Proof.
  destruct src as [body|[|v|d]]; simpl; try done;
    intros Hb; unfold stageKey, indexKey; simpl; by rewrite Hb.
Qed.

Lemma arrive_allAbout k srcs w :
  Forall (carries k) srcs -> allAbout k (tasks (arrive srcs w)).
Proof.
  intros Hall. unfold allAbout. simpl. apply Forall_fmap.
  eapply Forall_impl; [exact Hall|]. intros src. apply carries_stageKey.
Qed.

Lemma allAbout_lookup k ts i st :
  allAbout k ts -> ts !! i = Some st -> stageKey st = Some k.
Proof. intros Hall Hl. by apply (Forall_lookup_1 _ _ _ _ Hall Hl). Qed.

Lemma Steps_allAbout WS_ENABLED k l s s' :
  Steps WS_ENABLED l s s' -> allAbout k (tasks s) -> allAbout k (tasks s').
Proof.
  intros Hstep Hall.
  destruct Hstep as [i t1 t2 s body Hl | i t1 t2 s payload data Hl Hp
    | i t1 t2 s payload Hl Hp | i reachable s p data Hl | i s data r Hl | i s data r Hl];
    pose proof (allAbout_lookup _ _ _ _ Hall Hl) as Hk;
    simpl; try (apply Forall_insert; [exact Hall|]); try exact Hk.
  - unfold stageKey in *. simpl in *. by rewrite indexKey_post_prepare.
  - destruct payload as [|v|d]; try discriminate.
    destruct (indexKey_process_prepare _ _ _ _ Hp) as [Hkey _].
    unfold stageKey in *. simpl in *. by rewrite Hkey.
  - destruct payload as [|v|d]; try discriminate.
Qed.

Lemma run_allAbout WS_ENABLED k ls s s' :
  run WS_ENABLED ls s = Some s' -> allAbout k (tasks s) -> allAbout k (tasks s').
Proof.
  revert s. induction ls as [|l ls IH]; intros s Hrun Hall.
  - by injection Hrun as <-.
  - apply run_cons in Hrun as (s1 & Hstep & Hrun).
    apply (IH s1 Hrun). eapply Steps_allAbout; [by apply step_sound|done].
Qed.

Lemma countIf_app {A} (f : A -> bool) l1 l2 :
  countIf f (l1 ++ l2) = (countIf f l1 + countIf f l2)%nat.
Proof. unfold countIf. by rewrite List.filter_app, length_app. Qed.

Lemma countIf_cons {A} (f : A -> bool) x l :
  countIf f (x :: l) = (Nat.b2n (f x) + countIf f l)%nat.
Proof. unfold countIf. simpl. by destruct (f x). Qed.

Lemma insertOne_reached k data coll :
  indexKey data = k -> hasId (suppliedId data) coll = false ->
  (1 <= countKey k (fst (insertOne true data coll)))%nat.
Proof.
  intros <- Hid. destruct (hasKey (indexKey data) coll) eqn:Hk.
  - rewrite insertOne_duplicate by done. simpl. by apply countKey_pos.
  - rewrite insertOne_fresh by done. simpl.
    rewrite countKey_app, countKey_singleton, bool_decide_eq_true_2 by done. lia.
Qed.

Lemma idsFree_lookup coll ts i st d :
  idsFree coll ts -> ts !! i = Some st -> stageDoc st = Some d ->
  hasId (suppliedId d) coll = false.
Proof. intros Hall Hl. by apply (Forall_lookup_1 _ _ _ _ Hall Hl). Qed.

Lemma Steps_idsFree WS_ENABLED coll0 l s s' :
  Steps WS_ENABLED l s s' -> idsFree coll0 (tasks s) -> idsFree coll0 (tasks s').
Proof.
  intros Hstep Hall.
  destruct Hstep as [i t1 t2 s body Hl | i t1 t2 s payload data Hl Hp
    | i t1 t2 s payload Hl Hp | i reachable s p data Hl | i s data r Hl | i s data r Hl];
    pose proof (fun d => idsFree_lookup _ _ _ _ d Hall Hl) as Hd;
    simpl in *; apply Forall_insert; try exact Hall; simpl.
  - intros d [= <-]. rewrite suppliedId_post_prepare. by apply Hd.
  - destruct payload as [|v|d0]; try discriminate.
    intros d [= <-]. rewrite (suppliedId_process_prepare _ _ _ _ Hp). by apply Hd.
  - by intros d.
  - intros d [= <-]. by apply Hd.
  - intros d [= <-]. by apply Hd.
  - intros d [= <-]. by apply Hd.
Qed.

(** Until a record of the batch is stored, the store is the one the
    submissions met. *)
Lemma Steps_ReachInv WS_ENABLED k coll0 l s s' :
  Steps WS_ENABLED l s s' -> ReachInv k coll0 s -> ReachInv k coll0 s'.
Proof.
  intros Hstep (Hall & Hfree & Hstore).
  split; [by eapply Steps_allAbout|]. split; [by eapply Steps_idsFree|].
  destruct Hstore as [Hpos | Heq].
  { left. pose proof (countKey_prefix k _ _ (Steps_samples_prefix _ _ _ _ Hstep)). lia. }
  destruct Hstep as [i t1 t2 s body Hl | i t1 t2 s payload data Hl Hp
    | i t1 t2 s payload Hl Hp | i reachable s p data Hl | i s data r Hl | i s data r Hl];
    simpl in *; try (by right).
  rewrite insertOne_shape.
  destruct (snd (insertOne reachable data (samples (world s)))); try (by right).
  left. pose proof (allAbout_lookup _ _ _ _ Hall Hl) as Hk.
  unfold stageKey in Hk. simpl in Hk. injection Hk as Hk.
  rewrite countKey_app, countKey_singleton, bool_decide_eq_true_2 by done. lia.
Qed.

Lemma run_ReachInv WS_ENABLED k coll0 ls s s' :
  run WS_ENABLED ls s = Some s' -> ReachInv k coll0 s -> ReachInv k coll0 s'.
Proof.
  revert s. induction ls as [|l ls IH]; intros s Hrun Hinv.
  - by injection Hrun as <-.
  - apply run_cons in Hrun as (s1 & Hstep & Hrun).
    apply (IH s1 Hrun). eapply Steps_ReachInv; [by apply step_sound|done].
Qed.

Lemma arrive_ReachInv k srcs w :
  Forall (carries k) srcs -> Forall (bringsFreshId (samples w)) srcs ->
  ReachInv k (samples w) (arrive srcs w).
Proof.
  intros Hc Hf. split; [by apply arrive_allAbout|]. split; [|by right].
  unfold idsFree. simpl. apply Forall_fmap.
  eapply Forall_impl; [exact Hf|]. intros src Hsrc. exact Hsrc.
Qed.

(** Once the store has executed an insert for the batch, a record of the
    batch is stored. *)
Lemma Steps_store_reached WS_ENABLED k coll0 i s s' :
  Steps WS_ENABLED (Store i true) s s' -> ReachInv k coll0 s ->
  (1 <= countKey k (samples (world s')))%nat.
Proof.
  intros Hstep (Hall & Hfree & Hstore).
  inversion Hstep as [| | | j reachable s0 p data Hl | |]; subst. simpl.
  pose proof (allAbout_lookup _ _ _ _ Hall Hl) as Hk.
  unfold stageKey in Hk. simpl in Hk. injection Hk as Hk.
  destruct Hstore as [Hpos | Heq].
  - rewrite insertOne_shape. destruct (snd _); rewrite ?countKey_app; lia.
  - apply insertOne_reached; [done|]. rewrite Heq.
    by apply (idsFree_lookup _ _ _ _ data Hfree Hl).
Qed.

Lemma run_store_reached WS_ENABLED k coll0 ls s s' i :
  run WS_ENABLED ls s = Some s' -> ReachInv k coll0 s ->
  Store i true ∈ ls ->
  (1 <= countKey k (samples (world s')))%nat.
Proof.
  revert s. induction ls as [|l ls IH]; intros s Hrun Hinv Hin.
  - by apply elem_of_nil in Hin.
  - apply run_cons in Hrun as (s1 & Hstep & Hrun).
    apply step_sound in Hstep.
    apply elem_of_cons in Hin as [<- | Hin].
    + pose proof (Steps_store_reached _ _ _ _ _ _ Hstep Hinv) as H1.
      pose proof (countKey_prefix k _ _ (run_samples_prefix _ _ _ _ Hrun)). lia.
    + apply (IH s1 Hrun); [|done]. by eapply Steps_ReachInv.
Qed.

(** C1, counterexample. Two submissions of a batch that is not stored, one
    per path, both bringing the [_id] of a stored record of another batch,
    with the store executing both inserts: both are rejected on the [_id]
    index and the store ends up without a record of the batch. *)
Lemma stored_id_leaves_batch_unstored :
  ~ (forall s',
       run true raceSchedule (arrive idRaceSources worldWithId) = Some s' ->
       countKey (JString "0xAAAA0001") (samples (world s')) = 1%nat).
Proof.
  intros Hclaim.
  assert (Hrun : countKey (JString "0xAAAA0001") ∘ samples ∘ world
                 <$> run true raceSchedule (arrive idRaceSources worldWithId)
                 = Some 0%nat) by (vm_compute; reflexivity).
  destruct (run true raceSchedule (arrive idRaceSources worldWithId)) as [s'|];
    [|discriminate].
  specialize (Hclaim s' eq_refl). simpl in Hrun. injection Hrun as Hrun.
  rewrite Hclaim in Hrun. discriminate.
Qed.

Example stored_id_race_evaluated :
  (fun s => (stageResult <$> tasks s, Backend.status ∘ snd <$> replies s,
             broadcastsFor (JString "0xAAAA0001") (world s)))
    <$> run true raceSchedule (arrive idRaceSources worldWithId)
  = Some ([Some DuplicateKey; Some DuplicateKey], [409], 0%nat).
Proof. vm_compute. reflexivity. Qed.

(** C1, as the store and the handlers behave. Submissions of one batch, any
    number of them, over the direct path and the bus path in any mix, their
    handlers interleaved in any way around the store's execution of the
    inserts: at every point the store
    holds at most one record of the batch and [broadcastToWS] has been
    called at most once for it, in both processes together; and as soon as
    the store has executed one of the inserts it holds exactly one record
    of the batch, provided no submission brings an [_id] that a record
    stored beforehand already has. (A submission that does is rejected as a
    duplicate key, and one the store never executes fails: neither leaves a
    record.) *)
Theorem dedup_idempotence (WS_ENABLED : bool) (b : Value) (srcs : list Source)
    (w0 : World) (ls : list Label) (s' : Sys) :
  WorldOk w0 ->
  Forall (carries b) srcs ->
  run WS_ENABLED ls (arrive srcs w0) = Some s' ->
  (countKey b (samples (world s')) <= 1)%nat
  /\ (broadcastsFor b (world s') <= 1)%nat
  /\ ((exists i, Store i true ∈ ls) ->
      Forall (bringsFreshId (samples w0)) srcs ->
      countKey b (samples (world s')) = 1%nat).
Proof.
  intros Hok Hsrcs Hrun.
  pose proof (run_Consistent _ _ _ _ Hrun (arrive_Consistent srcs w0 Hok))
    as [Huniq Hcount].
  pose proof (uniqueIndex_count b _ Huniq) as Hle.
  specialize (Hcount b).
  split; [exact Hle|]. split; [lia|].
  intros [i Hin] Hfresh.
  pose proof (run_store_reached _ b _ _ _ _ i Hrun
                (arrive_ReachInv b srcs w0 Hsrcs Hfresh) Hin).
  lia.
Qed.

(** The race of [raceSchedule], a direct and a bus submission of one batch:
    one record, one broadcast. *)
Lemma dedup_idempotence_witness :
  exists s', run true raceSchedule (arrive raceSources (freshWorld [clientA] [])) = Some s'
    /\ countKey (JString "0xAAAA0001") (samples (world s')) = 1%nat
    /\ (broadcastsFor (JString "0xAAAA0001") (world s') <= 1)%nat.
Proof.
  assert (Hok : WorldOk (freshWorld [clientA] [])).
  { split; [constructor|]. intros k. unfold broadcastsFor. simpl. rewrite !countKey_nil. lia. }
  assert (Hsrcs : Forall (carries (JString "0xAAAA0001")) raceSources).
  { repeat constructor. }
  assert (Hfresh : Forall (bringsFreshId (samples (freshWorld [clientA] []))) raceSources).
  { repeat constructor; intros d [= <-]; vm_compute; reflexivity. }
  destruct (run true raceSchedule (arrive raceSources (freshWorld [clientA] [])))
    as [s'|] eqn:Hrun; [|vm_compute in Hrun; discriminate].
  exists s'. split; [reflexivity|].
  destruct (dedup_idempotence true (JString "0xAAAA0001") raceSources _ raceSchedule s'
              Hok Hsrcs Hrun) as (_ & Hb & Hone).
  split; [|exact Hb]. apply Hone; [|exact Hfresh]. exists 1%nat.
  apply list_elem_of_In. simpl. tauto.
Defined.

Lemma winner_by_result b st r :
  stageKey st = Some b -> stageResult st = Some r ->
  winner b st = bool_decide (r = Acknowledged).
Proof.
  destruct st as [?|? ?|p d r0|p d r0|]; simpl; try discriminate;
    unfold stageKey; simpl; intros [= Hk] [= ->];
    destruct r; simpl; try done; by rewrite bool_decide_eq_true_2.
Qed.

Lemma Steps_winners WS_ENABLED k (c0 : nat) l s s' :
  Steps WS_ENABLED l s s' ->
  (countIf (winner k) (tasks s) + c0)%nat = countKey k (samples (world s)) ->
  (countIf (winner k) (tasks s') + c0)%nat = countKey k (samples (world s')).
Proof.
  intros Hstep Heq.
  destruct Hstep as [i t1 t2 s body Hl | i t1 t2 s payload data Hl Hp
    | i t1 t2 s payload Hl Hp | i reachable s p data Hl | i s data r Hl | i s data r Hl];
    simpl in *.
  - pose proof (countIf_insert (winner k) _ _ _
                  (Inserting Direct (Backend.post_prepare body t1 t2)) Hl) as Hc.
    simpl in Hc. lia.
  - pose proof (countIf_insert (winner k) _ _ _ (Inserting Bus data) Hl) as Hc.
    simpl in Hc. lia.
  - pose proof (countIf_insert (winner k) _ _ _ Dropped Hl) as Hc.
    simpl in Hc. lia.
  - pose proof (countIf_insert (winner k) _ _ _
                  (Answered p data (snd (insertOne reachable data (samples (world s)))))
                  Hl) as Hc.
    rewrite countKey_insertOne. simpl in Hc |- *. lia.
  - pose proof (countIf_insert (winner k) _ _ _ (Finished Direct data r) Hl) as Hc.
    simpl in Hc. lia.
  - pose proof (countIf_insert (winner k) _ _ _ (Finished Bus data r) Hl) as Hc.
    simpl in Hc. lia.
Qed.

Lemma Steps_noneFailed WS_ENABLED l s s' :
  Steps WS_ENABLED l s s' -> (forall i, l ≠ Store i false) ->
  noneFailed (tasks s) -> noneFailed (tasks s').
Proof.
  intros Hstep Hreach Hnf.
  destruct Hstep as [i t1 t2 s body Hl | i t1 t2 s payload data Hl Hp
    | i t1 t2 s payload Hl Hp | i reachable s p data Hl | i s data r Hl | i s data r Hl];
    simpl; apply Forall_insert; try exact Hnf; simpl; try done.
  - destruct reachable; [|by specialize (Hreach i)].
    rewrite insertOne_answer. simpl. by destruct (_ || _).
  - apply (Forall_lookup_1 _ _ _ _ Hnf Hl).
  - apply (Forall_lookup_1 _ _ _ _ Hnf Hl).
Qed.

Lemma Steps_answeredStored WS_ENABLED k coll0 l s s' :
  Steps WS_ENABLED l s s' -> (forall i, l ≠ Store i false) ->
  ReachInv k coll0 s ->
  answeredStored k (samples (world s)) (tasks s) ->
  answeredStored k (samples (world s')) (tasks s').
Proof.
  intros Hstep Hreach Hinv Hans.
  assert (Hmono : answeredStored k (samples (world s')) (tasks s)).
  { eapply Forall_impl; [exact Hans|]. intros st Hst Hsome.
    pose proof (countKey_prefix k _ _ (Steps_samples_prefix _ _ _ _ Hstep)).
    specialize (Hst Hsome). lia. }
  destruct Hstep as [i t1 t2 s body Hl | i t1 t2 s payload data Hl Hp
    | i t1 t2 s payload Hl Hp | i reachable s p data Hl | i s data r Hl | i s data r Hl];
    simpl in *; apply Forall_insert; try exact Hmono; simpl;
    try (by intros [? [=]]).
  - intros _. destruct reachable; [|by specialize (Hreach i)].
    apply (Steps_store_reached WS_ENABLED k coll0 i s _
             (StoreInsert WS_ENABLED i true s p data Hl) Hinv).
  - intros _. apply (Forall_lookup_1 _ _ _ _ Hans Hl). by eexists.
  - intros _. apply (Forall_lookup_1 _ _ _ _ Hans Hl). by eexists.
Qed.

Lemma Steps_RaceInv WS_ENABLED k coll0 l s s' :
  Steps WS_ENABLED l s s' -> (forall i, l ≠ Store i false) ->
  RaceInv k coll0 s -> RaceInv k coll0 s'.
Proof.
  intros Hstep Hreach (Hinv & Huniq & Hwin & Hnf & Hans).
  split; [by eapply Steps_ReachInv|].
  split.
  { destruct Hstep; simpl; try done. by apply insertOne_uniqueIndex. }
  split.
  { pose proof (Steps_winners _ k 0 _ _ _ Hstep) as Hw.
    rewrite !Nat.add_0_r in Hw. by apply Hw. }
  split; [by eapply Steps_noneFailed | by eapply Steps_answeredStored].
Qed.

Lemma run_RaceInv WS_ENABLED k coll0 ls s s' :
  run WS_ENABLED ls s = Some s' -> storeAlwaysReachable ls ->
  RaceInv k coll0 s -> RaceInv k coll0 s'.
Proof.
  revert s. induction ls as [|l ls IH]; intros s Hrun Hreach Hinv.
  - by injection Hrun as <-.
  - apply run_cons in Hrun as (s1 & Hstep & Hrun).
    apply (IH s1 Hrun).
    + intros i Hin. apply (Hreach i). by right.
    + eapply Steps_RaceInv; [by apply step_sound | | done].
      intros i ->. apply (Hreach i). by left.
Qed.

Lemma arrive_RaceInv k srcs w :
  uniqueIndex (samples w) -> hasKey k (samples w) = false ->
  Forall (carries k) srcs -> Forall (bringsFreshId (samples w)) srcs ->
  RaceInv k (samples w) (arrive srcs w).
Proof.
  intros Huniq Hno Hsrcs Hfresh.
  split; [by apply arrive_ReachInv|]. split; [done|]. split.
  { apply countKey_zero in Hno. simpl. rewrite Hno.
    unfold countIf. clear. induction srcs as [|src srcs IH]; [done|]. simpl. exact IH. }
  split.
  - unfold noneFailed. simpl. apply Forall_fmap, Forall_forall. by intros src _.
  - unfold answeredStored. simpl. apply Forall_fmap, Forall_forall.
    intros src _. simpl. by intros [? [=]].
Qed.

(** The acknowledged inserts of a batch and the records of it stored
    beforehand are the records stored now. *)
Lemma run_winners WS_ENABLED k (c0 : nat) ls s s' :
  run WS_ENABLED ls s = Some s' ->
  (countIf (winner k) (tasks s) + c0)%nat = countKey k (samples (world s)) ->
  (countIf (winner k) (tasks s') + c0)%nat = countKey k (samples (world s')).
Proof.
  revert s. induction ls as [|l ls IH]; intros s Hrun Heq.
  - by injection Hrun as <-.
  - apply run_cons in Hrun as (s1 & Hstep & Hrun).
    apply (IH s1 Hrun). eapply Steps_winners; [by apply step_sound|done].
Qed.

Lemma run_uniqueIndex WS_ENABLED ls s s' :
  run WS_ENABLED ls s = Some s' ->
  uniqueIndex (samples (world s)) -> uniqueIndex (samples (world s')).
Proof.
  revert s. induction ls as [|l ls IH]; intros s Hrun Hu.
  - by injection Hrun as <-.
  - apply run_cons in Hrun as (s1 & Hstep & Hrun).
    apply (IH s1 Hrun). apply step_sound in Hstep.
    destruct Hstep; simpl; try done. by apply insertOne_uniqueIndex.
Qed.

(** *** What the handlers make of the store's answers *)

Lemma lines_writeLog l l' p :
  countIf (fun x => bool_decide (x = l)) (console (writeLog l' p))
  = (countIf (fun x => bool_decide (x = l)) (console p)
     + Nat.b2n (bool_decide (l' = l)))%nat.
Proof. simpl. rewrite countIf_app, countIf_cons. unfold countIf. simpl. lia. Qed.

Lemma lines_forEachSend l payload data p :
  (forall h, l ≠ LogWsSendError h) -> (forall n, l ≠ LogBroadcast n) ->
  countIf (fun x => bool_decide (x = l)) (console (forEachSend payload data p))
  = countIf (fun x => bool_decide (x = l)) (console p).
Proof.
  intros Herr Hbc. unfold forEachSend. rewrite fold_sendTo. simpl.
  assert (Hz : forall cs,
    countIf (fun x => bool_decide (x = l))
      ((fun c => LogWsSendError (handle c)) <$> cs) = 0%nat).
  { induction cs as [|c cs IH]; [done|]. rewrite fmap_cons, countIf_cons, IH.
    rewrite bool_decide_eq_false_2; [done|]. intros Hx. by apply (Herr (handle c)). }
  destruct (0 <? _); rewrite ?countIf_app, ?countIf_cons, Hz.
  - rewrite bool_decide_eq_false_2; [unfold countIf; simpl; lia|].
    intros Hx. by eapply Hbc.
  - lia.
Qed.

Lemma lines_post_resume (k : Value) (res : InsertResult) l data r p :
  data !! "batchId"%string = Some k ->
  (l = LogStored (Some k) /\ res = Acknowledged)
  \/ (l = LogDuplicate (Some k) /\ res = DuplicateKey) ->
  countIf (fun x => bool_decide (x = l)) (console (fst (Backend.post_resume data r p)))
  = (countIf (fun x => bool_decide (x = l)) (console p)
     + Nat.b2n (bool_decide (r = res)))%nat.
Proof.
  intros Hb Hl. unfold Backend.post_resume. rewrite Hb.
  destruct r; cbn [fst]; unfold Backend.broadcastToWS;
    rewrite ?lines_forEachSend, lines_writeLog;
    try (destruct Hl as [[-> ->] | [-> ->]]; done);
    destruct Hl as [[-> ->] | [-> ->]]; f_equal;
    repeat case_bool_decide; done.
Qed.

Lemma lines_process_resume WS_ENABLED (k : Value) (res : InsertResult) l data r p :
  data !! "batchId"%string = Some k ->
  (l = LogStored (Some k) /\ res = Acknowledged)
  \/ (l = LogDuplicate (Some k) /\ res = DuplicateKey) ->
  countIf (fun x => bool_decide (x = l)) (console (Bridge.process_resume WS_ENABLED data r p))
  = (countIf (fun x => bool_decide (x = l)) (console p)
     + Nat.b2n (bool_decide (r = res)))%nat.
Proof.
  intros Hb Hl. unfold Bridge.process_resume, Bridge.process_failed. rewrite Hb.
  destruct r; unfold Bridge.broadcastToWS;
    try destruct (negb WS_ENABLED || _); cbn [console];
    rewrite ?lines_forEachSend; rewrite ?lines_writeLog;
    try (destruct Hl as [[-> ->] | [-> ->]]; done);
    destruct Hl as [[-> ->] | [-> ->]]; f_equal;
    repeat case_bool_decide; done.
Qed.

Lemma allCarry_lookup k ts i st d :
  allCarry k ts -> ts !! i = Some st -> stageDoc st = Some d ->
  d !! "batchId"%string = Some k.
Proof. intros Hall Hl. by apply (Forall_lookup_1 _ _ _ _ Hall Hl). Qed.

Lemma Steps_allCarry WS_ENABLED k l s s' :
  Steps WS_ENABLED l s s' -> allCarry k (tasks s) -> allCarry k (tasks s').
Proof.
  intros Hstep Hall.
  destruct Hstep as [i t1 t2 s body Hl | i t1 t2 s payload data Hl Hp
    | i t1 t2 s payload Hl Hp | i reachable s p data Hl | i s data r Hl | i s data r Hl];
    pose proof (fun d => allCarry_lookup _ _ _ _ d Hall Hl) as Hd;
    simpl in *; apply Forall_insert; try exact Hall; simpl.
  - intros d [= <-]. rewrite post_prepare_other by done. by apply Hd.
  - destruct payload as [|v|d0]; try discriminate.
    intros d [= <-].
    destruct (indexKey_process_prepare _ _ _ _ Hp) as [_ ->]. by apply Hd.
  - by intros d.
  - intros d [= <-]. by apply Hd.
  - intros d [= <-]. by apply Hd.
  - intros d [= <-]. by apply Hd.
Qed.

Lemma carried_indexKey (d : Doc) k : d !! "batchId"%string = Some k -> indexKey d = k.
Proof. unfold indexKey. by intros ->. Qed.

Lemma calls_count k data r :
  data !! "batchId"%string = Some k ->
  countKey k (ackCalls r data) = Nat.b2n (bool_decide (r = Acknowledged)).
Proof.
  intros Hb. destruct r; simpl; try done.
  rewrite countKey_singleton, bool_decide_eq_true_2; [done|]. by apply carried_indexKey.
Qed.

Lemma status_post_resume data r p code :
  (Backend.status (snd (Backend.post_resume data r p)) =? code)
  = match r with
    | Acknowledged => 201 =? code
    | DuplicateKey => 409 =? code
    | Failed => 500 =? code
    end.
Proof. by destruct r. Qed.

Ltac count_tasks i Hl :=
  match goal with
  | |- context [<[i := ?new]> _] =>
      pose proof (countIf_insert directTask _ _ _ new Hl);
      pose proof (countIf_insert (finishedWith Acknowledged) _ _ _ new Hl);
      pose proof (countIf_insert (finishedWith DuplicateKey) _ _ _ new Hl);
      pose proof (countIf_insert (finishedDirectWith Acknowledged) _ _ _ new Hl);
      pose proof (countIf_insert (finishedDirectWith DuplicateKey) _ _ _ new Hl);
      pose proof (countIf_insert finishedDirect _ _ _ new Hl)
  end.

(** Every step keeps the reports in line with the handlers that have
    returned. *)
Lemma Steps_ObsInv WS_ENABLED k w0 n l s s' :
  Steps WS_ENABLED l s s' -> ObsInv k w0 n s -> ObsInv k w0 n s'.
Proof.
  intros Hstep (Hcarry & Hdir & Hcalls & Hst & Hdup & H201 & H409 & Hlen).
  split; [by eapply Steps_allCarry|].
  unfold broadcastsFor, logCount, repliesWith in *.
  destruct Hstep as [i t1 t2 s body Hl | i t1 t2 s payload data Hl Hp
    | i t1 t2 s payload Hl Hp | i reachable s p data Hl | i s data r Hl | i s data r Hl];
    pose proof (fun d => allCarry_lookup _ _ _ _ d Hcarry Hl) as Hd;
    cbn [stageDoc] in Hd;
    cbn [world tasks replies samples backend bridge];
    count_tasks i Hl.
  - simpl in *. repeat split; lia.
  - simpl in *. repeat split; lia.
  - unfold Bridge.process_failed. rewrite !lines_writeLog.
    rewrite !bool_decide_eq_false_2 by done. simpl in *. repeat split; lia.
  - destruct p; simpl in *; repeat split; lia.
  - rewrite calls_post_resume, countKey_app, (calls_count k) by (by apply Hd).
    rewrite (lines_post_resume k Acknowledged (LogStored (Some k)))
      by (try (by apply Hd); by left).
    rewrite (lines_post_resume k DuplicateKey (LogDuplicate (Some k)))
      by (try (by apply Hd); by right).
    rewrite !countIf_app, !countIf_cons, length_app. cbn [snd].
    rewrite !status_post_resume.
    destruct r; simpl in *; unfold countIf in *; simpl in *; repeat split; lia.
  - rewrite calls_process_resume, countKey_app, (calls_count k) by (by apply Hd).
    rewrite (lines_process_resume WS_ENABLED k Acknowledged (LogStored (Some k)))
      by (try (by apply Hd); by left).
    rewrite (lines_process_resume WS_ENABLED k DuplicateKey (LogDuplicate (Some k)))
      by (try (by apply Hd); by right).
    destruct r; simpl in *; repeat split; lia.
Qed.

Lemma run_ObsInv WS_ENABLED k w0 n ls s s' :
  run WS_ENABLED ls s = Some s' -> ObsInv k w0 n s -> ObsInv k w0 n s'.
Proof.
  revert s. induction ls as [|l ls IH]; intros s Hrun Hinv.
  - by injection Hrun as <-.
  - apply run_cons in Hrun as (s1 & Hstep & Hrun).
    apply (IH s1 Hrun). eapply Steps_ObsInv; [by apply step_sound|done].
Qed.

Lemma arrive_ObsInv k srcs w :
  Forall (carries k) srcs -> ObsInv k w (countIf isDirect srcs) (arrive srcs w).
Proof.
  intros Hsrcs.
  assert (Hz : forall f : Stage -> bool,
            (forall src, f (Arrived src) = false) ->
            countIf f (Arrived <$> srcs) = 0%nat).
  { intros f Hf. clear Hsrcs. induction srcs as [|src srcs IH]; [done|].
    rewrite fmap_cons, countIf_cons, Hf, IH. done. }
  split.
  { unfold allCarry. simpl. apply Forall_fmap.
    eapply Forall_impl; [exact Hsrcs|]. intros src Hsrc d.
    destruct src as [body|[|v|d0]]; simpl in *; try done; by intros [= <-]. }
  split.
  { simpl. clear. induction srcs as [|src srcs IH]; [done|].
    rewrite fmap_cons, !countIf_cons, IH. by destruct src. }
  unfold repliesWith. simpl. rewrite !Hz by done.
  repeat split; unfold countIf; simpl; lia.
Qed.

(** C3, counterexample. The two submissions of [idRaceSources] are of a
    batch that is not stored, and the store executes both inserts; both are
    rejected, because both bring the [_id] of a stored record: no insert is
    acknowledged. *)
Lemma stored_id_rejects_both_inserts :
  ~ (forall s' r1 r2,
       run true raceSchedule (arrive idRaceSources worldWithId) = Some s' ->
       stageResult <$> tasks s' = [Some r1; Some r2] ->
       (r1 = Acknowledged /\ r2 = DuplicateKey)
       \/ (r1 = DuplicateKey /\ r2 = Acknowledged)).
Proof.
  intros Hclaim.
  assert (Hrun : (fun s => stageResult <$> tasks s)
                 <$> run true raceSchedule (arrive idRaceSources worldWithId)
                 = Some [Some DuplicateKey; Some DuplicateKey])
    by (vm_compute; reflexivity).
  destruct (run true raceSchedule (arrive idRaceSources worldWithId)) as [s'|];
    [|discriminate].
  simpl in Hrun. injection Hrun as Hrun.
  destruct (Hclaim s' DuplicateKey DuplicateKey eq_refl Hrun) as [[? _] | [_ ?]];
    discriminate.
Qed.

(** C3, as the store and the handlers behave. Each handler hands the store
    one [insertOne] and nothing else, so the check of the unique indexes
    and the append are the store's one operation. Two submissions of the
    same batch over any two paths, however the two handlers and the two
    inserts are interleaved: never are both inserts acknowledged, never are
    two callers answered 201, and [broadcastToWS] is called at most once.
    When the batch was not stored, neither submission brings a stored
    [_id] and the store executes every insert: once both have their answer,
    one insert was acknowledged and the other rejected as a duplicate key,
    and the store holds one record of the batch; and once both handlers
    have returned they have reported just that: one "stored" line and one
    "duplicate" line, [broadcastToWS] called once, every direct caller
    answered 201 or 409. *)
Theorem concurrent_inserts_one_winner (WS_ENABLED : bool) (b : Value)
    (src1 src2 : Source) (w0 : World) (ls : list Label) (s' : Sys)
    (r1 r2 : InsertResult) :
  uniqueIndex (samples w0) ->
  carries b src1 -> carries b src2 ->
  run WS_ENABLED ls (arrive [src1; src2] w0) = Some s' ->
  stageResult <$> tasks s' = [Some r1; Some r2] ->
  ~ (r1 = Acknowledged /\ r2 = Acknowledged)
  /\ (repliesWith 201 s' <= 1)%nat
  /\ (broadcastsFor b (world s') <= S (broadcastsFor b w0))%nat
  /\ (hasKey b (samples w0) = false ->
      bringsFreshId (samples w0) src1 -> bringsFreshId (samples w0) src2 ->
      storeAlwaysReachable ls ->
      ((r1 = Acknowledged /\ r2 = DuplicateKey)
       \/ (r1 = DuplicateKey /\ r2 = Acknowledged))
      /\ countKey b (samples (world s')) = 1%nat
      /\ (Forall (fun st => returned st = true) (tasks s') ->
          broadcastsFor b (world s') = S (broadcastsFor b w0)
          /\ logCount (LogStored (Some b)) (world s')
             = S (logCount (LogStored (Some b)) w0)
          /\ logCount (LogDuplicate (Some b)) (world s')
             = S (logCount (LogDuplicate (Some b)) w0)
          /\ length (replies s') = countIf isDirect [src1; src2]
          /\ (repliesWith 201 s' + repliesWith 409 s')%nat = length (replies s')
          /\ (repliesWith 409 s' <= 1)%nat)).
Proof.
  intros Huniq Hc1 Hc2 Hrun Hres.
  assert (Hsrcs : Forall (carries b) [src1; src2]) by (by repeat constructor).
  pose proof (run_allAbout _ b _ _ _ Hrun (arrive_allAbout b _ w0 Hsrcs)) as Hall.
  pose proof (run_ObsInv _ b _ _ _ _ _ Hrun (arrive_ObsInv b _ w0 Hsrcs))
    as (_ & Hdir & Hcalls & Hst & Hdup & H201 & H409 & Hlen).
  pose proof (uniqueIndex_count b _ (run_uniqueIndex _ _ _ _ Hrun Huniq)) as Hle.
  pose proof (run_winners _ b (countKey b (samples w0)) _ _ _ Hrun) as Hwin.
  assert (Hz : countIf (winner b) (tasks (arrive [src1; src2] w0)) = 0%nat) by done.
  rewrite Hz in Hwin. specialize (Hwin eq_refl).
  destruct (tasks s') as [|x [|y [|z rest]]] eqn:Htasks; try discriminate.
  simpl in Hres. injection Hres as Hx Hy.
  apply Forall_cons in Hall as [Hkx Hall]. apply Forall_cons in Hall as [Hky _].
  unfold countIf in Hwin. simpl in Hwin.
  rewrite (winner_by_result b x r1 Hkx Hx), (winner_by_result b y r2 Hky Hy) in Hwin.
  assert (Hfin : forall st r, stageKey st = Some b -> stageResult st = Some r ->
            (Nat.b2n (finishedWith Acknowledged st)
             <= Nat.b2n (bool_decide (r = Acknowledged)))%nat
            /\ (Nat.b2n (finishedDirectWith Acknowledged st)
                <= Nat.b2n (bool_decide (r = Acknowledged)))%nat).
  { intros st r _ Hr. destruct st as [?|? ?|p d r0|p d r0|]; simpl in *;
      try discriminate; injection Hr as ->; simpl; try lia.
    destruct p; simpl; lia. }
  destruct (Hfin x r1 Hkx Hx) as [Hfx Hdx]. destruct (Hfin y r2 Hky Hy) as [Hfy Hdy].
  split.
  { intros [-> ->]. simpl in Hwin. lia. }
  split.
  { rewrite H201. unfold countIf. simpl.
    destruct (finishedDirectWith Acknowledged x), (finishedDirectWith Acknowledged y);
      simpl in *; try lia.
    destruct (bool_decide (r1 = Acknowledged)), (bool_decide (r2 = Acknowledged));
      simpl in *; lia. }
  split.
  { rewrite Hcalls. unfold countIf. simpl.
    destruct (finishedWith Acknowledged x), (finishedWith Acknowledged y);
      simpl in *; try lia.
    destruct (bool_decide (r1 = Acknowledged)), (bool_decide (r2 = Acknowledged));
      simpl in *; lia. }
  intros Hno Hf1 Hf2 Hreach.
  assert (Hfresh : Forall (bringsFreshId (samples w0)) [src1; src2])
    by (by repeat constructor).
  pose proof (run_RaceInv _ b _ _ _ _ Hrun Hreach
                (arrive_RaceInv b _ w0 Huniq Hno Hsrcs Hfresh))
    as (_ & _ & _ & Hnf & Hans).
  rewrite Htasks in Hnf, Hans.
  apply Forall_cons in Hnf as [Hnx Hnf]. apply Forall_cons in Hnf as [Hny _].
  apply Forall_cons in Hans as [Hax _].
  assert (Hone : countKey b (samples (world s')) = 1%nat).
  { assert (1 <= countKey b (samples (world s')))%nat
      by (apply Hax; rewrite Hx; by eexists). lia. }
  rewrite Hone in Hwin. apply countKey_zero in Hno. rewrite Hno in Hwin.
  rewrite Hx in Hnx. rewrite Hy in Hny.
  assert (Hpair : (r1 = Acknowledged /\ r2 = DuplicateKey)
                  \/ (r1 = DuplicateKey /\ r2 = Acknowledged)).
  { destruct r1, r2; simpl in Hwin; try done; try (by left); try (by right); lia. }
  split; [exact Hpair|]. split; [exact Hone|].
  intros Hret.
  apply Forall_cons in Hret as [Hrx Hret]. apply Forall_cons in Hret as [Hry _].
  rewrite Hcalls, Hst, Hdup, H201, H409, Hlen, <- Hdir.
  destruct x as [?|? ?|px dx rx|px dx rx|]; try discriminate;
    destruct y as [?|? ?|py dy ry|py dy ry|]; try discriminate.
  simpl in Hx, Hy. injection Hx as ->. injection Hy as ->.
  unfold countIf. simpl.
  destruct Hpair as [[-> ->] | [-> ->]]; destruct px, py; simpl; repeat split; lia.
Qed.

(** The race of [raceSchedule]: both handlers are at their [await] before
    the store executes the bus insert, then the direct one; the direct
    caller is answered 409 and the bridge broadcasts. *)
Lemma concurrent_inserts_one_winner_witness :
  exists s' r1 r2,
    run true raceSchedule (arrive raceSources (freshWorld [clientA] [])) = Some s'
    /\ stageResult <$> tasks s' = [Some r1; Some r2]
    /\ ((r1 = Acknowledged /\ r2 = DuplicateKey)
        \/ (r1 = DuplicateKey /\ r2 = Acknowledged))
    /\ countKey (JString "0xAAAA0001") (samples (world s')) = 1%nat
    /\ broadcastsFor (JString "0xAAAA0001") (world s') = 1%nat
    /\ (repliesWith 201 s' <= 1)%nat.
Proof.
  assert (Hobs0 : (fun s => (stageResult <$> tasks s, forallb returned (tasks s)))
                  <$> run true raceSchedule (arrive raceSources (freshWorld [clientA] []))
                  = Some ([Some DuplicateKey; Some Acknowledged], true))
    by (vm_compute; reflexivity).
  destruct (run true raceSchedule (arrive raceSources (freshWorld [clientA] [])))
    as [s'|] eqn:Hrun; [|discriminate].
  simpl in Hobs0. injection Hobs0 as Hres Hret.
  assert (Hret' : Forall (fun st => returned st = true) (tasks s')).
  { apply Forall_forall. intros st Hst.
    apply (proj1 (forallb_forall _ _) Hret). by apply list_elem_of_In. }
  assert (Hreach : storeAlwaysReachable raceSchedule).
  { intros i Hin. apply list_elem_of_In in Hin. simpl in Hin.
    intuition discriminate. }
  assert (Hf1 : bringsFreshId (samples (freshWorld [clientA] [])) (FromDirect sampleFirst))
    by (intros d [= <-]; vm_compute; reflexivity).
  assert (Hf2 : bringsFreshId (samples (freshWorld [clientA] []))
                  (FromBus (Bridge.JsonObject sampleSecond)))
    by (intros d [= <-]; vm_compute; reflexivity).
  exists s', DuplicateKey, Acknowledged.
  split; [reflexivity|]. split; [exact Hres|].
  destruct (concurrent_inserts_one_winner true (JString "0xAAAA0001")
           (FromDirect sampleFirst) (FromBus (Bridge.JsonObject sampleSecond))
           (freshWorld [clientA] []) raceSchedule s' DuplicateKey Acknowledged
           (NoDup_nil_2 : uniqueIndex (samples (freshWorld [clientA] [])))
           eq_refl eq_refl Hrun Hres)
    as (_ & H201 & _ & Hrace).
  destruct (Hrace eq_refl Hf1 Hf2 Hreach) as (Hpair & Hone & Hobs).
  destruct (Hobs Hret') as (Hcalls & _).
  split; [exact Hpair|]. split; [exact Hone|]. split; [exact Hcalls | exact H201].
Defined.

(** C9, as the services assign and keep timestamps. The direct path always
    sets [createdAt] and [updatedAt] from the server clock, whatever the
    payload carried; the bus path sets each of the two only when the
    payload's value is absent or falsy, and otherwise keeps the payload's
    value. Once a record is stored no handler and no step of any schedule
    rewrites or removes it: the collection before is a prefix of the
    collection after. *)
Theorem timestamps_assigned_then_frozen (WS_ENABLED : bool) (d : Doc) (t1 t2 : Z) :
  (Backend.post_prepare d t1 t2 !! "createdAt"%string = Some (JDate t1)
   /\ Backend.post_prepare d t1 t2 !! "updatedAt"%string = Some (JDate t2))
  /\ (exists d_bus,
        Bridge.process_prepare (Bridge.JsonObject d) t1 t2 = Some d_bus
        /\ d_bus !! "createdAt"%string
           = (if truthy (d !! "createdAt"%string) then d !! "createdAt"%string
              else Some (JDate t1))
        /\ d_bus !! "updatedAt"%string
           = (if truthy (d !! "updatedAt"%string) then d !! "updatedAt"%string
              else Some (JDate t2)))
  /\ (forall reachable w,
        samples w `prefix_of` samples (fst (post_v1_samples reachable d t1 t2 w)))
  /\ (forall reachable payload w,
        samples w `prefix_of` samples (processSample WS_ENABLED reachable payload t1 t2 w))
  /\ (forall ls s s',
        run WS_ENABLED ls s = Some s' ->
        samples (world s) `prefix_of` samples (world s')).
Proof.
  split; [apply post_prepare_stamps|]. split.
  { destruct (process_prepare_object d t1 t2) as (d_bus & Hd & _ & Hc & Hu). eauto. }
  split.
  { intros reachable w. rewrite post_v1_samples_eq. simpl.
    rewrite insertOne_shape. destruct (snd (insertOne _ _ _)); try done.
    by apply prefix_app_r. }
  split.
  { intros reachable payload w. unfold processSample.
    destruct (Bridge.process_prepare payload t1 t2) as [data|]; [|done].
    pose proof (insertOne_shape reachable data (samples w)) as Hshape.
    destruct (insertOne reachable data (samples w)) as [coll r]. simpl in *.
    subst coll. destruct r; try done. by apply prefix_app_r. }
  intros ls s s'. apply run_samples_prefix.
Qed.

(** The bus path keeps a truthy inbound stamp and replaces a falsy one. *)
Example bus_timestamp_samples :
  (exists d, Bridge.process_prepare (Bridge.JsonObject sampleStamped) 5000 5000 = Some d
             /\ d !! "createdAt"%string = Some inboundStamp)
  /\ (exists d, Bridge.process_prepare
                  (Bridge.JsonObject (<["createdAt"%string := JInt 0]> sampleFirst))
                  5000 5000 = Some d
                /\ d !! "createdAt"%string = Some (JDate 5000)).
Proof. split; eexists; split; reflexivity. Qed.

End ScheduleProperties.

Section RouteProperties.
Import Js Mongo Ws Pipeline Routes Backend.

Lemma prefix_append p t : String.prefix p (String.append p t) = true.
Proof.
  induction p as [|c p IH]; simpl; [by destruct t|].
  destruct (Ascii.ascii_dec c c); [exact IH|done].
Qed.

Lemma dropChars_append p t : dropChars (String.length p) (String.append p t) = t.
Proof. induction p as [|c p IH]; simpl; [done|exact IH]. Qed.

Lemma replaceFirst_unfold pat rep s :
  replaceFirst pat rep s =
  if String.prefix pat s
  then String.append rep (dropChars (String.length pat) s)
  else match s with
       | EmptyString => EmptyString
       | String c rest => String c (replaceFirst pat rep rest)
       end.
Proof. by destruct s. Qed.

Lemma replaceFirst_prefix p t : replaceFirst p "" (String.append p t) = t.
Proof. by rewrite replaceFirst_unfold, prefix_append, dropChars_append. Qed.

Lemma occursIn_unfold pat s :
  occursIn pat s =
  String.prefix pat s
  || match s with
     | EmptyString => false
     | String _ rest => occursIn pat rest
     end.
Proof. by destruct s. Qed.

Lemma replaceFirst_absent pat rep s :
  occursIn pat s = false -> replaceFirst pat rep s = s.
Proof.
  induction s as [|c s IH]; intros Hocc;
    rewrite occursIn_unfold in Hocc; apply orb_false_iff in Hocc as [Hp Hrest];
    rewrite replaceFirst_unfold, Hp; [done|]. by rewrite IH.
Qed.

(** X1. [authenticate]: without a configured token (unset or empty) every
    request passes. With one, a request without an Authorization header is
    refused; the header "Bearer " followed by the token passes, and so does
    the bare token when it does not itself contain "Bearer ", because only
    the first occurrence of the prefix is cut out before the comparison. A
    refused POST is answered 401 and leaves store and subscribers as they
    were. *)
Theorem authenticate_policy :
  (forall h, authenticate None h = Next /\ authenticate (Some ""%string) h = Next)
  /\ (forall tok, tok <> ""%string -> authenticate (Some tok) None = Unauthorized)
  /\ (forall tok, tok <> ""%string ->
        authenticate (Some tok) (Some (String.append "Bearer " tok)) = Next)
  /\ (forall tok, tok <> ""%string -> occursIn "Bearer " tok = false ->
        authenticate (Some tok) (Some tok) = Next)
  /\ (forall tok h, tok <> ""%string ->
        (authenticate (Some tok) (Some h) = Next <-> replaceFirst "Bearer " "" h = tok))
  /\ (forall tok h reachable body t1 t2 w,
        authenticate tok h = Unauthorized ->
        fst (guarded_post tok h reachable body t1 t2 w) = w
        /\ Backend.status (snd (guarded_post tok h reachable body t1 t2 w)) = 401).
Proof.
  assert (Hconf : forall tok, tok <> ""%string -> configured (Some tok) = true).
  { intros tok Hne. simpl. by rewrite bool_decide_eq_false_2. }
  assert (Hsome : forall tok h, tok <> ""%string ->
            authenticate (Some tok) (Some h)
            = if bool_decide (replaceFirst "Bearer " "" h = tok) then Next
              else Unauthorized).
  { intros tok h Hne. unfold authenticate. rewrite Hconf by done.
    change (negb true) with false. cbv iota.
    change (replaceFirst "Bearer " "" <$> Some h)
      with (Some (replaceFirst "Bearer " "" h)).
    repeat case_bool_decide; try done; congruence. }
  split; [by intros h|]. split.
  { intros tok Hne. unfold authenticate. rewrite Hconf by done. done. }
  split.
  { intros tok Hne. rewrite Hsome by done.
    by rewrite replaceFirst_prefix, bool_decide_eq_true_2. }
  split.
  { intros tok Hne Hocc. rewrite Hsome by done.
    by rewrite replaceFirst_absent, bool_decide_eq_true_2. }
  split.
  { intros tok h Hne. rewrite Hsome by done. case_bool_decide; split; done. }
  intros tok h reachable body t1 t2 w Hun. unfold guarded_post. by rewrite Hun.
Qed.

Lemma findOne_none k coll :
  findOne k coll = None <-> forall d, d ∈ coll -> d !! "batchId"%string ≠ Some k.
Proof.
  unfold findOne. rewrite head_None. split.
  - intros Hnil d Hin Hk.
    assert (Hd : d ∈ filter (fun d : Doc => d !! "batchId"%string = Some k) coll)
      by (apply list_elem_of_filter; done).
    rewrite Hnil in Hd. by apply elem_of_nil in Hd.
  - induction coll as [|d coll IH]; intros Hall; [done|].
    rewrite filter_cons_False.
    + apply IH. intros e He. apply Hall. by right.
    + apply Hall. by left.
Qed.

Lemma findOne_some k coll d :
  findOne k coll = Some d -> d ∈ coll /\ d !! "batchId"%string = Some k.
Proof.
  unfold findOne. intros Hhead. apply head_Some_elem_of in Hhead.
  apply list_elem_of_filter in Hhead. tauto.
Qed.

Lemma findOne_app k l1 l2 d :
  findOne k l1 = Some d -> findOne k (l1 ++ l2) = Some d.
Proof.
  unfold findOne. rewrite filter_app.
  destruct (filter _ l1); [done|]. done.
Qed.

Lemma findOne_unique k coll d :
  uniqueIndex coll -> d ∈ coll -> d !! "batchId"%string = Some k ->
  findOne k coll = Some d.
Proof.
  intros Huniq Hin Hk.
  destruct (findOne k coll) as [e|] eqn:Hfind.
  - apply findOne_some in Hfind as [He Hek]. f_equal.
    apply list_elem_of_lookup in He as [i Hi].
    apply list_elem_of_lookup in Hin as [j Hj].
    assert (Hkeys : indexKey e = indexKey d) by (unfold indexKey; by rewrite Hek, Hk).
    assert (i = j).
    { eapply (NoDup_lookup _ i j (indexKey e) Huniq);
        rewrite list_lookup_fmap; [by rewrite Hi | by rewrite Hj, Hkeys]. }
    subst. congruence.
  - exfalso. rewrite findOne_none in Hfind. by apply (Hfind d).
Qed.

Lemma post_created reachable body t1 t2 w :
  Backend.status (snd (post_v1_samples reachable body t1 t2 w)) = 201 <->
  snd (insertOne reachable (post_prepare body t1 t2) (samples w)) = Acknowledged.
Proof.
  rewrite post_v1_samples_eq. simpl.
  destruct (snd (insertOne _ _ _)); simpl; split; done.
Qed.

Lemma post_created_samples reachable body t1 t2 w :
  Backend.status (snd (post_v1_samples reachable body t1 t2 w)) = 201 ->
  samples (fst (post_v1_samples reachable body t1 t2 w))
  = samples w ++ [post_prepare body t1 t2].
Proof.
  intros Hc. apply post_created in Hc.
  rewrite post_v1_samples_eq. simpl. by rewrite insertOne_shape, Hc.
Qed.

(** X2. GET /v1/samples/:batchId finds what POST /v1/samples stored: a body
    with a string [batchId] whose POST was answered 201 is found under
    that id right after, stamped as it was stored, and a POST is answered
    201 when the store is reachable and holds neither the body's [batchId]
    nor the [_id] it brings; every stored record is found by its own
    [batchId]; the answer is 404 exactly when no stored record has that
    id; and no later POST changes what an id retrieves. *)
Theorem sample_lookup_round_trip (w : World) (b : string) :
  uniqueIndex (samples w) ->
  (forall reachable body t1 t2,
     body !! "batchId"%string = Some (JString b) ->
     Backend.status (snd (post_v1_samples reachable body t1 t2 w)) = 201 ->
     get_v1_sample true b (samples (fst (post_v1_samples reachable body t1 t2 w)))
     = Found (Backend.post_prepare body t1 t2))
  /\ (forall body t1 t2,
        body !! "batchId"%string = Some (JString b) ->
        hasKey (JString b) (samples w) = false ->
        hasId (suppliedId body) (samples w) = false ->
        Backend.status (snd (post_v1_samples true body t1 t2 w)) = 201)
  /\ (forall d, d ∈ samples w -> d !! "batchId"%string = Some (JString b) ->
        get_v1_sample true b (samples w) = Found d)
  /\ (get_v1_sample true b (samples w) = NotFound <->
        forall d, d ∈ samples w -> d !! "batchId"%string ≠ Some (JString b))
  /\ (forall d reachable body t1 t2,
        get_v1_sample true b (samples w) = Found d ->
        get_v1_sample true b (samples (fst (post_v1_samples reachable body t1 t2 w)))
        = Found d).
Proof.
  intros Huniq. split; [|split; [|split; [|split]]].
  - intros reachable body t1 t2 Hb Hc.
    pose proof (insertOne_uniqueIndex reachable (Backend.post_prepare body t1 t2)
                  (samples w) Huniq) as Hu.
    rewrite insertOne_shape, (proj1 (post_created _ _ _ _ _) Hc) in Hu.
    rewrite (post_created_samples _ _ _ _ _ Hc).
    unfold get_v1_sample. simpl.
    rewrite (findOne_unique (JString b) _ (Backend.post_prepare body t1 t2)); [done|done| |].
    + apply elem_of_app. right. by apply list_elem_of_singleton.
    + by rewrite post_prepare_other.
  - intros body t1 t2 Hb Hk Hi. apply post_created, insertOne_acknowledged.
    split; [done|]. rewrite indexKey_post_prepare, suppliedId_post_prepare.
    unfold indexKey. by rewrite Hb.
  - intros d Hin Hd. unfold get_v1_sample. simpl.
    by rewrite (findOne_unique _ _ d Huniq Hin Hd).
  - unfold get_v1_sample. simpl.
    destruct (findOne (JString b) (samples w)) as [e|] eqn:Hfind.
    + split; [done|]. intros Hall. apply findOne_some in Hfind as [He Hek].
      by destruct (Hall e He).
    + split; [|done]. intros _. by apply findOne_none.
  - intros d reachable body t1 t2. unfold get_v1_sample. simpl.
    destruct (findOne (JString b) (samples w)) as [e|] eqn:Hfind; [|done].
    intros [= ->]. rewrite post_v1_samples_eq. simpl. rewrite insertOne_shape.
    destruct (snd (insertOne _ _ _)); rewrite ?(findOne_app _ _ _ _ Hfind), ?Hfind; done.
Qed.

Lemma insertDesc_perm field d l : insertDesc field d l ≡ₚ d :: l.
Proof.
  induction l as [|e l IH]; simpl; [done|].
  destruct (_ && _); [done|]. rewrite IH. apply Permutation_swap.
Qed.

Lemma fold_insertDesc_perm field coll acc :
  fold_left (fun acc d => insertDesc field d acc) coll acc ≡ₚ acc ++ coll.
Proof.
  revert acc. induction coll as [|d coll IH]; intros acc; simpl.
  - by rewrite app_nil_r.
  - rewrite IH, insertDesc_perm. simpl. apply Permutation_middle.
Qed.

Lemma sortDesc_perm field coll : sortDesc field coll ≡ₚ coll.
Proof. unfold sortDesc. by rewrite fold_insertDesc_perm. Qed.

(** The order of BSON values is a total preorder. *)
Lemma string_compare_trans (a b c : string) :
  String.compare a b = Lt -> String.compare b c = Lt -> String.compare a c = Lt.
Proof.
  revert b c. induction a as [|x a IH]; intros [|y b] [|z c]; simpl; try done.
  unfold Ascii.compare.
  destruct (N.compare_spec (N_of_ascii x) (N_of_ascii y)) as [Hxy|Hxy|Hxy]; try done;
    destruct (N.compare_spec (N_of_ascii y) (N_of_ascii z)) as [Hyz|Hyz|Hyz]; try done;
    intros H1 H2.
  - rewrite Hxy, Hyz, N.compare_refl. by apply (IH b c).
  - rewrite Hxy. by rewrite (proj2 (N.compare_lt_iff _ _) Hyz).
  - rewrite <- Hyz. by rewrite (proj2 (N.compare_lt_iff _ _) Hxy).
  - assert (Hxz : (N_of_ascii x < N_of_ascii z)%N) by lia.
    by rewrite (proj2 (N.compare_lt_iff _ _) Hxz).
Qed.

Lemma string_compare_refl (a : string) : String.compare a a = Eq.
Proof.
  induction a as [|x a IH]; simpl; [done|].
  unfold Ascii.compare. by rewrite N.compare_refl.
Qed.

Lemma bsonLeb_refl a : bsonLeb a a = true.
Proof.
  destruct a as [|b|n|s|n]; simpl; try done; try (apply Z.leb_refl).
  - by destruct b.
  - by rewrite bool_decide_eq_true_2.
Qed.

Lemma bsonLeb_total a b : bsonLeb a b = true \/ bsonLeb b a = true.
Proof.
  destruct a as [|x|x|x|x], b as [|y|y|y|y]; simpl; try (by left); try (by right).
  - destruct x, y; simpl; tauto.
  - destruct (Z.leb_spec x y); [by left|]. right. apply Z.leb_le. lia.
  - unfold String.ltb. rewrite (String.compare_antisym y x).
    destruct (String.compare x y) eqn:Hc; simpl.
    + left. apply String.compare_eq_iff in Hc. subst.
      by rewrite bool_decide_eq_true_2.
    + left. apply orb_true_r.
    + right. apply orb_true_r.
  - destruct (Z.leb_spec x y); [by left|]. right. apply Z.leb_le. lia.
Qed.

Lemma bsonLeb_trans a b c :
  bsonLeb a b = true -> bsonLeb b c = true -> bsonLeb a c = true.
Proof.
  destruct a as [|x|x|x|x], b as [|y|y|y|y], c as [|z|z|z|z]; simpl; try done.
  - destruct x, y, z; done.
  - rewrite !Z.leb_le. lia.
  - intros H1 H2. apply orb_true_iff in H1 as [H1|H1], H2 as [H2|H2];
      try apply bool_decide_eq_true in H1; try apply bool_decide_eq_true in H2;
      subst; rewrite ?bool_decide_eq_true_2 by done; try done;
      try (by rewrite H1, orb_true_r); try (by rewrite H2, orb_true_r).
    apply orb_true_iff. right. unfold String.ltb in *.
    destruct (String.compare x y) eqn:Hxy; try done.
    destruct (String.compare y z) eqn:Hyz; try done.
    by rewrite (string_compare_trans x y z).
  - rewrite !Z.leb_le. lia.
Qed.

Lemma insertDesc_descending field d l :
  descending field l -> descending field (insertDesc field d l).
Proof.
  induction l as [|e l IH]; simpl; [done|].
  intros [Hall Hdesc].
  destruct (bsonLeb (sortKey field e) (sortKey field d)
            && negb (bool_decide (sortKey field e = sortKey field d))) eqn:Hlt.
  - apply andb_true_iff in Hlt as [Hle _]. simpl. split; [|done].
    apply Forall_cons. split; [done|].
    eapply Forall_impl; [exact Hall|]. intros x Hx. simpl in Hx.
    by apply (bsonLeb_trans _ (sortKey field e)).
  - simpl. split; [|by apply IH].
    rewrite insertDesc_perm. apply Forall_cons. split; [|done].
    apply andb_false_iff in Hlt as [Hle | Heq].
    + destruct (bsonLeb_total (sortKey field e) (sortKey field d)); [congruence|done].
    + apply negb_false_iff, bool_decide_eq_true in Heq. rewrite Heq.
      apply bsonLeb_refl.
Qed.

(** [sortDesc] is one of the answers the server may give. *)
Lemma sortDesc_sortedAnswer field coll : sortedAnswer field coll (sortDesc field coll).
Proof.
  split; [apply sortDesc_perm|]. unfold sortDesc.
  assert (Hgen : forall acc, descending field acc ->
            descending field (fold_left (fun acc d => insertDesc field d acc) coll acc)).
  { induction coll as [|d coll IH]; intros acc Hacc; simpl; [done|].
    apply IH. by apply insertDesc_descending. }
  by apply Hgen.
Qed.

Lemma get_v1_samples_on_sortDesc q qskip coll :
  get_v1_samples true q qskip coll
  = get_v1_samples_on (sortDesc "createdAt" coll) q qskip coll.
Proof.
  unfold get_v1_samples, get_v1_samples_on, findSorted. simpl.
  by destruct (effectiveSkip qskip <? 0).
Qed.

(** In every answer of the server the record that is newer than all others
    comes first, and the rest is an answer for the others. *)
Lemma sortedAnswer_newest t d coll listing :
  d !! "createdAt"%string = Some (JDate t) ->
  allCreatedBefore t coll ->
  sortedAnswer "createdAt" (coll ++ [d]) listing ->
  exists rest, listing = d :: rest /\ sortedAnswer "createdAt" coll rest.
Proof.
  intros Hd Hall [Hperm Hdesc].
  destruct listing as [|h rest].
  { apply Permutation_nil in Hperm. by destruct coll. }
  destruct Hdesc as [Hfirst Hdesc].
  assert (Hh : h ∈ coll ++ [d]) by (rewrite <- Hperm; by left).
  assert (Hhd : h = d).
  { apply elem_of_app in Hh as [Hh | Hh]; [|by apply list_elem_of_singleton in Hh].
    exfalso.
    pose proof (proj1 (Forall_forall _ _) Hall h Hh) as (ms & Hms & Hlt).
    assert (Hdin : d ∈ h :: rest).
    { rewrite Hperm. apply elem_of_app. right. by apply list_elem_of_singleton. }
    apply elem_of_cons in Hdin as [-> | Hdin];
      [rewrite Hd in Hms; injection Hms as ->; lia|].
    pose proof (proj1 (Forall_forall _ _) Hfirst d Hdin) as Hle.
    unfold sortKey in Hle. rewrite Hd, Hms in Hle. simpl in Hle.
    apply Z.leb_le in Hle. lia. }
  subst h. exists rest. split; [done|]. split; [|done].
  apply (Permutation_cons_inv (a := d)). rewrite Hperm.
  symmetry. apply Permutation_cons_append.
Qed.

(** X3. A POST answered 201 at a time later than every stored [createdAt]
    puts its sample at the head of the listing, whatever order the server
    gives to records with equal [createdAt]: in every answer of the server
    to the sorted [find] the new sample comes first and the rest is an
    answer for the records stored before, so the default page (limit 100,
    skip 0) is the new sample followed by the first 99 of that rest, with
    the total one more than before. *)
Theorem new_sample_heads_listing (w : World) (body : Doc) (t1 t2 : Z)
    (listing : list Doc) :
  allCreatedBefore t1 (samples w) ->
  Backend.status (snd (post_v1_samples true body t1 t2 w)) = 201 ->
  sortedAnswer "createdAt" (samples (fst (post_v1_samples true body t1 t2 w))) listing ->
  exists rest,
    listing = post_prepare body t1 t2 :: rest
    /\ sortedAnswer "createdAt" (samples w) rest
    /\ get_v1_samples_on listing None None
         (samples (fst (post_v1_samples true body t1 t2 w)))
       = {| status := 200;
            body := Page (post_prepare body t1 t2 :: take 99 rest)
                      (Z.of_nat (length (samples w)) + 1) 100 0 |}.
Proof.
  intros Hall Hc Hans. rewrite (post_created_samples _ _ _ _ _ Hc) in *.
  destruct (sortedAnswer_newest t1 _ _ _ (proj1 (post_prepare_stamps body t1 t2))
              Hall Hans) as (rest & -> & Hrest).
  exists rest. split; [done|]. split; [done|].
  unfold get_v1_samples_on, countDocuments. simpl.
  rewrite length_app. simpl. do 2 f_equal. lia.
Qed.

(** X5. The bridge's numeric settings, read as [parseInt(env) || default],
    are never 0: an unset, unparsable or zero [MQTT_QOS] gives 1 (QoS 0
    cannot be selected) and [WS_PORT] gives 8081; any other integer is
    taken as it is, so a decimal numeral up to [MAX_SAFE_INTEGER] sets the
    QoS to its value, or to 1 when that is 0. *)
Theorem numeric_settings_never_zero (env : option string) :
  BridgeConfig.MQTT_QOS env ≠ 0
  /\ BridgeConfig.WS_PORT env ≠ 0
  /\ (parseQuery env = None \/ parseQuery env = Some 0 ->
      BridgeConfig.MQTT_QOS env = 1 /\ BridgeConfig.WS_PORT env = 8081)
  /\ (forall n, parseQuery env = Some n -> n ≠ 0 ->
        BridgeConfig.MQTT_QOS env = n /\ BridgeConfig.WS_PORT env = n)
  /\ (forall ds, ds <> [] -> Forall isDigit ds ->
        numeralValue ds <= MAX_SAFE_INTEGER ->
        BridgeConfig.MQTT_QOS (Some (numeral ds))
        = if numeralValue ds =? 0 then 1 else numeralValue ds).
Proof.
  unfold BridgeConfig.MQTT_QOS, BridgeConfig.WS_PORT, orDefault.
  split; [|split; [|split; [|split]]].
  - destruct (parseQuery env) as [n|]; [|done]. destruct (Z.eqb_spec n 0); done.
  - destruct (parseQuery env) as [n|]; [|done]. destruct (Z.eqb_spec n 0); done.
  - intros [-> | ->]; done.
  - intros n -> Hn. destruct (Z.eqb_spec n 0); done.
  - intros ds Hne Hds _. unfold parseQuery. simpl.
    by rewrite (parseInt_numeral ds Hne Hds).
Qed.

Lemma forEachSend_no_clients payload data p :
  wsClients p = [] ->
  forEachSend payload data p
  = {| wsClients := wsClients p; outbox := outbox p; console := console p;
       calls := calls p ++ [data] |}.
Proof. intros Hnil. unfold forEachSend. rewrite Hnil. done. Qed.

(** X6. With WebSocket enabled the bridge's [broadcastToWS] makes the same
    sends to the same connections and the same log calls as the backend's
    (the early return on an empty set changes nothing; what the bridge's
    logger prints of a call depends on LOG_LEVEL); disabled, it sends and
    logs nothing. Unless the setting is exactly the string "true", no
    sample the bridge processes reaches any subscriber of the bridge. *)
Theorem bridge_broadcast_matches_backend (data : Doc) (p : Proc) :
  Bridge.broadcastToWS true data p = Backend.broadcastToWS data p
  /\ Bridge.broadcastToWS false data p
     = {| wsClients := wsClients p; outbox := outbox p; console := console p;
          calls := calls p ++ [data] |}
  /\ (forall env reachable payload t1 t2 w,
        env ≠ Some "true"%string ->
        outbox (bridge (processSample (BridgeConfig.WS_ENABLED env) reachable
                          payload t1 t2 w))
        = outbox (bridge w)).
Proof.
  split; [|split; [done|]].
  - unfold Bridge.broadcastToWS, Backend.broadcastToWS. simpl.
    destruct (wsClients p) as [|c cs] eqn:Hcs; simpl; [|done].
    rewrite forEachSend_no_clients by done. by rewrite Hcs.
  - intros env reachable payload t1 t2 w Henv.
    unfold BridgeConfig.WS_ENABLED. rewrite bool_decide_eq_false_2 by done.
    unfold processSample.
    destruct (Bridge.process_prepare payload t1 t2) as [d|]; [|done].
    destruct (insertOne reachable d (samples w)) as [coll r]. simpl.
    by destruct r.
Qed.

Lemma hasKey_app k l1 l2 : hasKey k (l1 ++ l2) = hasKey k l1 || hasKey k l2.
Proof. unfold hasKey. apply existsb_app. Qed.

Lemma hasKey_insertOne_other k reachable d coll :
  indexKey d ≠ k ->
  hasKey k (fst (insertOne reachable d coll)) = hasKey k coll.
Proof.
  intros Hne. rewrite insertOne_shape.
  destruct (snd (insertOne reachable d coll)); try done.
  rewrite hasKey_app. simpl. rewrite bool_decide_eq_false_2 by done.
  by rewrite !orb_false_r.
Qed.

Lemma hasId_insertOne_other id reachable d coll :
  (suppliedId d = id -> id = None) ->
  hasId id (fst (insertOne reachable d coll)) = hasId id coll.
Proof.
  intros Hne. rewrite insertOne_shape.
  destruct (snd (insertOne reachable d coll)); try done.
  rewrite hasId_app. destruct id as [v|]; [|done]. simpl.
  rewrite bool_decide_eq_false_2; [by rewrite !orb_false_r|].
  intros Hx. by specialize (Hne Hx).
Qed.

Lemma insertOne_answer_other reachable r1 d1 d2 coll :
  indexKey d1 ≠ indexKey d2 ->
  (suppliedId d1 = suppliedId d2 -> suppliedId d2 = None) ->
  snd (insertOne reachable d2 (fst (insertOne r1 d1 coll)))
  = snd (insertOne reachable d2 coll).
Proof.
  intros Hne Hid. rewrite !insertOne_answer.
  by rewrite hasKey_insertOne_other, hasId_insertOne_other.
Qed.

(** X7. Submissions of different batches that do not bring the same [_id]
    do not interfere: the answer the second gets (created, duplicate or
    server error) is the one it would get without the first, on the direct
    path and at the bridge's insert, and the store ends with the same
    records in whichever order the two are handled. *)
Theorem distinct_batches_do_not_interfere (w : World) (body1 body2 : Doc)
    (r1 reachable : bool) (t1 t2 t3 t4 : Z) :
  indexKey body1 ≠ indexKey body2 ->
  (suppliedId body1 = suppliedId body2 -> suppliedId body1 = None) ->
  snd (post_v1_samples reachable body2 t3 t4 (fst (post_v1_samples r1 body1 t1 t2 w)))
    = snd (post_v1_samples reachable body2 t3 t4 w)
  /\ (forall E d2,
        Bridge.process_prepare (Bridge.JsonObject body2) t3 t4 = Some d2 ->
        snd (insertOne reachable d2
               (samples (processSample E r1 (Bridge.JsonObject body1) t1 t2 w)))
        = snd (insertOne reachable d2 (samples w)))
  /\ samples (fst (post_v1_samples reachable body2 t3 t4
                     (fst (post_v1_samples r1 body1 t1 t2 w))))
     ≡ₚ samples (fst (post_v1_samples r1 body1 t1 t2
                        (fst (post_v1_samples reachable body2 t3 t4 w)))).
Proof.
  intros Hne Hid.
  assert (Hid12 : suppliedId body1 = suppliedId body2 -> suppliedId body2 = None)
    by (intros Heq; rewrite <- Heq; by apply Hid).
  assert (Hid21 : suppliedId body2 = suppliedId body1 -> suppliedId body1 = None)
    by (intros Heq; by apply Hid).
  assert (Hne' : indexKey (post_prepare body1 t1 t2) ≠ indexKey (post_prepare body2 t3 t4))
    by (by rewrite !indexKey_post_prepare).
  assert (Hne'' : indexKey (post_prepare body2 t3 t4) ≠ indexKey (post_prepare body1 t1 t2))
    by (by rewrite !indexKey_post_prepare).
  assert (Hid' : suppliedId (post_prepare body1 t1 t2) = suppliedId (post_prepare body2 t3 t4)
                 -> suppliedId (post_prepare body2 t3 t4) = None)
    by (by rewrite !suppliedId_post_prepare).
  assert (Hid'' : suppliedId (post_prepare body2 t3 t4) = suppliedId (post_prepare body1 t1 t2)
                  -> suppliedId (post_prepare body1 t1 t2) = None)
    by (by rewrite !suppliedId_post_prepare).
  split; [|split].
  - rewrite !post_v1_samples_eq. simpl.
    rewrite (insertOne_answer_other _ _ _ _ _ Hne' Hid').
    by destruct (snd (insertOne reachable _ _)).
  - intros E d2 Hd2.
    destruct (process_prepare_object body1 t1 t2) as (d1 & Hd1 & _).
    destruct (indexKey_process_prepare _ _ _ _ Hd1) as [Hk1 _].
    destruct (indexKey_process_prepare _ _ _ _ Hd2) as [Hk2 _].
    rewrite (processSample_eq _ _ _ _ _ _ _ Hd1). simpl.
    apply insertOne_answer_other; [by rewrite Hk1, Hk2|].
    by rewrite (suppliedId_process_prepare _ _ _ _ Hd1),
               (suppliedId_process_prepare _ _ _ _ Hd2).
  - rewrite !post_v1_samples_eq. simpl.
    rewrite (insertOne_shape reachable (post_prepare body2 t3 t4)
               (fst (insertOne r1 _ _))).
    rewrite (insertOne_shape r1 (post_prepare body1 t1 t2)
               (fst (insertOne reachable _ _))).
    rewrite (insertOne_answer_other _ _ _ _ _ Hne' Hid').
    rewrite (insertOne_answer_other _ _ _ _ _ Hne'' Hid'').
    rewrite !insertOne_shape.
    destruct (snd (insertOne reachable _ _)), (snd (insertOne r1 _ _)); try done.
    rewrite <- !app_assoc. apply Permutation_app_head. simpl. apply Permutation_swap.
Qed.

End RouteProperties.

Section DeliveryProperties.
Import Js Mongo Ws Pipeline Delivery.

Lemma one_client_per_handle h cs :
  distinctHandles cs ->
  (countIf (fun c => bool_decide (handle c = h)) cs <= 1)%nat.
Proof.
  unfold distinctHandles. induction cs as [|c cs IH]; [unfold countIf; simpl; lia|].
  rewrite fmap_cons, NoDup_cons. intros [Hnotin Hnd]. rewrite countIf_cons.
  specialize (IH Hnd). case_bool_decide as Hh; simpl; [|lia].
  assert (Hz : countIf (fun c => bool_decide (handle c = h)) cs = 0%nat).
  { clear IH Hnd. induction cs as [|e cs IH]; [done|]. rewrite countIf_cons.
    rewrite fmap_cons in Hnotin. apply not_elem_of_cons in Hnotin as [Hne Hnotin].
    rewrite bool_decide_eq_false_2 by congruence. simpl. by apply IH. }
  lia.
Qed.

Lemma frames_count h k data cs :
  (countIf (fun f => bool_decide (fst f = h) && bool_decide (indexKey (frameDoc f) = k))
     ((fun c => (handle c, JSON_stringify (NewSample data))) <$> List.filter deliverable cs)
   <= if bool_decide (indexKey data = k)
      then countIf (fun c => bool_decide (handle c = h)) cs else 0)%nat.
Proof.
  induction cs as [|c cs IH]; [destruct (bool_decide _); unfold countIf; simpl; lia|].
  cbn [List.filter]. rewrite (countIf_cons _ c cs).
  destruct (deliverable c).
  - rewrite fmap_cons, countIf_cons. cbn [fst snd frameDoc JSON_stringify].
    destruct (bool_decide (handle c = h)), (bool_decide (indexKey data = k));
      simpl in *; lia.
  - destruct (bool_decide (handle c = h)), (bool_decide (indexKey data = k));
      simpl in *; lia.
Qed.

Lemma frames_of_one_broadcast h k data cs :
  distinctHandles cs ->
  (countIf (fun f => bool_decide (fst f = h) && bool_decide (indexKey (frameDoc f) = k))
     ((fun c => (handle c, JSON_stringify (NewSample data))) <$> List.filter deliverable cs)
   <= countKey k [data])%nat.
Proof.
  intros Hnd. rewrite countKey_singleton.
  pose proof (one_client_per_handle h cs Hnd) as Hone.
  pose proof (frames_count h k data cs) as Hle.
  case_bool_decide; lia.
Qed.

Lemma procDelivery_mono coll coll' p :
  coll `prefix_of` coll' -> procDelivery coll p -> procDelivery coll' p.
Proof.
  intros [ext ->] (Hnd & Hcount & Hstored). split; [done|]. split; [done|].
  intros f Hf. apply elem_of_app. left. by apply Hstored.
Qed.

Lemma procDelivery_writeLog coll l p :
  procDelivery coll p -> procDelivery coll (writeLog l p).
Proof. done. Qed.

Lemma procDelivery_forEachSend coll data p :
  data ∈ coll -> procDelivery coll p ->
  procDelivery coll (forEachSend (JSON_stringify (NewSample data)) data p).
Proof.
  intros Hin (Hnd & Hcount & Hstored). split; [done|]. split.
  - intros h k. unfold framesFor. rewrite forEachSend_outbox, countIf_app.
    simpl. rewrite countKey_app.
    pose proof (frames_of_one_broadcast h k data (wsClients p) Hnd).
    specialize (Hcount h k). unfold framesFor in Hcount. lia.
  - intros f. rewrite forEachSend_outbox, elem_of_app. intros [Hf | Hf].
    + by apply Hstored.
    + apply list_elem_of_fmap in Hf as (c & -> & _). done.
Qed.

Lemma procDelivery_call_only coll data p :
  procDelivery coll p ->
  procDelivery coll {| wsClients := wsClients p; outbox := outbox p;
                       console := console p; calls := calls p ++ [data] |}.
Proof.
  intros (Hnd & Hcount & Hstored). split; [done|]. split; [|done].
  intros h k. specialize (Hcount h k). unfold framesFor in *. simpl.
  rewrite countKey_app. lia.
Qed.

Lemma procDelivery_post_resume coll data r p :
  (r = Acknowledged -> data ∈ coll) -> procDelivery coll p ->
  procDelivery coll (fst (Backend.post_resume data r p)).
Proof.
  intros Hin Hp. destruct r; simpl; try by apply procDelivery_writeLog.
  apply procDelivery_forEachSend; [by apply Hin|]. by apply procDelivery_writeLog.
Qed.

Lemma procDelivery_process_resume E coll data r p :
  (r = Acknowledged -> data ∈ coll) -> procDelivery coll p ->
  procDelivery coll (Bridge.process_resume E data r p).
Proof.
  intros Hin Hp. destruct r; simpl; try by apply procDelivery_writeLog.
  unfold Bridge.broadcastToWS. destruct (negb E || _).
  - apply (procDelivery_call_only coll data (writeLog _ p)). by apply procDelivery_writeLog.
  - apply procDelivery_forEachSend; [by apply Hin|]. by apply procDelivery_writeLog.
Qed.

Lemma owedStored_lookup coll ts i p d :
  owedStored coll ts -> ts !! i = Some (Answered p d Acknowledged) -> d ∈ coll.
Proof. intros Hall Hl. by apply (Forall_lookup_1 _ _ _ _ Hall Hl p d). Qed.

Lemma Steps_DeliveryInv E l s s' :
  Steps E l s s' -> DeliveryInv s -> DeliveryInv s'.
Proof.
  intros Hstep (Hb & Hm & Howed).
  pose proof (Steps_samples_prefix _ _ _ _ Hstep) as Hpre.
  assert (Howed' : owedStored (samples (world s')) (tasks s)).
  { eapply Forall_impl; [exact Howed|]. intros st Hst p d Heq.
    destruct Hpre as [ext ->]. apply elem_of_app. left. by eapply Hst. }
  destruct Hstep as [i t1 t2 s body Hl | i t1 t2 s payload data Hl Hp
    | i t1 t2 s payload Hl Hp | i reachable s p data Hl | i s data r Hl | i s data r Hl];
    simpl in *.
  - split; [done|]. split; [done|]. apply Forall_insert; [done|]. by intros ? ? [=].
  - split; [done|]. split; [done|]. apply Forall_insert; [done|]. by intros ? ? [=].
  - split; [done|]. split; [by apply procDelivery_writeLog|].
    apply Forall_insert; [done|]. by intros ? ? [=].
  - split; [by eapply procDelivery_mono|]. split; [by eapply procDelivery_mono|].
    apply Forall_insert; [done|]. intros p' d' [= -> -> Hr].
    rewrite insertOne_shape, Hr. apply elem_of_app. right. by apply list_elem_of_singleton.
  - split.
    + apply procDelivery_post_resume; [|done]. intros ->. by eapply owedStored_lookup.
    + split; [done|]. apply Forall_insert; [done|]. by intros ? ? [=].
  - split; [done|]. split.
    + apply procDelivery_process_resume; [|done]. intros ->. by eapply owedStored_lookup.
    + apply Forall_insert; [done|]. by intros ? ? [=].
Qed.

Lemma run_DeliveryInv E ls s s' :
  run E ls s = Some s' -> DeliveryInv s -> DeliveryInv s'.
Proof.
  revert s. induction ls as [|l ls IH]; intros s Hrun Hinv.
  - by injection Hrun as <-.
  - apply run_cons in Hrun as (s1 & Hstep & Hrun).
    apply (IH s1 Hrun). eapply Steps_DeliveryInv; [by apply step_sound|done].
Qed.

Lemma freshWorld_ok cs1 cs2 : WorldOk (freshWorld cs1 cs2).
Proof.
  split; [constructor|]. intros k. unfold broadcastsFor. simpl.
  rewrite !countKey_nil. lia.
Qed.

(** X8. Starting from an empty store, with the two sets of connections
    fixed and no connection in a set twice, whatever is submitted over
    either path and however the handlers are interleaved: a connection
    never receives two frames for the same batch from one process, and
    every frame carries a document that is in the store. *)
Theorem at_most_once_delivery (E : bool) (cs1 cs2 : list WsClient)
    (srcs : list Source) (ls : list Label) (s' : Sys) :
  distinctHandles cs1 -> distinctHandles cs2 ->
  run E ls (arrive srcs (freshWorld cs1 cs2)) = Some s' ->
  (forall h k, (framesFor h k (backend (world s')) <= 1)%nat
               /\ (framesFor h k (bridge (world s')) <= 1)%nat)
  /\ (forall f, f ∈ outbox (backend (world s')) \/ f ∈ outbox (bridge (world s')) ->
                frameDoc f ∈ samples (world s')).
Proof.
  intros Hd1 Hd2 Hrun.
  assert (Hinit : DeliveryInv (arrive srcs (freshWorld cs1 cs2))).
  { split; [|split].
    - split; [done|]. split; [intros h k; unfold framesFor, countIf; simpl; apply Nat.le_0_l|]. intros f Hf. by apply elem_of_nil in Hf.
    - split; [done|]. split; [intros h k; unfold framesFor, countIf; simpl; apply Nat.le_0_l|]. intros f Hf. by apply elem_of_nil in Hf.
    - unfold owedStored. simpl. apply Forall_fmap, Forall_forall. by intros src _ ? ? [=]. }
  pose proof (run_DeliveryInv _ _ _ _ Hrun Hinit)
    as ((_ & Hcb & Hsb) & (_ & Hcm & Hsm) & _).
  pose proof (run_Consistent _ _ _ _ Hrun (arrive_Consistent srcs _ (freshWorld_ok cs1 cs2)))
    as [Huniq Hcount].
  split.
  - intros h k. specialize (Hcount k). unfold broadcastsFor in Hcount.
    pose proof (uniqueIndex_count k _ Huniq).
    specialize (Hcb h k). specialize (Hcm h k). lia.
  - intros f [Hf | Hf]; [by apply Hsb | by apply Hsm].
Qed.

End DeliveryProperties.

Section FirmwareProperties.
Import Sender Firmware.

Lemma usub_add_mod t e :
  0 <= e < ULONG_MOD -> usub ((t + e) mod ULONG_MOD) t = e.
Proof.
  intros He. unfold usub. rewrite Zminus_mod_idemp_l.
  replace (t + e - t) with e by lia. apply Z.mod_small. exact He.
Qed.

(** X9. A successful send acknowledged at time [t] makes the link count as
    alive for exactly the next 5000 ms, across the 32-bit roll-over of
    [millis()]; an unsuccessful send changes nothing; an acknowledgement
    stamped 0 is taken for "never acknowledged". *)
Theorem ack_opens_link_window (st : State) (t : Z) :
  peerAdded st = true ->
  0 < t < ULONG_MOD ->
  (forall e, 0 <= e < ULONG_MOD ->
     linkOK (onSent true t st) ((t + e) mod ULONG_MOD) = (e <? 5000))
  /\ (forall now, linkOK (onSent false t st) now = linkOK st now)
  /\ (forall now, linkOK (onSent true 0 st) now = false).
Proof.
  intros Hpeer Ht. split; [|split].
  - intros e He. unfold linkOK, onSent. simpl. rewrite Hpeer, usub_add_mod by done.
    destruct (Z.eqb_spec t 0); [lia|]. reflexivity.
  - reflexivity.
  - intros now. unfold linkOK, onSent. simpl. by rewrite andb_false_r.
Qed.

Lemma packed_small a b c :
  0 <= a < 65536 -> 0 <= b < 100 -> 0 <= c < 100 ->
  (a * 10000 + b * 100 + c) mod ULONG_MOD = a * 10000 + b * 100 + c.
Proof. intros. apply Z.mod_small. unfold ULONG_MOD. lia. Qed.

Lemma digits_of_packed a b c :
  0 <= a -> 0 <= b < 100 -> 0 <= c < 100 ->
  upperDigits (a * 10000 + b * 100 + c) = a
  /\ middleDigits (a * 10000 + b * 100 + c) = b
  /\ lowerDigits (a * 10000 + b * 100 + c) = c.
Proof.
  intros Ha Hb Hc. unfold upperDigits, middleDigits, lowerDigits.
  assert (H1 : (a * 10000 + b * 100 + c) / 10000 = a).
  { symmetry. apply (Z.div_unique _ _ _ (b * 100 + c)); lia. }
  assert (H2 : (a * 10000 + b * 100 + c) / 100 = a * 100 + b).
  { symmetry. apply (Z.div_unique _ _ _ c); lia. }
  assert (H3 : (a * 10000 + b * 100 + c) mod 100 = c).
  { symmetry. apply (Z.mod_unique _ _ (a * 100 + b)); lia. }
  rewrite H1, H2, H3. repeat split.
  symmetry. apply (Z.mod_unique _ _ a); lia.
Qed.

(** X10. The packed date and time of a packet read back digit group by
    digit group: YYYYMMDD gives year, month, day and HHMMSS gives hour,
    minute, second; the millisecond field is ten times the centiseconds and
    below 1000. A valid time packs to 0, the value sent for "no time",
    exactly at midnight. *)
Theorem packed_date_time_round_trip (d : GpsDate) (t : GpsTime) :
  date_isValid d = true -> time_isValid t = true ->
  0 <= year d < 65536 -> 0 <= month d < 100 -> 0 <= day d < 100 ->
  0 <= hour t < 256 -> 0 <= minute t < 100 -> 0 <= second t < 100 ->
  0 <= centisecond t < 100 ->
  (upperDigits (packDateYMD d) = year d
   /\ middleDigits (packDateYMD d) = month d
   /\ lowerDigits (packDateYMD d) = day d)
  /\ (upperDigits (packTimeHMS t) = hour t
      /\ middleDigits (packTimeHMS t) = minute t
      /\ lowerDigits (packTimeHMS t) = second t)
  /\ (packMS t = centisecond t * 10 /\ packMS t < 1000)
  /\ (packDateYMD d = 0 <-> year d = 0 /\ month d = 0 /\ day d = 0)
  /\ (packTimeHMS t = 0 <-> hour t = 0 /\ minute t = 0 /\ second t = 0).
Proof.
  intros Hdv Htv Hy Hm Hd Hh Hmi Hs Hc.
  unfold packDateYMD, packTimeHMS, packMS. rewrite Hdv, Htv. simpl negb. cbv iota.
  rewrite !packed_small by lia.
  split; [apply digits_of_packed; lia|].
  split; [apply digits_of_packed; lia|].
  split; [rewrite Z.mod_small by lia; lia|].
  split; lia.
Qed.

Section SensorProperties.
Variable float double : Type.
Variable fzero : float.
Variable fdiv : float -> Z -> float.
Variable narrow : double -> float.

(** X11. A packet is built only when the gate allows: its [sessionMs] is
    the hold duration, at least 10000; [samples] is the number of
    accumulated readings; [gpsFix] is 0 or 1, and 1 when nothing moved
    between the gate's fix check and the packet's; with no accumulated
    reading every motion field is zero instead of a division by zero. *)
Theorem released_packet_respects_gate (st : State) (g gBuild : Gps) (clk : Millis)
    (bp bf : Z) (a : Avg float double) (d : GpsDate) (t : GpsTime) (id : Z)
    (pkt : SensorPacket float) :
  onRelease fzero fdiv narrow st g gBuild clk bp bf a d t id = Some pkt ->
  hardGate st g clk = Allow
  /\ batchId pkt = id
  /\ sessionMs pkt = holdDuration st clk
  /\ 10000 <= sessionMs pkt < ULONG_MOD
  /\ samples pkt = avg_n a
  /\ (gpsFix pkt = 1 \/ gpsFix pkt = 0)
  /\ (gBuild = g -> bp = at_gpsPresent clk -> bf = at_gpsFresh clk -> gpsFix pkt = 1)
  /\ (avg_n a = 0 ->
      ax pkt = fzero /\ ay pkt = fzero /\ az pkt = fzero /\ gx pkt = fzero
      /\ gy pkt = fzero /\ gz pkt = fzero /\ tempC pkt = fzero).
Proof.
  unfold onRelease. destruct (hardGate st g clk) as [|r] eqn:Hgate; [|discriminate].
  intros [= <-]. apply hardGate_allow_iff in Hgate as (Hhold & _ & _ & Hpos & Hfix).
  unfold policyHold, holdDuration in *.
  pose proof (usub_range (at_release clk) (pressStart st)) as Hrange.
  split; [done|]. split; [done|]. split; [done|]. split; [simpl; lia|].
  split; [done|]. split.
  { simpl. destruct (gpsFixOK _ _ _ _); tauto. }
  split.
  { intros -> -> ->. simpl.
    destruct Hpos as [Hp Hf]. destruct Hfix as (Hv & Hage & Hsat).
    unfold gpsFixOK, gpsPresent, gpsFresh, gpsCharAge, gpsUpdateAge in *.
    rewrite Hv.
    rewrite (proj2 (Z.ltb_lt _ _) Hp), (proj2 (Z.ltb_lt _ _) Hf),
      (proj2 (Z.ltb_lt _ _) Hage). simpl.
    assert (Hs : (1 <=? satellites_value g) = true) by (apply Z.leb_le; lia).
    by rewrite Hs. }
  intros Hn. simpl. rewrite Hn. simpl. done.
Qed.

Variable fadd : float -> float -> float.

Lemma applyRead_warmup (m : Mpu float double) e :
  0 <= mpuWarmup m ->
  0 <= mpuWarmup (applyRead fadd m e) <= mpuWarmup m
  /\ mpuWarmup m - 1 <= mpuWarmup (applyRead fadd m e)
  /\ (0 < mpuWarmup m -> avg (applyRead fadd m e) = avg m).
Proof.
  intros Hw. destruct e as [ev now nowStamp nowRead | ev now]; simpl.
  - unfold idleMPUUpdate. destruct (mpuReady (base m)); simpl;
      [|repeat split; (lia || done)].
    destruct (usub now (idleLast m) <? 25); [repeat split; (lia || done)|].
    destruct ev as [r|]; simpl; [|repeat split; (lia || done)].
    destruct (Z.ltb_spec 0 (mpuWarmup m)); simpl; repeat split; (lia || done).
  - unfold measureBlock. destruct (mpuReady (base m)); simpl;
      [|repeat split; (lia || done)].
    destruct ev as [r|]; simpl; [|repeat split; (lia || done)].
    destruct (Z.ltb_spec 0 (mpuWarmup m)); simpl; repeat split; (lia || done).
Qed.

Lemma runReads_warmup es (m : Mpu float double) :
  0 <= mpuWarmup m ->
  0 <= mpuWarmup (runReads fadd es m) <= mpuWarmup m
  /\ (Z.of_nat (length es) <= mpuWarmup m -> avg (runReads fadd es m) = avg m).
Proof.
  revert m. induction es as [|e es IH]; intros m Hw; simpl.
  - split; [lia | done].
  - destruct (applyRead_warmup m e Hw) as (Hr & Hlow & Havg).
    destruct (IH (applyRead fadd m e) (proj1 Hr)) as [Hr' Havg'].
    split; [lia|]. intros Hlen.
    rewrite Havg' by lia. apply Havg. lia.
Qed.

Lemma runReads_counted es (m : Mpu float double) :
  mpuReady (base m) = true -> mpuWarmup m = 0 ->
  Forall goodMeasure es ->
  avg_n (avg m) + Z.of_nat (length es) < ULONG_MOD -> 0 <= avg_n (avg m) ->
  avg_n (avg (runReads fadd es m)) = avg_n (avg m) + Z.of_nat (length es)
  /\ mpuWarmup (runReads fadd es m) = 0
  /\ mpuReady (base (runReads fadd es m)) = true.
Proof.
  revert m. induction es as [|e es IH]; intros m Hready Hw Hgood Hroom Hn; simpl.
  - split; [lia | done].
  - apply Forall_cons in Hgood as [He Hgood].
    destruct e as [ev now nowStamp nowRead | [r|] now]; try done.
    simpl. unfold measureBlock. rewrite Hready. simpl.
    rewrite Hw. simpl.
    match goal with |- context [runReads fadd es ?m0] => set (m1 := m0) end.
    rewrite length_cons in Hroom.
    assert (Hn1 : avg_n (avg m1) = avg_n (avg m) + 1)
      by (simpl; apply Z.mod_small; lia).
    destruct (IH m1) as (IHn & IHw & IHr); try done; try (rewrite Hn1; lia).
    split; [|done]. rewrite IHn, Hn1. lia.
Qed.

(** X12. The warm-up countdown never rises and never goes below zero over
    idle and measuring reads, and the first reads of a countdown from [w]
    leave the running sums untouched: nothing is averaged within [w] loop
    reads. With the countdown at zero every good measuring read adds one
    to the sample count. *)
Theorem warmup_reads_are_not_averaged (m : Mpu float double) :
  0 <= mpuWarmup m ->
  (forall es, 0 <= mpuWarmup (runReads fadd es m) <= mpuWarmup m)
  /\ (forall es, Z.of_nat (length es) <= mpuWarmup m ->
                 avg (runReads fadd es m) = avg m)
  /\ (forall es, mpuReady (base m) = true -> mpuWarmup m = 0 ->
        Forall goodMeasure es ->
        0 <= avg_n (avg m) -> avg_n (avg m) + Z.of_nat (length es) < ULONG_MOD ->
        avg_n (avg (runReads fadd es m)) = avg_n (avg m) + Z.of_nat (length es)).
Proof.
  intros Hw. split; [|split].
  - intros es. by apply runReads_warmup.
  - intros es. by apply runReads_warmup.
  - intros es Hready Hz Hgood Hn Hroom.
    by apply (runReads_counted es m Hready Hz Hgood Hroom Hn).
Qed.

Lemma runReads_not_ready es (m : Mpu float double) :
  mpuReady (base m) = false -> runReads fadd es m = m.
Proof.
  intros Hnr. induction es as [|e es IH]; [done|]. simpl.
  assert (Hsame : applyRead fadd m e = m).
  { destruct e; simpl; unfold idleMPUUpdate, measureBlock; by rewrite Hnr. }
  by rewrite Hsame.
Qed.

(** X13. When a probe finds a sensor that was not ready and [mpu.begin]
    succeeds, the sensor is ready at once with a warm-up of 10 and counts
    as healthy for the next 1200 ms although nothing has been read; the
    next 10 loop reads do not change the sums. If the probe or [begin]
    fails it stays not ready. *)
Theorem reattached_sensor_is_healthy_before_any_read (m : Mpu float double)
    (duringMeasure : bool) (now nowStamp nowInit : Z) :
  mpuReady (base m) = false ->
  1000 <= usub now (lastProbeMs m) ->
  (mpuReady (base (serviceMPU duringMeasure now nowStamp nowInit true true m)) = true
   /\ mpuLastOK (base (serviceMPU duringMeasure now nowStamp nowInit true true m)) = nowInit
   /\ mpuWarmup (serviceMPU duringMeasure now nowStamp nowInit true true m) = 10
   /\ mpuFailStreak (serviceMPU duringMeasure now nowStamp nowInit true true m) = 0
   /\ avg (serviceMPU duringMeasure now nowStamp nowInit true true m) = avg m)
  /\ (forall t,
        mpuHealthy (base (serviceMPU duringMeasure now nowStamp nowInit true true m)) t
        = (usub t nowInit <? 1200))
  /\ (forall es, (length es <= 10)%nat ->
        avg (runReads fadd es (serviceMPU duringMeasure now nowStamp nowInit true true m))
        = avg m)
  /\ (forall present beginOk, present && beginOk = false ->
        mpuReady (base (serviceMPU duringMeasure now nowStamp nowInit present beginOk m))
        = false).
Proof.
  intros Hnr Hdue.
  assert (Hltb : (usub now (lastProbeMs m) <? 1000) = false) by (apply Z.ltb_ge; lia).
  assert (Hsvc : serviceMPU duringMeasure now nowStamp nowInit true true m
                 = {| base := setMpu true nowInit (base m); mpuFailStreak := 0;
                      mpuWarmup := 10; lastProbeMs := nowStamp;
                      idleLast := idleLast m; avg := avg m |}).
  { unfold serviceMPU. rewrite Hnr, andb_false_r. simpl.
    rewrite Hltb. simpl. rewrite Hnr. done. }
  rewrite Hsvc. split; [done|]. split; [done|]. split.
  - intros es Hlen.
    pose proof (runReads_warmup es
      {| base := setMpu true nowInit (base m); mpuFailStreak := 0;
         mpuWarmup := 10; lastProbeMs := nowStamp;
         idleLast := idleLast m; avg := avg m |}) as Hrun.
    simpl in Hrun. destruct Hrun as [_ Hrun]; [lia|]. apply Hrun. lia.
  - intros present beginOk Hno. unfold serviceMPU. rewrite Hnr, andb_false_r. simpl.
    rewrite Hltb. destruct present; simpl; [|done].
    rewrite Hnr. simpl. destruct beginOk; [done|]. simpl. done.
Qed.

Lemma runReads_failed es (m : Mpu float double) :
  mpuReady (base m) = true -> Forall failedMeasure es ->
  mpuFailStreak (runReads fadd es m) = mpuFailStreak m + Z.of_nat (length es)
  /\ base (runReads fadd es m) = base m
  /\ avg (runReads fadd es m) = avg m.
Proof.
  revert m. induction es as [|e es IH]; intros m Hready Hfail; simpl.
  - split; [lia | done].
  - apply Forall_cons in Hfail as [He Hfail].
    destruct e as [ev now nowStamp nowRead | [r|] now]; try done.
    simpl. unfold measureBlock. rewrite Hready. simpl.
    match goal with |- context [runReads fadd es ?m1] =>
      destruct (IH m1) as (IHs & IHb & IHa) end; try done.
    rewrite IHs, IHb, IHa. simpl. split; [lia | done].
Qed.

(** X14. Each failed measuring read lengthens the failure streak by one
    (as long as the [int] does not overflow) and leaves sums and timestamps
    alone. With a streak of four or more,
    [serviceMPU] during a measurement marks the sensor not ready (unless
    the same call re-initialises it); from then on the gate never allows
    and no read is attempted. Outside a measurement the streak alone
    changes nothing. *)
Theorem failing_sensor_is_taken_out (m : Mpu float double) (now nowStamp nowInit : Z)
    (present beginOk : bool) :
  mpuReady (base m) = true ->
  (forall es, Forall failedMeasure es ->
     mpuFailStreak m + Z.of_nat (length es) <= INT_MAX ->
     mpuFailStreak (runReads fadd es m) = mpuFailStreak m + Z.of_nat (length es)
     /\ base (runReads fadd es m) = base m /\ avg (runReads fadd es m) = avg m)
  /\ (4 <= mpuFailStreak m ->
      usub now (lastProbeMs m) < 1000 \/ present && beginOk = false ->
      mpuReady (base (serviceMPU true now nowStamp nowInit present beginOk m)) = false
      /\ (forall g clk,
            hardGate (base (serviceMPU true now nowStamp nowInit present beginOk m)) g clk
            <> Allow)
      /\ (forall es,
            runReads fadd es (serviceMPU true now nowStamp nowInit present beginOk m)
            = serviceMPU true now nowStamp nowInit present beginOk m))
  /\ (usub now (lastProbeMs m) < 1000 ->
      serviceMPU false now nowStamp nowInit present beginOk m = m).
Proof.
  intros Hready. split; [|split].
  - intros es Hfail _. by apply runReads_failed.
  - intros Hstreak Hcase.
    assert (Hnr : mpuReady (base (serviceMPU true now nowStamp nowInit present beginOk m))
                  = false).
    { unfold serviceMPU. rewrite Hready. simpl.
      rewrite (proj2 (Z.leb_le _ _) Hstreak). simpl.
      destruct (usub now (lastProbeMs m) <? 1000) eqn:Hdue; [done|].
      destruct Hcase as [Hlt | Hno]; [apply Z.ltb_ge in Hdue; lia|].
      destruct present; simpl; [|done]. destruct beginOk; [done|]. done. }
    split; [exact Hnr|]. split.
    + intros g clk Hallow. apply hardGate_allow_iff in Hallow as (_ & _ & [Hs _] & _).
      unfold sensorGuard in Hs. congruence.
    + intros es. by apply runReads_not_ready.
  - intros Hlt. unfold serviceMPU. simpl.
    by rewrite (proj2 (Z.ltb_lt _ _) Hlt).
Qed.

End SensorProperties.
End FirmwareProperties.

Section ReceiverProperties.
Import Backend Receiver.

Lemma digitValue_hexChar d : isHexDigit d -> digitValue (hexChar d) = Some d.
Proof.
  unfold isHexDigit. intros Hd.
  assert (Hcases : d = 0 \/ d = 1 \/ d = 2 \/ d = 3 \/ d = 4 \/ d = 5 \/ d = 6 \/ d = 7
                   \/ d = 8 \/ d = 9 \/ d = 10 \/ d = 11 \/ d = 12 \/ d = 13
                   \/ d = 14 \/ d = 15) by lia.
  repeat (destruct Hcases as [-> | Hcases]; [reflexivity|]). by subst.
Qed.

Lemma digits_hexString ds acc :
  Forall isHexDigit ds ->
  digits 16 (Some acc) (hexString ds) = Some (fold_left (fun a d => a * 16 + d) ds acc).
Proof.
  intros Hds. revert acc.
  induction Hds as [|d ds Hd Hds IH]; intros acc; [reflexivity|].
  simpl. rewrite digitValue_hexChar by done.
  assert (Hlt : (d <? 16) = true) by (apply Z.ltb_lt; unfold isHexDigit in Hd; lia).
  rewrite Hlt. apply IH.
Qed.

Lemma hexDigits_are_digits w n : Forall isHexDigit (hexDigits w n).
Proof.
  revert n. induction w as [|w IH]; intros n; simpl; [constructor|].
  apply Forall_app. split; [apply IH|]. constructor; [|constructor].
  unfold isHexDigit. apply Z.mod_pos_bound. lia.
Qed.

Lemma fold_hexDigits w n acc :
  0 <= n ->
  fold_left (fun a d => a * 16 + d) (hexDigits w n) acc
  = acc * 16 ^ Z.of_nat w + n mod 16 ^ Z.of_nat w.
Proof.
  revert n acc. induction w as [|w IH]; intros n acc Hn.
  - simpl. rewrite Z.mod_1_r. lia.
  - cbn [hexDigits]. rewrite fold_left_app. simpl.
    rewrite IH by (apply Z.div_pos; lia).
    rewrite Nat2Z.inj_succ, Z.pow_succ_r by lia.
    rewrite (Z.rem_mul_r n 16 (16 ^ Z.of_nat w)) by lia.
    lia.
Qed.

Lemma length_hexString ds : String.length (hexString ds) = length ds.
Proof. induction ds as [|d ds IH]; simpl; [done | by rewrite IH]. Qed.

Lemma length_hexDigits w n : length (hexDigits w n) = w.
Proof.
  revert n. induction w as [|w IH]; intros n; simpl; [done|].
  rewrite length_app, IH. simpl. lia.
Qed.

(** X15. The [batchId] text of the receiver's JSON line, "0x" and eight
    hexadecimal digits, is ten characters long, is read back by [parseInt]
    as the same number, and so differs for different batch ids. *)
Theorem batchId_text_round_trip (id : Z) :
  0 <= id < 2 ^ 32 ->
  parseInt (batchIdText id) = Some id
  /\ String.length (batchIdText id) = 10%nat
  /\ (forall id', 0 <= id' < 2 ^ 32 -> batchIdText id' = batchIdText id -> id' = id).
Proof.
  assert (Hparse : forall n, 0 <= n < 2 ^ 32 -> parseInt (batchIdText n) = Some n).
  { intros n Hn. unfold batchIdText, parseInt.
    change (skipSpaces (String "0" (String "x" (hexString (hexDigits 8 n)))))
      with (String "0" (String "x" (hexString (hexDigits 8 n)))).
    cbv iota. 
    change (unsignedPart (String "0" (String "x" (hexString (hexDigits 8 n)))))
      with (digits 16 None (hexString (hexDigits 8 n))).
    pose proof (hexDigits_are_digits 8 n) as Hds.
    pose proof (fold_hexDigits 8 n 0 (proj1 Hn)) as Hfold.
    destruct (hexDigits 8 n) as [|d ds] eqn:Hhex.
    { pose proof (length_hexDigits 8 n) as Hl. rewrite Hhex in Hl. discriminate. }
    apply Forall_cons in Hds as [Hd Hds]. cbn [hexString digits].
    rewrite digitValue_hexChar by done.
    assert (Hlt : (d <? 16) = true) by (apply Z.ltb_lt; unfold isHexDigit in Hd; lia).
    rewrite Hlt. simpl default. rewrite digits_hexString by done.
    simpl fold_left in Hfold. rewrite Hfold. f_equal.
    change (16 ^ Z.of_nat 8) with (2 ^ 32). rewrite Z.mod_small by lia. lia. }
  intros Hid. split; [by apply Hparse|]. split.
  - unfold batchIdText. cbn [String.length]. by rewrite length_hexString, length_hexDigits.
  - intros id' Hid' Heq. apply Hparse in Hid'. rewrite Heq, (Hparse id Hid) in Hid'.
    by injection Hid'.
Qed.

End ReceiverProperties.

(** ** Worked instances *)

Section RouteInstances.
Import Js Mongo Ws Pipeline Routes Backend Delivery.

Lemma worldAfterFirst_samples :
  samples worldAfterFirst = [post_prepare sampleFirst 1000 1000].
Proof.
  unfold worldAfterFirst. rewrite post_v1_samples_eq. cbn [fst samples freshWorld].
  by rewrite insertOne_fresh by (vm_compute; reflexivity).
Qed.

Lemma worldAfterFirst_unique : uniqueIndex (samples worldAfterFirst).
Proof.
  rewrite worldAfterFirst_samples. unfold uniqueIndex.
  change (indexKey <$> [post_prepare sampleFirst 1000 1000])
    with [indexKey (post_prepare sampleFirst 1000 1000)].
  apply NoDup_singleton.
Qed.

Lemma sample_lookup_round_trip_witness :
  uniqueIndex (samples worldAfterFirst)
  /\ get_v1_sample true "0xAAAA0001" (samples worldAfterFirst)
     = Found (post_prepare sampleFirst 1000 1000).
Proof.
  split; [exact worldAfterFirst_unique|].
  destruct (sample_lookup_round_trip worldAfterFirst "0xAAAA0001" worldAfterFirst_unique)
    as (_ & _ & Hfound & _).
  apply Hfound.
  - rewrite worldAfterFirst_samples. apply list_elem_of_singleton. reflexivity.
  - vm_compute. reflexivity.
Defined.

Lemma worldAfterFirst_before : allCreatedBefore 2000 (samples worldAfterFirst).
Proof.
  rewrite worldAfterFirst_samples. apply Forall_singleton.
  exists 1000. split; [vm_compute; reflexivity | lia].
Qed.

Lemma new_sample_heads_listing_witness :
  exists rest,
    sortDesc "createdAt"
      (samples (fst (post_v1_samples true sampleOther 2000 2000 worldAfterFirst)))
    = post_prepare sampleOther 2000 2000 :: rest
    /\ sortedAnswer "createdAt" (samples worldAfterFirst) rest.
Proof.
  assert (Hc : status (snd (post_v1_samples true sampleOther 2000 2000 worldAfterFirst))
               = 201) by (vm_compute; reflexivity).
  destruct (new_sample_heads_listing worldAfterFirst sampleOther 2000 2000
              (sortDesc "createdAt"
                 (samples (fst (post_v1_samples true sampleOther 2000 2000
                                  worldAfterFirst))))
              worldAfterFirst_before Hc (sortDesc_sortedAnswer _ _))
    as (rest & Hl & Hrest & _).
  exists rest. split; [exact Hl | exact Hrest].
Defined.

Lemma sampleOther_key : indexKey sampleFirst ≠ indexKey sampleOther.
Proof.
  intros H. apply (f_equal (fun v => match v with JString s => s | _ => EmptyString end)) in H.
  vm_compute in H. discriminate.
Qed.

Lemma distinct_batches_do_not_interfere_witness :
  indexKey sampleFirst ≠ indexKey sampleOther
  /\ snd (post_v1_samples true sampleOther 2000 2000
            (fst (post_v1_samples true sampleFirst 1000 1000 (freshWorld [clientA] []))))
     = snd (post_v1_samples true sampleOther 2000 2000 (freshWorld [clientA] [])).
Proof.
  split; [exact sampleOther_key|].
  assert (Hid : suppliedId sampleFirst = suppliedId sampleOther ->
                suppliedId sampleFirst = None) by (intros _; vm_compute; reflexivity).
  exact (proj1 (distinct_batches_do_not_interfere (freshWorld [clientA] [])
                  sampleFirst sampleOther true true 1000 1000 2000 2000
                  sampleOther_key Hid)).
Defined.

Lemma at_most_once_delivery_witness :
  exists s',
    run true raceSchedule (arrive raceSources (freshWorld [clientA; clientC] [clientB]))
      = Some s'
    /\ (framesFor 1 (JString "0xAAAA0001") (backend (world s')) <= 1)%nat
    /\ (framesFor 2 (JString "0xAAAA0001") (bridge (world s')) <= 1)%nat.
Proof.
  destruct (run true raceSchedule
              (arrive raceSources (freshWorld [clientA; clientC] [clientB])))
    as [s'|] eqn:Hrun; [|vm_compute in Hrun; discriminate].
  exists s'. split; [reflexivity|].
  assert (Hd1 : distinctHandles [clientA; clientC])
    by (unfold distinctHandles; apply (bool_decide_unpack _); vm_compute; reflexivity).
  assert (Hd2 : distinctHandles [clientB])
    by (unfold distinctHandles; apply (bool_decide_unpack _); vm_compute; reflexivity).
  destruct (at_most_once_delivery true [clientA; clientC] [clientB] raceSources
              raceSchedule s' Hd1 Hd2 Hrun) as [Hone _].
  split; [apply (Hone 1%nat (JString "0xAAAA0001")) | apply (Hone 2%nat (JString "0xAAAA0001"))].
Defined.

End RouteInstances.

Section FirmwareInstances.
Import Sender Firmware Receiver Backend.

Lemma ack_opens_link_window_witness :
  linkOK (onSent true 4294967000 (healthyState 50000 10000)) 4703 = true
  /\ linkOK (onSent true 4294967000 (healthyState 50000 10000)) 4704 = false.
Proof.
  destruct (ack_opens_link_window (healthyState 50000 10000) 4294967000 eq_refl
              ltac:(unfold ULONG_MOD; lia)) as (Hwin & _ & _).
  split.
  - exact (Hwin 4999 ltac:(unfold ULONG_MOD; lia)).
  - exact (Hwin 5000 ltac:(unfold ULONG_MOD; lia)).
Defined.

Lemma packed_date_time_round_trip_witness :
  packDateYMD dateExample = 20251103
  /\ upperDigits (packDateYMD dateExample) = 2025
  /\ middleDigits (packDateYMD dateExample) = 11
  /\ lowerDigits (packDateYMD dateExample) = 3
  /\ upperDigits (packTimeHMS timeExample) = 14
  /\ packMS timeExample = 420.
Proof.
  destruct (packed_date_time_round_trip dateExample timeExample eq_refl eq_refl
              ltac:(simpl; lia) ltac:(simpl; lia) ltac:(simpl; lia) ltac:(simpl; lia)
              ltac:(simpl; lia) ltac:(simpl; lia) ltac:(simpl; lia))
    as ((Hy & Hm & Hd) & (Hh & _) & (Hms & _) & _).
  split; [reflexivity|]. split; [exact Hy|]. split; [exact Hm|]. split; [exact Hd|].
  split; [exact Hh | exact Hms].
Defined.

Lemma released_packet_respects_gate_witness :
  exists pkt,
    onRelease 0 Z.div id (healthyState 50000 10000) goodFix goodFix (allAt 50000)
      50000 50000 avgReset dateExample timeExample 2944833811 = Some pkt
    /\ sessionMs pkt = 10000 /\ gpsFix pkt = 1 /\ ax pkt = 0.
Proof.
  eexists. split; [reflexivity|].
  destruct (released_packet_respects_gate Z Z 0 Z.div id
              (healthyState 50000 10000) goodFix goodFix (allAt 50000)
              50000 50000 avgReset dateExample timeExample 2944833811 _ eq_refl)
    as (_ & _ & Hdur & _ & _ & _ & Hfix & Hzero).
  split; [exact Hdur|]. split; [exact (Hfix eq_refl eq_refl eq_refl)|].
  exact (proj1 (Hzero eq_refl)).
Defined.

Lemma warmup_reads_are_not_averaged_witness :
  avg (runReads Z.add [MeasureRead (Some readingExample) 50000;
                       IdleRead (Some readingExample) 50020 50020 50021;
                       MeasureRead (Some readingExample) 50021]
         (sensorReady 3 0))
  = avgReset.
Proof.
  destruct (warmup_reads_are_not_averaged Z Z Z.add (sensorReady 3 0)
              ltac:(simpl; lia)) as (_ & Hkeep & _).
  apply (Hkeep [MeasureRead (Some readingExample) 50000;
                IdleRead (Some readingExample) 50020 50020 50021;
                MeasureRead (Some readingExample) 50021]).
  simpl. lia.
Defined.

Lemma reattached_sensor_is_healthy_before_any_read_witness :
  mpuReady (base (serviceMPU false 50000 50000 50003 true true sensorDetached)) = true
  /\ mpuHealthy (base (serviceMPU false 50000 50000 50003 true true sensorDetached)) 51202
     = true.
Proof.
  destruct (reattached_sensor_is_healthy_before_any_read Z Z Z.add sensorDetached
              false 50000 50000 50003 eq_refl ltac:(vm_compute; discriminate))
    as ((Hready & _) & Hhealthy & _).
  split; [exact Hready|]. rewrite Hhealthy. reflexivity.
Defined.

Lemma failing_sensor_is_taken_out_witness :
  mpuFailStreak (runReads Z.add [MeasureRead None 50000; MeasureRead None 50005;
                                 MeasureRead None 50010; MeasureRead None 50015]
                   (sensorReady 0 0)) = 4
  /\ mpuReady (base (serviceMPU true 50020 50020 50020 true true (sensorReady 0 4)))
     = false.
Proof.
  split.
  - destruct (failing_sensor_is_taken_out Z Z Z.add (sensorReady 0 0)
                50020 50020 50020 true true eq_refl) as (Hstreak & _).
    apply (Hstreak [MeasureRead None 50000; MeasureRead None 50005;
                    MeasureRead None 50010; MeasureRead None 50015]).
    + repeat constructor.
    + vm_compute. discriminate.
  - destruct (failing_sensor_is_taken_out Z Z Z.add (sensorReady 0 4)
                50020 50020 50020 true true eq_refl) as (_ & Hout & _).
    apply Hout; [simpl; lia|]. left. vm_compute. reflexivity.
Defined.

Lemma batchId_text_round_trip_witness :
  batchIdText 2944833811 = "0xAF869913"%string
  /\ parseInt (batchIdText 2944833811) = Some 2944833811.
Proof.
  split; [reflexivity|].
  exact (proj1 (batchId_text_round_trip 2944833811 ltac:(lia))).
Defined.

End FirmwareInstances.

